(** * TinyTIFF-Cxx reader: a shallow embedding of [tiff_cxx.cpp]

  The development follows the translation unit top to bottom: the
  enumerations, [tiff::util] (byte swapping and the range intersection),
  the reader structures, [ReaderPrivate] ([read], [read_ifd],
    [read_next_frame], [get_sample_data_internal], [open]) and the public
    [Reader] facade.  Fixed-width integers are [Z] with the wrap-around
  written out; the input stream is an explicit value threaded through
  every call. *)

From Stdlib Require Import ZArith List Bool Lia.
From Stdlib.Strings Require Import Byte.
Import ListNotations.
Local Open Scope Z_scope.

(** ** Fixed-width unsigned arithmetic *)

(** [wrap w x] is the value an unsigned [w]-bit object holds after being
  assigned [x]. *)
Definition wrap (w x : Z) : Z := x mod 2 ^ w.

Definition u8 := wrap 8.
Definition u16 := wrap 16.
Definition u32 := wrap 32.
Definition u64 := wrap 64.

(** The data models the source is written for ([_WIN32] or not): the width
  of [unsigned long], the element type of [Vec2ul]. *)
Inductive DataModel := LP64 | LLP64.

Definition ulong_bits (dm : DataModel) : Z :=
match dm with LP64 => 64 | LLP64 => 32 end.

(** Byte layout of the executing machine, which [util::get_byte_order] and
  every reinterpretation of raw bytes as an integer depend on. *)
Inductive Host := LittleHost | BigHost.

(** ** Enumerations of [tiff_cxx.h] and [tiff_cxx.cpp] *)

Inductive Error :=
| NoError
| FormatNotSupport
| CompressionNotSupport
| TiledNotSupport
| OrientationNotSupport
| PhotometricInterpretationNotSupport
| MultiSampleSizeNotSupport
| InvalidImageSize
| InvalidBitPerSample
| InvalidTiffByteOrder
| InvalidTiffMagicNumber
| NoMoreImagesInTiff
| StripDataLost
| OpenFileFailed
| ReaderIsNotGoodYet.

Inductive ByteOrder := Unknown | BigEndian | LittleEndian.

Definition ByteOrder_eqb (a b : ByteOrder) : bool :=
  match a, b with
  | Unknown, Unknown | BigEndian, BigEndian | LittleEndian, LittleEndian => true
  | _, _ => false
  end.

(** The remaining [enum class]es are filled by a cast from the raw tag
    value, so an object of such a type holds any value of its underlying
    integer type; they are kept as [Z] with their enumerators as constants. *)
Module DataType.
Definition Byte := 1.
Definition ASCII := 2.
Definition Short := 3.
Definition Long := 4.
Definition Rational := 5.
End DataType.

Module CompressionType.
Definition None := 1.
Definition CCITT := 2.
Definition PackBits := 32773.
End CompressionType.

Module Orientation.
Definition Stantard := 1.
End Orientation.

Module FillOrder.
Definition Default := 1.
Definition Reverse := 2.
End FillOrder.

Module PlanarConfiguration.
Definition Chunky := 1.
Definition Planar := 2.
End PlanarConfiguration.

Module PhotometricInterpretation.
Definition WhiteIsZero := 0.
Definition BlackIsZero := 1.
Definition RGB := 2.
Definition Palette := 3.
Definition Transparency := 4.
Definition CMYK := 5.
Definition YCBCR := 6.
Definition CIELAB := 8.
End PhotometricInterpretation.

Module ResolutionUnit.
Definition None := 1.
Definition Inch := 2.
Definition CentiMeter := 3.
End ResolutionUnit.

Module SampleFormat.
Definition Uint := 1.
Definition Int := 2.
Definition Float := 3.
Definition Undefined := 4.
End SampleFormat.

Module Tags.
Definition ImageWidth := 256.
Definition ImageLength := 257.
Definition BitsPerSample := 258.
Definition Compression := 259.
Definition PhotometricInterpretation := 262.
Definition FillOrder := 266.
Definition ImageDescription := 270.
Definition StripOffsets := 273.
Definition Orientation := 274.
Definition SamplesPerPixel := 277.
Definition RowsPerStrip := 278.
Definition StripByteCounts := 279.
Definition XResolution := 282.
Definition YResolution := 283.
Definition PlanarConfig := 284.
Definition ResolutionUnit := 296.
Definition TileWidth := 322.
Definition TileLength := 323.
Definition TileOffsets := 324.
Definition TileByteCounts := 325.
Definition ExtraSamples := 338.
Definition SampleFormat := 339.
End Tags.

(** [std::variant<uint8_t, uint16_t, uint32_t, uint64_t>] *)
Inductive variant_t :=
| V8 (v : Z)
| V16 (v : Z)
| V32 (v : Z)
| V64 (v : Z).

(** ** [namespace util] *)

Module util.

Definition get_byte_order (h : Host) : ByteOrder :=
  match h with
  | BigHost => BigEndian
  | LittleHost => LittleEndian
  end.

(** [do_ranges_overlap]: the two ranges are [Vec2ul], all arithmetic is
    on [unsigned long]. *)
Definition do_ranges_overlap (dm : DataModel) (r1 r2 : Z * Z) : option (Z * Z) :=
  let ul := wrap (ulong_bits dm) in
  let total_range := ul (Z.max (snd r1) (snd r2) - Z.min (fst r1) (fst r2)) in
  let sum_of_ranges := ul (ul (snd r1 - fst r1) + ul (snd r2 - fst r2)) in
  if total_range <? sum_of_ranges
  then Some (Z.max (fst r1) (fst r2), Z.min (snd r1) (snd r2))
  else None.

(** [byte_swap<uint64_t>] *)
Definition byte_swap64 (n : Z) : Z :=
  u64 (Z.shiftl (Z.land n 0x00000000000000FF) 56
       + Z.shiftl (Z.land n 0x000000000000FF00) 40
       + Z.shiftl (Z.land n 0x0000000000FF0000) 24
       + Z.shiftl (Z.land n 0x00000000FF000000) 8
       + Z.shiftr (Z.land n 0x000000FF00000000) 8
       + Z.shiftr (Z.land n 0x0000FF0000000000) 24
       + Z.shiftr (Z.land n 0x00FF000000000000) 40
       + Z.shiftr (Z.land n 0xFF00000000000000) 56).

(** [byte_swap<uint32_t>] *)
Definition byte_swap32 (n : Z) : Z :=
  u32 (Z.shiftl (Z.land n 0x000000FF) 24
       + Z.shiftl (Z.land n 0x0000FF00) 8
       + Z.shiftr (Z.land n 0x00FF0000) 8
       + Z.shiftr (Z.land n 0xFF000000) 24).

(** [byte_swap<uint16_t>]: the operands are promoted to [int], the result
    is converted back to [uint16_t]. *)
Definition byte_swap16 (n : Z) : Z :=
  u16 (Z.lor (Z.shiftr n 8) (Z.shiftl n 8)).

(** [byte_swap<value_t>] for a [value_t] of [bytes] bytes; the primary
    template (used for [uint8_t]) returns its argument. *)
Definition byte_swap (bytes : Z) (n : Z) : Z :=
  if bytes =? 8 then byte_swap64 n
  else if bytes =? 4 then byte_swap32 n
  else if bytes =? 2 then byte_swap16 n
  else n.

End util.

(** ** Raw bytes and their reinterpretation as integers *)

Definition byte_val (b : byte) : Z := Z.of_N (Byte.to_N b).

(** The byte an 8-bit object holding [v] consists of. *)
Definition byte_of_val (v : Z) : byte :=
  match Byte.of_N (Z.to_N (v mod 256)) with
  | Some b => b
  | None => x00
  end.

Fixpoint le_value (bs : list byte) : Z :=
  match bs with
  | [] => 0
  | b :: r => byte_val b + 256 * le_value r
  end.

Fixpoint le_bytes (n : nat) (v : Z) : list byte :=
  match n with
  | O => []
  | S n' => byte_of_val v :: le_bytes n' (v / 256)
  end.

(** [load h mem] is the unsigned integer whose object representation on
    the machine [h] is [mem]; [store h n v] is the representation of [v] in
    an [n]-byte unsigned integer. *)
Definition load (h : Host) (mem : list byte) : Z :=
  match h with
  | LittleHost => le_value mem
  | BigHost => le_value (rev mem)
  end.

Definition store (h : Host) (n : nat) (v : Z) : list byte :=
  match h with
  | LittleHost => le_bytes n v
  | BigHost => rev (le_bytes n v)
  end.

(** ** [std::ifstream]

    The stream is the file's bytes, the get position and the error state.
    Every short read of the reader sets [eofbit] together with [failbit],
    and [eofbit] alone is only produced by [ignore] in [open], which is
    followed by [clear()]: one flag stands for both. *)
Record ifstream := mk_ifstream {
  contents : list byte;
  gptr : Z;
  failbit : bool
}.

Module istream.

Definition good (s : ifstream) : bool := negb (failbit s).

Definition clear (s : ifstream) : ifstream :=
  mk_ifstream (contents s) (gptr s) false.

(** [tellg()]: [pos_type(-1)] when [fail()]. *)
Definition tellg (s : ifstream) : Z :=
  if failbit s then -1 else gptr s.

(** [seekg(off, std::ios_base::beg)] and [seekg(pos)]: nothing happens when
    [fail()]; a negative target makes the seek fail; a target past the end
    of the file is accepted (the next read finds no bytes). *)
Definition seekg (off : Z) (s : ifstream) : ifstream :=
  if failbit s then s
  else if off <? 0 then mk_ifstream (contents s) (gptr s) true
  else mk_ifstream (contents s) off false.

(** [seekg(off, std::ios_base::cur)] *)
Definition seekg_cur (off : Z) (s : ifstream) : ifstream :=
  if failbit s then s
  else if gptr s + off <? 0 then mk_ifstream (contents s) (gptr s) true
  else mk_ifstream (contents s) (gptr s + off) false.

(** [read(dst, n)]: the bytes stored at [dst] (their number is [gcount()])
    and the stream afterwards; fewer than [n] bytes set [eofbit | failbit],
    and a stream that is not [good()] yields nothing and keeps [failbit]. *)
Definition read (n : Z) (s : ifstream) : list byte * ifstream :=
  if failbit s then ([], s)
  else
    let got := firstn (Z.to_nat n) (skipn (Z.to_nat (gptr s)) (contents s)) in
    (got,
     mk_ifstream (contents s) (gptr s + Z.of_nat (length got))
       (Z.of_nat (length got) <? n)).

End istream.

(** ** [namespace reader]: the structures *)

(** [ReaderFrame].  [resolution] keeps, for each coordinate, the two
    operands of the [float] division that produces it; [description] is
    the sequence of [char] values. *)
Record ReaderFrame := mk_ReaderFrame {
  width : Z;
  height : Z;
  compression : Z;
  samples_per_pixel : Z;
  bits_per_sample : Z;
  planar_config : Z;
  sample_format : Z;
  image_length : Z;
  orientation : Z;
  fill_order : Z;
  resolution_unit : Z;
  resolution : (Z * Z) * (Z * Z);
  photometric_interpertation : Z;
  is_tiled : bool;
  rows_per_strip : Z;
  strip_count : Z;
  strip_offsets : list Z;
  strip_byte_counts : list Z;
  description : list Z
}.

(** [ReaderFrame{}]: the default member initialisers. *)
Definition ReaderFrame_default : ReaderFrame :=
  mk_ReaderFrame 0 0 CompressionType.None 1 0 PlanarConfiguration.Chunky
    SampleFormat.Uint 0 Orientation.Stantard FillOrder.Default
    ResolutionUnit.None ((1, 1), (1, 1))
    PhotometricInterpretation.BlackIsZero false 0 0 [] [] [].

Definition set_width (v : Z) (f : ReaderFrame) : ReaderFrame :=
  mk_ReaderFrame v (height f) (compression f) (samples_per_pixel f) (bits_per_sample f) (planar_config f) (sample_format f) (image_length f) (orientation f) (fill_order f) (resolution_unit f) (resolution f) (photometric_interpertation f) (is_tiled f) (rows_per_strip f) (strip_count f) (strip_offsets f) (strip_byte_counts f) (description f).

Definition set_height (v : Z) (f : ReaderFrame) : ReaderFrame :=
  mk_ReaderFrame (width f) v (compression f) (samples_per_pixel f) (bits_per_sample f) (planar_config f) (sample_format f) (image_length f) (orientation f) (fill_order f) (resolution_unit f) (resolution f) (photometric_interpertation f) (is_tiled f) (rows_per_strip f) (strip_count f) (strip_offsets f) (strip_byte_counts f) (description f).

Definition set_compression (v : Z) (f : ReaderFrame) : ReaderFrame :=
  mk_ReaderFrame (width f) (height f) v (samples_per_pixel f) (bits_per_sample f) (planar_config f) (sample_format f) (image_length f) (orientation f) (fill_order f) (resolution_unit f) (resolution f) (photometric_interpertation f) (is_tiled f) (rows_per_strip f) (strip_count f) (strip_offsets f) (strip_byte_counts f) (description f).

Definition set_samples_per_pixel (v : Z) (f : ReaderFrame) : ReaderFrame :=
  mk_ReaderFrame (width f) (height f) (compression f) v (bits_per_sample f) (planar_config f) (sample_format f) (image_length f) (orientation f) (fill_order f) (resolution_unit f) (resolution f) (photometric_interpertation f) (is_tiled f) (rows_per_strip f) (strip_count f) (strip_offsets f) (strip_byte_counts f) (description f).

Definition set_bits_per_sample (v : Z) (f : ReaderFrame) : ReaderFrame :=
  mk_ReaderFrame (width f) (height f) (compression f) (samples_per_pixel f) v (planar_config f) (sample_format f) (image_length f) (orientation f) (fill_order f) (resolution_unit f) (resolution f) (photometric_interpertation f) (is_tiled f) (rows_per_strip f) (strip_count f) (strip_offsets f) (strip_byte_counts f) (description f).

Definition set_planar_config (v : Z) (f : ReaderFrame) : ReaderFrame :=
  mk_ReaderFrame (width f) (height f) (compression f) (samples_per_pixel f) (bits_per_sample f) v (sample_format f) (image_length f) (orientation f) (fill_order f) (resolution_unit f) (resolution f) (photometric_interpertation f) (is_tiled f) (rows_per_strip f) (strip_count f) (strip_offsets f) (strip_byte_counts f) (description f).

Definition set_sample_format (v : Z) (f : ReaderFrame) : ReaderFrame :=
  mk_ReaderFrame (width f) (height f) (compression f) (samples_per_pixel f) (bits_per_sample f) (planar_config f) v (image_length f) (orientation f) (fill_order f) (resolution_unit f) (resolution f) (photometric_interpertation f) (is_tiled f) (rows_per_strip f) (strip_count f) (strip_offsets f) (strip_byte_counts f) (description f).

Definition set_image_length (v : Z) (f : ReaderFrame) : ReaderFrame :=
  mk_ReaderFrame (width f) (height f) (compression f) (samples_per_pixel f) (bits_per_sample f) (planar_config f) (sample_format f) v (orientation f) (fill_order f) (resolution_unit f) (resolution f) (photometric_interpertation f) (is_tiled f) (rows_per_strip f) (strip_count f) (strip_offsets f) (strip_byte_counts f) (description f).

Definition set_orientation (v : Z) (f : ReaderFrame) : ReaderFrame :=
  mk_ReaderFrame (width f) (height f) (compression f) (samples_per_pixel f) (bits_per_sample f) (planar_config f) (sample_format f) (image_length f) v (fill_order f) (resolution_unit f) (resolution f) (photometric_interpertation f) (is_tiled f) (rows_per_strip f) (strip_count f) (strip_offsets f) (strip_byte_counts f) (description f).

Definition set_fill_order (v : Z) (f : ReaderFrame) : ReaderFrame :=
  mk_ReaderFrame (width f) (height f) (compression f) (samples_per_pixel f) (bits_per_sample f) (planar_config f) (sample_format f) (image_length f) (orientation f) v (resolution_unit f) (resolution f) (photometric_interpertation f) (is_tiled f) (rows_per_strip f) (strip_count f) (strip_offsets f) (strip_byte_counts f) (description f).

Definition set_resolution_unit (v : Z) (f : ReaderFrame) : ReaderFrame :=
  mk_ReaderFrame (width f) (height f) (compression f) (samples_per_pixel f) (bits_per_sample f) (planar_config f) (sample_format f) (image_length f) (orientation f) (fill_order f) v (resolution f) (photometric_interpertation f) (is_tiled f) (rows_per_strip f) (strip_count f) (strip_offsets f) (strip_byte_counts f) (description f).

Definition set_resolution (v : (Z * Z) * (Z * Z)) (f : ReaderFrame) : ReaderFrame :=
  mk_ReaderFrame (width f) (height f) (compression f) (samples_per_pixel f) (bits_per_sample f) (planar_config f) (sample_format f) (image_length f) (orientation f) (fill_order f) (resolution_unit f) v (photometric_interpertation f) (is_tiled f) (rows_per_strip f) (strip_count f) (strip_offsets f) (strip_byte_counts f) (description f).

Definition set_photometric_interpertation (v : Z) (f : ReaderFrame) : ReaderFrame :=
  mk_ReaderFrame (width f) (height f) (compression f) (samples_per_pixel f) (bits_per_sample f) (planar_config f) (sample_format f) (image_length f) (orientation f) (fill_order f) (resolution_unit f) (resolution f) v (is_tiled f) (rows_per_strip f) (strip_count f) (strip_offsets f) (strip_byte_counts f) (description f).

Definition set_is_tiled (v : bool) (f : ReaderFrame) : ReaderFrame :=
  mk_ReaderFrame (width f) (height f) (compression f) (samples_per_pixel f) (bits_per_sample f) (planar_config f) (sample_format f) (image_length f) (orientation f) (fill_order f) (resolution_unit f) (resolution f) (photometric_interpertation f) v (rows_per_strip f) (strip_count f) (strip_offsets f) (strip_byte_counts f) (description f).

Definition set_rows_per_strip (v : Z) (f : ReaderFrame) : ReaderFrame :=
  mk_ReaderFrame (width f) (height f) (compression f) (samples_per_pixel f) (bits_per_sample f) (planar_config f) (sample_format f) (image_length f) (orientation f) (fill_order f) (resolution_unit f) (resolution f) (photometric_interpertation f) (is_tiled f) v (strip_count f) (strip_offsets f) (strip_byte_counts f) (description f).

Definition set_strip_count (v : Z) (f : ReaderFrame) : ReaderFrame :=
  mk_ReaderFrame (width f) (height f) (compression f) (samples_per_pixel f) (bits_per_sample f) (planar_config f) (sample_format f) (image_length f) (orientation f) (fill_order f) (resolution_unit f) (resolution f) (photometric_interpertation f) (is_tiled f) (rows_per_strip f) v (strip_offsets f) (strip_byte_counts f) (description f).

Definition set_strip_offsets (v : list Z) (f : ReaderFrame) : ReaderFrame :=
  mk_ReaderFrame (width f) (height f) (compression f) (samples_per_pixel f) (bits_per_sample f) (planar_config f) (sample_format f) (image_length f) (orientation f) (fill_order f) (resolution_unit f) (resolution f) (photometric_interpertation f) (is_tiled f) (rows_per_strip f) (strip_count f) v (strip_byte_counts f) (description f).

Definition set_strip_byte_counts (v : list Z) (f : ReaderFrame) : ReaderFrame :=
  mk_ReaderFrame (width f) (height f) (compression f) (samples_per_pixel f) (bits_per_sample f) (planar_config f) (sample_format f) (image_length f) (orientation f) (fill_order f) (resolution_unit f) (resolution f) (photometric_interpertation f) (is_tiled f) (rows_per_strip f) (strip_count f) (strip_offsets f) v (description f).

Definition set_description (v : list Z) (f : ReaderFrame) : ReaderFrame :=
  mk_ReaderFrame (width f) (height f) (compression f) (samples_per_pixel f) (bits_per_sample f) (planar_config f) (sample_format f) (image_length f) (orientation f) (fill_order f) (resolution_unit f) (resolution f) (photometric_interpertation f) (is_tiled f) (rows_per_strip f) (strip_count f) (strip_offsets f) (strip_byte_counts f) v.

Record ReaderFile := mk_ReaderFile {
  first_record_offset : Z;
  next_ifd_offset : Z;
  system_byte_order : ByteOrder;
  file_byte_order : ByteOrder;
  size : Z;
  current_frame : ReaderFrame;
  stream : ifstream
}.

(** Image File Directory entry *)
Record IFD := mk_IFD {
  tag : Z;
  type : Z;
  count : Z;
  value : Z;
  value2 : Z;
  pvalue : list Z;
  pvalue2 : list Z
}.

(** [ReaderPrivate]; [tiff_path] is the argument of [open] below and
    [last_error] is never written. *)
Record ReaderPrivate := mk_ReaderPrivate {
  file : ReaderFile;
  good : bool
}.

Definition ReaderPrivate_default : ReaderPrivate :=
  mk_ReaderPrivate
    (mk_ReaderFile 0 0 Unknown Unknown 0 ReaderFrame_default
       (mk_ifstream [] 0 false))
    false.

Definition set_stream (st : ifstream) (p : ReaderPrivate) : ReaderPrivate :=
  let f := file p in
  mk_ReaderPrivate
    (mk_ReaderFile (first_record_offset f) (next_ifd_offset f)
       (system_byte_order f) (file_byte_order f) (size f) (current_frame f) st)
    (good p).

Definition set_current_frame (fr : ReaderFrame) (p : ReaderPrivate) : ReaderPrivate :=
  let f := file p in
  mk_ReaderPrivate
    (mk_ReaderFile (first_record_offset f) (next_ifd_offset f)
       (system_byte_order f) (file_byte_order f) (size f) fr (stream f))
    (good p).

Definition set_next_ifd_offset (v : Z) (p : ReaderPrivate) : ReaderPrivate :=
  let f := file p in
  mk_ReaderPrivate
    (mk_ReaderFile (first_record_offset f) v
       (system_byte_order f) (file_byte_order f) (size f) (current_frame f)
       (stream f))
    (good p).

Definition set_first_record_offset (v : Z) (p : ReaderPrivate) : ReaderPrivate :=
  let f := file p in
  mk_ReaderPrivate
    (mk_ReaderFile v (next_ifd_offset f)
       (system_byte_order f) (file_byte_order f) (size f) (current_frame f)
       (stream f))
    (good p).

Definition set_system_byte_order (v : ByteOrder) (p : ReaderPrivate) : ReaderPrivate :=
  let f := file p in
  mk_ReaderPrivate
    (mk_ReaderFile (first_record_offset f) (next_ifd_offset f)
       v (file_byte_order f) (size f) (current_frame f) (stream f))
    (good p).

Definition set_file_byte_order (v : ByteOrder) (p : ReaderPrivate) : ReaderPrivate :=
  let f := file p in
  mk_ReaderPrivate
    (mk_ReaderFile (first_record_offset f) (next_ifd_offset f)
       (system_byte_order f) v (size f) (current_frame f) (stream f))
    (good p).

Definition set_size (v : Z) (p : ReaderPrivate) : ReaderPrivate :=
  let f := file p in
  mk_ReaderPrivate
    (mk_ReaderFile (first_record_offset f) (next_ifd_offset f)
       (system_byte_order f) (file_byte_order f) v (current_frame f) (stream f))
    (good p).

Definition set_good (b : bool) (p : ReaderPrivate) : ReaderPrivate :=
  mk_ReaderPrivate (file p) b.

(** The state every member function of [ReaderPrivate] runs in. *)
Definition io (A : Type) : Type := ReaderPrivate -> A * ReaderPrivate.

Definition ret {A : Type} (a : A) : io A := fun p => (a, p).

Definition bind {A B : Type} (m : io A) (k : A -> io B) : io B :=
  fun p => let (a, p') := m p in k a p'.

Notation "x <- m ;; k" := (bind m (fun x => k))
  (at level 61, m at next level, right associativity).
Notation "m ;;; k" := (bind m (fun _ => k))
  (at level 61, right associativity).

(** The stream member functions, lifted to the reader state. *)
Definition stream_clear : io unit :=
  fun p => (tt, set_stream (istream.clear (stream (file p))) p).

Definition stream_tellg : io Z :=
  fun p => (istream.tellg (stream (file p)), p).

Definition stream_seekg (off : Z) : io unit :=
  fun p => (tt, set_stream (istream.seekg off (stream (file p))) p).

Definition stream_seekg_cur (off : Z) : io unit :=
  fun p => (tt, set_stream (istream.seekg_cur off (stream (file p))) p).

(** ** Outcomes of a call, vectors and raw buffers *)

(** How a call ends: it returns, [std::vector::at] throws
    [std::out_of_range], or it touches memory outside an object (no
    behaviour is defined, or the runtime-constraint handler of [memcpy_s]
    ends the process). *)
Inductive outcome (A : Type) : Type :=
| Returned (a : A)
| Throws
| Undefined.

Arguments Returned {A} a.
Arguments Throws {A}.
Arguments Undefined {A}.

Definition obind {A B : Type} (m : outcome A) (k : A -> outcome B) : outcome B :=
  match m with
  | Returned a => k a
  | Throws => Throws
  | Undefined => Undefined
  end.

Notation "x <-- m ;; k" := (obind m (fun x => k))
  (at level 61, m at next level, right associativity).

Definition len {A : Type} (l : list A) : Z := Z.of_nat (length l).

(** The vector [l] after [src] has been stored from index [at_] on. *)
Definition splice (l : list byte) (at_ : Z) (src : list byte) : list byte :=
  firstn (Z.to_nat at_) l ++ src ++ skipn (Z.to_nat at_ + length src) l.

(** [v.at(i)] and [v[i]] *)
Definition vec_at (v : list Z) (i : Z) : outcome Z :=
  match nth_error v (Z.to_nat i) with
  | Some x => Returned x
  | None => Throws
  end.

Definition vec_index (v : list Z) (i : Z) : outcome Z :=
  match nth_error v (Z.to_nat i) with
  | Some x => Returned x
  | None => Undefined
  end.

(** Conversion of an [unsigned long] to [off_type], a signed 64-bit
    integer. *)
Definition to_streamoff (v : Z) : Z :=
  if v <? 2 ^ 63 then v else v - 2 ^ 64.

(** [file.stream.read] into [buffer.data() + at_], [n] bytes: the buffer,
    [gcount()] and the stream afterwards.  The bytes delivered have to fit. *)
Definition read_into (buffer : list byte) (at_ n : Z) (st : ifstream)
  : outcome (list byte * Z * ifstream) :=
  let (got, st') := istream.read n st in
  if at_ + len got <=? len buffer
  then Returned (splice buffer at_ got, len got, st')
  else Undefined.

(** ** [struct ReaderPrivate]: reading values and directory entries *)

Section Private.

(** The machine the reader runs on. *)
Variable host : Host.
Variable dm : DataModel.

(** [byte_swap_if_need<value_t>], for a [value_t] of [bytes] bytes. *)
Definition byte_swap_if_need (bytes n : Z) (p : ReaderPrivate) : Z :=
  if negb (ByteOrder_eqb (system_byte_order (file p)) (file_byte_order (file p)))
  then util.byte_swap bytes n
  else n.

(** [read<value_t>()]: [result] starts as zero, the bytes the stream
    delivers overwrite the front of its object representation. *)
Definition read (bytes : Z) : io Z := fun p =>
  if istream.good (stream (file p)) then
    let (got, st) := istream.read bytes (stream (file p)) in
    let result :=
      load host (got ++ repeat x00 (Z.to_nat bytes - length got)) in
    (byte_swap_if_need bytes result p, set_stream st p)
  else (0, p).

(** [for (int i = 0; i < n; ++i) { v = read<value_t>(); if (i < d.count)
    d.pvalue.emplace_back(v); }], started at [i]. *)
Fixpoint read_inline (bytes count i : Z) (n : nat) (pv : list Z) : io (list Z) :=
  match n with
  | O => ret pv
  | S n' =>
      v <- read bytes ;;
      read_inline bytes count (i + 1) n' (if i <? count then pv ++ [v] else pv)
  end.

(** [for (uint32_t i = 0; i < d.count; ++i)
    d.pvalue.emplace_back(read<value_t>());] with [n] passes left. *)
Fixpoint read_values (bytes : Z) (n : nat) (pv : list Z) : io (list Z) :=
  match n with
  | O => ret pv
  | S n' => v <- read bytes ;; read_values bytes n' (pv ++ [v])
  end.

(** The loop of the [Rational] case, filling [pvalue] and [pvalue2]. *)
Fixpoint read_rationals (n : nat) (pv pv2 : list Z) : io (list Z * list Z) :=
  match n with
  | O => ret (pv, pv2)
  | S n' =>
      v <- read 4 ;;
      v2 <- read 4 ;;
      read_rationals n' (pv ++ [v]) (pv2 ++ [v2])
  end.

(** The [switch (d.type)] of [read_ifd]: the values, [d.value] as the
    [default] case leaves it, and [pos_changed]. *)
Definition read_ifd_values (type count : Z)
  : io (list Z * list Z * Z * bool) := fun p =>
  let fsize := size (file p) in
  if (type =? DataType.Byte) || (type =? DataType.ASCII) then
    if 0 <? count then
      if count <=? 4 then
        (pv <- read_inline 1 count 0 4 [] ;; ret (pv, [], 0, false)) p
      else
        (offset <- read 4 ;;
         if offset + count * 1 <=? fsize then
           pv <- read_values 1 (Z.to_nat count) [] ;; ret (pv, [], 0, true)
         else ret ([], [], 0, true)) p
    else ret ([], [], 0, false) p
  else if type =? DataType.Short then
    if count <=? 2 then
      (pv <- read_inline 2 count 0 2 [] ;; ret (pv, [], 0, false)) p
    else
      (offset <- read 4 ;;
       if offset + count * 2 <=? fsize then
         stream_clear ;;;
         stream_seekg offset ;;;
         pv <- read_values 2 (Z.to_nat count) [] ;; ret (pv, [], 0, true)
       else ret ([], [], 0, true)) p
  else if type =? DataType.Long then
    if count <=? 1 then
      (v <- read 4 ;; ret ([v], [], 0, false)) p
    else
      (offset <- read 4 ;;
       if offset + count * 4 <=? fsize then
         stream_clear ;;;
         stream_seekg offset ;;;
         pv <- read_values 4 (Z.to_nat count) [] ;; ret (pv, [], 0, true)
       else ret ([], [], 0, true)) p
  else if type =? DataType.Rational then
    (offset <- read 4 ;;
     if offset + count * 4 <=? fsize then
       stream_clear ;;;
       stream_seekg offset ;;;
       pvs <- read_rationals (Z.to_nat count) [] [] ;;
       ret (fst pvs, snd pvs, 0, true)
     else ret ([], [], 0, true)) p
  else
    (v <- read 4 ;; ret ([], [], v, false)) p.

(** [read_ifd] *)
Definition read_ifd : io IFD :=
  tag <- read 2 ;;
  type <- read 2 ;;
  count <- read 4 ;;
  pos <- stream_tellg ;;
  r <- read_ifd_values type count ;;
  let '(pv, pv2, v, pos_changed) := r in
  let value := match pv with [] => v | x :: _ => x end in
  let value2 := match pv2 with [] => 0 | x :: _ => x end in
  (if pos_changed : bool then
     stream_clear ;;;
     stream_seekg pos ;;;
     stream_seekg_cur 4
   else ret tt) ;;;
  ret (mk_IFD tag type count value value2 pv pv2).

(** Every element of [l] is [x]: the loop over [ifd.pvalue] of the
    [BitsPerSample] case. *)
Definition all_equal_to (x : Z) (l : list Z) : bool :=
  forallb (fun y => y =? x) l.

(** The [switch (ifd.tag)] of [read_next_frame], on the frame under
    construction and the error so far. *)
Definition dispatch_tag (ifd : IFD) (fe : ReaderFrame * Error) : ReaderFrame * Error :=
  let (fr, err) := fe in
  let t := tag ifd in
  let has_values := (0 <? count ifd) && negb (length (pvalue ifd) =? 0)%nat in
  if t =? Tags.ImageWidth then (set_width (value ifd) fr, err)
  else if t =? Tags.ImageLength then (set_image_length (value ifd) fr, err)
  else if t =? Tags.BitsPerSample then
    match pvalue ifd with
    | x :: rest =>
        if 0 <? count ifd then
          (set_bits_per_sample x fr,
           if all_equal_to x rest then err else MultiSampleSizeNotSupport)
        else (set_bits_per_sample (value ifd) fr, err)
    | [] => (set_bits_per_sample (value ifd) fr, err)
    end
  else if t =? Tags.Compression then (set_compression (u16 (value ifd)) fr, err)
  else if t =? Tags.StripOffsets then
    if has_values then
      (set_strip_offsets (strip_offsets fr ++ pvalue ifd)
         (set_strip_count (count ifd) fr), err)
    else (fr, err)
  else if t =? Tags.SamplesPerPixel then
    (set_samples_per_pixel (u16 (value ifd)) fr, err)
  else if t =? Tags.RowsPerStrip then (set_rows_per_strip (value ifd) fr, err)
  else if t =? Tags.SampleFormat then
    (set_sample_format (u16 (value ifd)) fr, err)
  else if t =? Tags.ImageDescription then
    if has_values then (set_description (map u8 (pvalue ifd)) fr, err)
    else (fr, err)
  else if t =? Tags.StripByteCounts then
    if has_values then
      (set_strip_byte_counts (strip_byte_counts fr ++ pvalue ifd)
         (set_strip_count (count ifd) fr), err)
    else (fr, err)
  else if t =? Tags.PlanarConfig then
    (set_planar_config (u16 (value ifd)) fr, err)
  else if t =? Tags.Orientation then (set_orientation (u8 (value ifd)) fr, err)
  else if t =? Tags.PhotometricInterpretation then
    (set_photometric_interpertation (value ifd) fr, err)
  else if t =? Tags.FillOrder then (set_fill_order (u8 (value ifd)) fr, err)
  else if (t =? Tags.TileByteCounts) || (t =? Tags.TileLength)
          || (t =? Tags.TileOffsets) || (t =? Tags.TileWidth) then
    (set_is_tiled true fr, err)
  else if t =? Tags.XResolution then
    (set_resolution ((value ifd, value2 ifd), snd (resolution fr)) fr, err)
  else if t =? Tags.YResolution then
    (set_resolution (fst (resolution fr), (value ifd, value2 ifd)) fr, err)
  else if t =? Tags.ResolutionUnit then
    (set_resolution_unit (u16 (value ifd)) fr, err)
  else (fr, err).

(** [for (uint16_t i = 0; i < ifd_count; ++i) { IFD ifd = read_ifd();
    switch (ifd.tag) ... }] with [n] passes left; the frame under
    construction is [file.current_frame]. *)
Fixpoint read_entries (n : nat) (err : Error) : io Error :=
  match n with
  | O => ret err
  | S n' =>
      ifd <- read_ifd ;;
      fun p =>
        let (fr, err') := dispatch_tag ifd (current_frame (file p), err) in
        read_entries n' err' (set_current_frame fr p)
  end.

Definition Error_is_NoError (e : Error) : bool :=
  match e with NoError => true | _ => false end.

(** [ReaderPrivate::read_next_frame] *)
Definition read_next_frame : io Error := fun p0 =>
  let p := set_current_frame ReaderFrame_default p0 in
  let next := next_ifd_offset (file p) in
  let (err, p') :=
    if negb (next =? 0) && (next + 2 <? size (file p)) then
      (stream_clear ;;;
       stream_seekg next ;;;
       ifd_count <- read 2 ;;
       err <- read_entries (Z.to_nat ifd_count) NoError ;;
       (fun q =>
          let fr := current_frame (file q) in
          (tt, set_current_frame (set_height (image_length fr) fr) q)) ;;;
       stream_clear ;;;
       stream_seekg (next + 2 + 12 * ifd_count) ;;;
       v <- read 4 ;;
       (fun q => (tt, set_next_ifd_offset v q)) ;;;
       ret err) p
    else (NoMoreImagesInTiff, p) in
  (err, set_good (Error_is_NoError err) p').

(** ** [ReaderPrivate::get_sample_data_internal] *)

(** The strip loop of the single-sample or planar case, with [n] passes
    left. *)
Fixpoint planar_strips (n : nat) (fr : ReaderFrame)
    (sample_start_bytes sample_end_bytes : Z)
    (strip file_imageidx_bytes output_imageidx_bytes : Z)
    (buffer : list byte) (st : ifstream) (err : Error)
  : outcome (list byte * ifstream * Error) :=
  match n with
  | O => Returned (buffer, st, err)
  | S n' =>
      strip_size_bytes <-- vec_at (strip_byte_counts fr) strip ;;
      strip_offset_bytes <-- vec_at (strip_offsets fr) strip ;;
      match util.do_ranges_overlap dm
              (sample_start_bytes, sample_end_bytes)
              (file_imageidx_bytes, u32 (file_imageidx_bytes + strip_size_bytes))
      with
      | Some bytes_to_read_range =>
          let ul := wrap (ulong_bits dm) in
          let count_bytes_to_read :=
            u32 (ul (snd bytes_to_read_range - fst bytes_to_read_range)) in
          let seek_offset :=
            ul (strip_offset_bytes
                + ul (fst bytes_to_read_range - file_imageidx_bytes)) in
          let st1 := istream.seekg (to_streamoff seek_offset) (istream.clear st) in
          r <-- read_into buffer output_imageidx_bytes count_bytes_to_read st1 ;;
          let '(buffer', read_bytes, st2) := r in
          let err' := if read_bytes =? count_bytes_to_read then err else StripDataLost in
          planar_strips n' fr sample_start_bytes sample_end_bytes
            (strip + 1) (u32 (file_imageidx_bytes + strip_size_bytes))
            (u32 (output_imageidx_bytes + count_bytes_to_read))
            buffer' st2 err'
      | None =>
          if sample_end_bytes <? file_imageidx_bytes
          then Returned (buffer, st, err)
          else
            planar_strips n' fr sample_start_bytes sample_end_bytes
              (strip + 1) (u32 (file_imageidx_bytes + strip_size_bytes))
              output_imageidx_bytes buffer st err
      end
  end.

(** [for (int i = 0; i < bits_per_sample / 8; ++i) { memcpy(&buffer[out],
    &stripdata[strip_i], bits_per_sample / 8); out += bits_per_sample / 8; }]
    with [n] passes left and [k = bits_per_sample / 8]. *)
Fixpoint copy_sample (n : nat) (k : Z) (stripdata : list byte) (strip_i : Z)
    (buffer : list byte) (output_imageidx_bytes : Z) : outcome (list byte * Z) :=
  match n with
  | O => Returned (buffer, output_imageidx_bytes)
  | S n' =>
      if (output_imageidx_bytes <? len buffer)
         && (output_imageidx_bytes + k <=? len buffer)
         && (strip_i <? len stripdata)
         && (strip_i + k <=? len stripdata)
      then
        copy_sample n' k stripdata strip_i
          (splice buffer output_imageidx_bytes
             (firstn (Z.to_nat k) (skipn (Z.to_nat strip_i) stripdata)))
          (u32 (output_imageidx_bytes + k))
      else Undefined
  end.

(** [for (strip_i = ...; strip_i < stripsize_bytes; strip_i += step)] of
    the chunky case.  Every pass that returns has stored further on in
    [buffer], so the loop is cut after [fuel] passes, [fuel] being chosen
    above the size of [buffer]. *)
Fixpoint chunky_samples (fuel : nat) (k step stripsize_bytes : Z)
    (stripdata : list byte) (strip_i file_imageidx_bytes : Z)
    (buffer : list byte) (output_imageidx_bytes : Z)
  : outcome (list byte * Z * Z) :=
  if strip_i <? stripsize_bytes then
    match fuel with
    | O => Undefined
    | S fuel' =>
        r <-- copy_sample (Z.to_nat k) k stripdata strip_i buffer
                output_imageidx_bytes ;;
        chunky_samples fuel' k step stripsize_bytes stripdata
          (u32 (strip_i + step)) (u32 (file_imageidx_bytes + stripsize_bytes))
          (fst r) (snd r)
    end
  else Returned (buffer, output_imageidx_bytes, file_imageidx_bytes).

(** The strip loop of the multi-sample chunky case, with [n] passes left. *)
Fixpoint chunky_strips (n : nat) (fr : ReaderFrame) (sample : Z)
    (strip file_imageidx_bytes output_imageidx_bytes last_stripsize_bytes : Z)
    (stripdata buffer : list byte) (st : ifstream) (err : Error)
  : outcome (list byte * ifstream * Error) :=
  match n with
  | O => Returned (buffer, st, err)
  | S n' =>
      stripsize_bytes <-- vec_index (strip_byte_counts fr) strip ;;
      strip_offset_bytes <-- vec_index (strip_offsets fr) strip ;;
      let grow := last_stripsize_bytes <? stripsize_bytes in
      let stripdata1 :=
        if grow then repeat x00 (Z.to_nat stripsize_bytes) else stripdata in
      let last1 := if grow then stripsize_bytes else last_stripsize_bytes in
      let st1 := istream.seekg strip_offset_bytes (istream.clear st) in
      let (got, st2) := istream.read stripsize_bytes st1 in
      let stripdata2 := splice stripdata1 0 got in
      let err' := if len got =? stripsize_bytes then err else StripDataLost in
      let k := bits_per_sample fr / 8 in
      r <-- chunky_samples (S (length buffer)) k
              (u32 (k * samples_per_pixel fr)) stripsize_bytes stripdata2
              (u32 (sample * bits_per_sample fr) / 8) file_imageidx_bytes
              buffer output_imageidx_bytes ;;
      let '(buffer', out', file_idx') := r in
      chunky_strips n' fr sample (strip + 1) file_idx' out' last1
        stripdata2 buffer' st2 err'
  end.

(** Element [i] of [buffer] seen as an array of [k]-byte unsigned
    integers. *)
Definition element (k : Z) (buffer : list byte) (i : Z) : outcome Z :=
  if (i + 1) * k <=? len buffer
  then Returned (load host (firstn (Z.to_nat k) (skipn (Z.to_nat (i * k)) buffer)))
  else Undefined.

(** [for (uint32_t x = 0; x < width * height; ++x)], swapping element [x]
    of [buffer.data()] seen as an array of [k]-byte integers in place, with
    [n] passes left. *)
Fixpoint swap_elements (n : nat) (k : Z) (buffer : list byte) (x : Z)
  : outcome (list byte) :=
  match n with
  | O => Returned buffer
  | S n' =>
      v <-- element k buffer x ;;
      swap_elements n' k
        (splice buffer (x * k) (store host (Z.to_nat k) (util.byte_swap k v)))
        (x + 1)
  end.

(** The [variant_t] one pass of the final loop appends; [t] starts as
    [variant_t{}], a [uint8_t] zero. *)
Definition sample_value (bps : Z) (buffer : list byte) (i : Z) : outcome variant_t :=
  if bps =? 8 then v <-- element 1 buffer i ;; Returned (V8 v)
  else if bps =? 16 then v <-- element 2 buffer i ;; Returned (V16 v)
  else if bps =? 32 then v <-- element 4 buffer i ;; Returned (V32 v)
  else if bps =? 64 then v <-- element 8 buffer i ;; Returned (V64 v)
  else Returned (V8 0).

Fixpoint materialize (n : nat) (bps : Z) (buffer : list byte) (i : Z)
    (result : list variant_t) : outcome (list variant_t) :=
  match n with
  | O => Returned result
  | S n' =>
      t <-- sample_value bps buffer i ;;
      materialize n' bps buffer (i + 1) (result ++ [t])
  end.

Definition nonempty {A : Type} (l : list A) : bool :=
  match l with [] => false | _ => true end.

Definition orders_differ (p : ReaderPrivate) : bool :=
  negb (ByteOrder_eqb (system_byte_order (file p)) (file_byte_order (file p))).

(** The two extraction strategies, from [buffer.resize] to the end of the
    [if]/[else if] over the strip table: the buffer, the stream and [err]
    afterwards. *)
Definition fill_buffer (sample : Z) (err : Error) (p : ReaderPrivate)
  : outcome (list byte * ifstream * Error) :=
  let fr := current_frame (file p) in
  let st := stream (file p) in
  let sample_image_size_bytes :=
    u32 (width fr * height fr * bits_per_sample fr) / 8 in
  let buffer := repeat x00 (Z.to_nat sample_image_size_bytes) in
  if (0 <? strip_count fr) && nonempty (strip_byte_counts fr)
     && nonempty (strip_offsets fr) then
    if (samples_per_pixel fr =? 1)
       || (planar_config fr =? PlanarConfiguration.Planar) then
      let sample_start_bytes := u32 (sample * sample_image_size_bytes) in
      let sample_end_bytes := u32 (sample_start_bytes + sample_image_size_bytes) in
      planar_strips (Z.to_nat (strip_count fr)) fr
        sample_start_bytes sample_end_bytes 0 0 0 buffer st err
    else Returned (buffer, st, err)
  else if (1 <? samples_per_pixel fr)
          && (planar_config fr =? PlanarConfiguration.Chunky) then
    r <-- chunky_strips (Z.to_nat (strip_count fr)) fr sample 0 0 0 0 []
            buffer st err ;;
    let '(buffer', st', err') := r in
    let bps := bits_per_sample fr in
    let pixels := Z.to_nat (u32 (width fr * height fr)) in
    buffer'' <--
      (if orders_differ p then
         if bps =? 8 then Returned buffer'
         else if bps =? 16 then swap_elements pixels 2 buffer' 0
         else if bps =? 32 then swap_elements pixels 4 buffer' 0
         else if bps =? 64 then swap_elements pixels 8 buffer' 0
         else Returned buffer'
       else Returned buffer') ;;
    Returned (buffer'', st', err')
  else Returned (buffer, st, err).

(** The six checks that reject a frame before any byte is read. *)
Definition precondition_error (fr : ReaderFrame) : option Error :=
  if negb (compression fr =? CompressionType.None) then Some CompressionNotSupport
  else if is_tiled fr then Some TiledNotSupport
  else if negb (orientation fr =? Orientation.Stantard) then Some OrientationNotSupport
  else if photometric_interpertation fr =? PhotometricInterpretation.Palette
  then Some PhotometricInterpretationNotSupport
  else if (width fr =? 0) || (height fr =? 0) then Some InvalidImageSize
  else
    let bps := bits_per_sample fr in
    if negb (bps =? 8) && negb (bps =? 16) && negb (bps =? 32) && negb (bps =? 64)
    then Some InvalidBitPerSample
    else None.

(** [get_sample_data_internal(sample, err)]: the vector returned, [err]
    and the reader afterwards. *)
Definition get_sample_data_internal (sample : Z) (err : Error) (p : ReaderPrivate)
  : outcome (list variant_t * Error * ReaderPrivate) :=
  let fr := current_frame (file p) in
  match precondition_error fr with
  | Some e => Returned ([], e, p)
  | None =>
      let pos := istream.tellg (stream (file p)) in
      r <-- fill_buffer sample err p ;;
      let '(buffer, st, err') := r in
      result <-- materialize (Z.to_nat (u32 (width fr * height fr)))
                  (bits_per_sample fr) buffer 0 [] ;;
      let st' := istream.seekg pos (istream.clear st) in
      Returned (result, NoError, set_stream st' p)
  end.

(** [ReaderPrivate::open], on a reader whose stream is not open yet;
    [path_contents] is the file [tiff_path] names, if it can be opened. *)
Definition open (path_contents : option (list byte)) : io Error := fun p0 =>
  let p := set_system_byte_order (util.get_byte_order host) p0 in
  match path_contents with
  | None => (OpenFileFailed, set_stream (mk_ifstream [] 0 true) p)
  | Some bytes =>
      let p := set_size (len bytes) (set_stream (mk_ifstream bytes 0 false) p) in
      let (got, st) := istream.read 2 (stream (file p)) in
      let p := set_stream st p in
      let tiffid := got ++ repeat x00 (3 - length got) in
      let id0 := byte_val (nth 0 tiffid x00) in
      let id1 := byte_val (nth 1 tiffid x00) in
      let order :=
        if (id0 =? 0x49) && (id1 =? 0x49) then Some LittleEndian
        else if (id0 =? 0x4D) && (id1 =? 0x4D) then Some BigEndian
        else None in
      match order with
      | None => (InvalidTiffByteOrder, p)
      | Some o =>
          (magic <- read 2 ;;
           if negb (magic =? 42) then ret InvalidTiffMagicNumber
           else
             first <- read 4 ;;
             (fun q => (tt, set_next_ifd_offset first
                              (set_first_record_offset first q))) ;;;
             read_next_frame) (set_file_byte_order o p)
      end
  end.

(** ** [class Reader]: the public member functions, on the [ReaderPrivate]
    the reader owns *)

Definition Reader_open := open.

Definition Reader_good (p : ReaderPrivate) : bool := good p.

Definition Reader_width (p : ReaderPrivate) : Z := width (current_frame (file p)).

Definition Reader_height (p : ReaderPrivate) : Z := height (current_frame (file p)).

(** The [while (next_offset > 0)] loop of [count_frames]; [None] when it
    is still running after [fuel] passes. *)
Fixpoint count_frames_loop (fuel : nat) (next_offset frames : Z) (p : ReaderPrivate)
  : option (Z * ReaderPrivate) :=
  if 0 <? next_offset then
    match fuel with
    | O => None
    | S fuel' =>
        let (next, p') :=
          (stream_clear ;;;
           stream_seekg next_offset ;;;
           c <- read 2 ;;
           stream_seekg_cur (u16 (c * 12)) ;;;
           read 4) p in
        count_frames_loop fuel' next (u32 (frames + 1)) p'
    end
  else Some (frames, p).

(** [Reader::count_frames] *)
Definition Reader_count_frames (fuel : nat) (p : ReaderPrivate)
  : option (Z * ReaderPrivate) :=
  if good p then
    let pos := istream.tellg (stream (file p)) in
    match count_frames_loop fuel (first_record_offset (file p)) 0 p with
    | Some (frames, p') =>
        Some (frames,
              set_stream (istream.seekg pos (istream.clear (stream (file p')))) p')
    | None => None
    end
  else Some (0, p).

(** [Reader::has_next_frame] *)
Definition Reader_has_next_frame (p : ReaderPrivate) : bool :=
  good p
  && (0 <? next_ifd_offset (file p))
  && (next_ifd_offset (file p) <? size (file p)).

(** [Reader::read_next_frame] *)
Definition Reader_read_next_frame : io Error := fun p =>
  if negb (Reader_has_next_frame p) then (NoMoreImagesInTiff, p)
  else read_next_frame p.

(** [Reader::get_sample_data(sample, err)] *)
Definition Reader_get_sample_data (sample : Z) (err : Error) (p : ReaderPrivate)
  : outcome (list variant_t * Error * ReaderPrivate) :=
  if good p then get_sample_data_internal sample err p
  else Returned ([], ReaderIsNotGoodYet, p).

End Private.

(** * Vocabulary of the properties *)

(** ** What a member function may change *)

(** [same_session p q]: [q] is [p] up to the stream's position and state
    and the current frame. *)
Definition same_session (p q : ReaderPrivate) : Prop :=
  first_record_offset (file q) = first_record_offset (file p)
  /\ next_ifd_offset (file q) = next_ifd_offset (file p)
  /\ system_byte_order (file q) = system_byte_order (file p)
  /\ file_byte_order (file q) = file_byte_order (file p)
  /\ size (file q) = size (file p)
  /\ contents (stream (file q)) = contents (stream (file p))
  /\ good q = good p.

(** [stream_moved p q]: moreover the current frame is the same, so only
    the cursor and the state of the stream may differ. *)
Definition stream_moved (p q : ReaderPrivate) : Prop :=
  same_session p q /\ current_frame (file q) = current_frame (file p).

(** Actions that only move the stream, and actions that may also rebuild
    the current frame. *)
Definition stream_only {A : Type} (m : io A) : Prop :=
  forall p, stream_moved p (snd (m p)).

Definition session_only {A : Type} (m : io A) : Prop :=
  forall p, same_session p (snd (m p)).

(** ** Healthy streams and the values they deliver *)

(** [cursor_at p g]: the stream of [p] is healthy and stands at [g]. *)
Definition cursor_at (p : ReaderPrivate) (g : Z) : Prop :=
  gptr (stream (file p)) = g /\ failbit (stream (file p)) = false.

(** [positioned p0 p g]: [p] is [p0] with a healthy stream at [g]. *)
Definition positioned (p0 p : ReaderPrivate) (g : Z) : Prop :=
  stream_moved p0 p /\ cursor_at p g.

(** [same_bytes p q]: the two readers decode the same file. *)
Definition same_bytes (p q : ReaderPrivate) : Prop :=
  system_byte_order (file q) = system_byte_order (file p)
  /\ file_byte_order (file q) = file_byte_order (file p)
  /\ contents (stream (file q)) = contents (stream (file p)).

(** The value a healthy stream over the file of [p] delivers at [g]. *)
Definition peek (host : Host) (p : ReaderPrivate) (g n : Z) : Z :=
  fst (read host n (set_stream (mk_ifstream (contents (stream (file p))) g false) p)).

(** A [Byte] or [ASCII] entry without values. *)
Definition empty_byte_entry (type count : Z) : bool :=
  ((type =? DataType.Byte) || (type =? DataType.ASCII)) && negb (0 <? count).

(** ** The chain of directories *)

(** The entry count and the trailing offset of the directory at [off]. *)
Definition ifd_entry_count (host : Host) (p : ReaderPrivate) (off : Z) : Z :=
  peek host p off 2.

Definition ifd_next (host : Host) (p : ReaderPrivate) (off : Z) : Z :=
  peek host p (off + 2 + 12 * ifd_entry_count host p off) 4.

(** [ifd_chain host p off offs]: [offs] are the offsets of the directories
    reached from [off] by following the trailing offsets up to the final
    zero; each directory lies inside the file with its trailing offset,
    and twelve times its entry count fits the 16-bit variable
    [count_frames] keeps it in. *)
Inductive ifd_chain (host : Host) (p : ReaderPrivate) : Z -> list Z -> Prop :=
| chain_end : ifd_chain host p 0 []
| chain_ifd (off : Z) (rest : list Z) :
    0 < off ->
    off + 2 + 12 * ifd_entry_count host p off + 4 <= len (contents (stream (file p))) ->
    12 * ifd_entry_count host p off < 2 ^ 16 ->
    ifd_chain host p (ifd_next host p off) rest ->
    ifd_chain host p off (off :: rest).

(** The directory at [off] decodes without an error. *)
Definition decodes (host : Host) (p : ReaderPrivate) (off : Z) : Prop :=
  fst (read_next_frame host (set_next_ifd_offset off p)) = NoError.

(** The caller's loop the frame count is compared with:
    [while (reader.has_next_frame()) if (reader.read_next_frame() == NoError)
    ++n;], that is the number of [read_next_frame] calls that succeed before
    [has_next_frame] becomes false; [None] when the loop is still running
    after [fuel] passes. *)
Fixpoint remaining_frames (host : Host) (fuel : nat) (p : ReaderPrivate) : option nat :=
  if Reader_has_next_frame p then
    match fuel with
    | O => None
    | S fuel' =>
        let (e, p') := Reader_read_next_frame host p in
        match remaining_frames host fuel' p' with
        | Some k => Some (if Error_is_NoError e then S k else k)
        | None => None
        end
    end
  else Some O.

(** ** Sample values and strip tables *)

(** The storage width, in bits, and the raw value of a sample. *)
Definition variant_width (t : variant_t) : Z :=
  match t with V8 _ => 8 | V16 _ => 16 | V32 _ => 32 | V64 _ => 64 end.

Definition variant_value (t : variant_t) : Z :=
  match t with V8 v | V16 v | V32 v | V64 v => v end.

(** A run of [n] zero bytes, as [resize] fills a vector with. *)
Definition zeros (n : nat) : list byte := repeat x00 n.

(** The sum of a list of sizes. *)
Definition total (l : list Z) : Z := fold_right Z.add 0 l.

(** The strip table of a frame covers [strip_count] strips whose sizes,
    unsigned 32-bit numbers, add up below [2 ^ 32]. *)
Definition strip_table_fits (fr : ReaderFrame) : Prop :=
  0 <= strip_count fr
  /\ strip_count fr <= len (strip_offsets fr)
  /\ strip_count fr <= len (strip_byte_counts fr)
  /\ Forall (fun n => 0 <= n) (strip_byte_counts fr)
  /\ total (strip_byte_counts fr) < 2 ^ 32.

(** The stream position is never negative. *)
Definition stream_wf (p : ReaderPrivate) : Prop := 0 <= gptr (stream (file p)).

(** The entries whose values are kept out of line: those on which
    [read_ifd] sets [pos_changed] and moves the cursor back at the end. *)
Definition out_of_line (type count : Z) : bool :=
  (((type =? DataType.Byte) || (type =? DataType.ASCII)) && (4 <? count))
  || ((type =? DataType.Short) && (2 <? count))
  || ((type =? DataType.Long) && (1 <? count))
  || (type =? DataType.Rational).

(** Byte [i] of [n], counted from the least significant one. *)
Definition byte_of (n i : Z) : Z := (n / 2 ^ (8 * i)) mod 256.

(** ** Files and readers used as examples *)

Definition le16 (v : Z) : list byte := le_bytes 2 v.
Definition le32 (v : Z) : list byte := le_bytes 4 v.

(** A little-endian header, and a directory entry with its four-byte
    value slot. *)
Definition tiff_header (first : Z) : list byte :=
  [x49; x49] ++ le16 42 ++ le32 first.

Definition tiff_entry (tag type count : Z) (slot : list byte) : list byte :=
  le16 tag ++ le16 type ++ le32 count ++ slot.

(** A little-endian reader on a little-endian machine, its stream at the
    start of [bytes]. *)
Definition reader_on (bytes : list byte) : ReaderPrivate :=
  set_size (len bytes)
    (set_stream (mk_ifstream bytes 0 false)
       (set_file_byte_order LittleEndian
          (set_system_byte_order LittleEndian ReaderPrivate_default))).

Definition opened (bytes : list byte) : Error * ReaderPrivate :=
  open LittleHost (Some bytes) ReaderPrivate_default.

(** One pixel of two 8-bit samples [a] and [b], stored planar (one strip
    per sample) and chunky (one strip holding both). *)
Definition planar_file (a b : byte) : list byte :=
  tiff_header 8
  ++ le16 7
  ++ tiff_entry Tags.ImageWidth DataType.Long 1 (le32 1)
  ++ tiff_entry Tags.ImageLength DataType.Long 1 (le32 1)
  ++ tiff_entry Tags.BitsPerSample DataType.Short 2 (le16 8 ++ le16 8)
  ++ tiff_entry Tags.StripOffsets DataType.Long 2 (le32 98)
  ++ tiff_entry Tags.SamplesPerPixel DataType.Short 1 (le16 2 ++ le16 0)
  ++ tiff_entry Tags.StripByteCounts DataType.Long 2 (le32 106)
  ++ tiff_entry Tags.PlanarConfig DataType.Short 1 (le16 2 ++ le16 0)
  ++ le32 0
  ++ le32 114 ++ le32 115
  ++ le32 1 ++ le32 1
  ++ [a] ++ [b].

Definition chunky_file (a b : byte) : list byte :=
  tiff_header 8
  ++ le16 7
  ++ tiff_entry Tags.ImageWidth DataType.Long 1 (le32 1)
  ++ tiff_entry Tags.ImageLength DataType.Long 1 (le32 1)
  ++ tiff_entry Tags.BitsPerSample DataType.Short 2 (le16 8 ++ le16 8)
  ++ tiff_entry Tags.StripOffsets DataType.Long 1 (le32 98)
  ++ tiff_entry Tags.SamplesPerPixel DataType.Short 1 (le16 2 ++ le16 0)
  ++ tiff_entry Tags.StripByteCounts DataType.Long 1 (le32 2)
  ++ tiff_entry Tags.PlanarConfig DataType.Short 1 (le16 1 ++ le16 0)
  ++ le32 0
  ++ [a; b].

(** A [Byte] entry whose count is zero, and the same entry as [Short]. *)
Definition empty_byte_entry_bytes : list byte :=
  tiff_entry Tags.ImageDescription DataType.Byte 0 (le32 0).

Definition empty_short_entry_bytes : list byte :=
  tiff_entry Tags.ImageDescription DataType.Short 0 (le32 0).

(** An [ASCII] entry of five characters kept at offset 20, the bytes
    between the entry and its text being something else; and a [Short]
    entry of three values kept at the same place. *)
Definition hello : list byte := [x48; x65; x6c; x6c; x6f; x00].

Definition ascii_entry_bytes : list byte :=
  tiff_entry Tags.ImageDescription DataType.ASCII 5 (le32 20)
  ++ [x2d; x2d; x2d; x2d; x2d; x2d; x2d; x2d]
  ++ hello.

Definition short_entry_bytes : list byte :=
  tiff_entry Tags.BitsPerSample DataType.Short 3 (le32 20)
  ++ [x2d; x2d; x2d; x2d; x2d; x2d; x2d; x2d]
  ++ hello.

(** A 4x1 image of 8-bit samples in two strips of two bytes; the file
    ends one byte into the first strip. *)
Definition truncated_strip_file : list byte :=
  tiff_header 8
  ++ le16 5
  ++ tiff_entry Tags.ImageWidth DataType.Long 1 (le32 4)
  ++ tiff_entry Tags.ImageLength DataType.Long 1 (le32 1)
  ++ tiff_entry Tags.BitsPerSample DataType.Short 1 (le16 8 ++ le16 0)
  ++ tiff_entry Tags.StripOffsets DataType.Long 2 (le32 74)
  ++ tiff_entry Tags.StripByteCounts DataType.Long 2 (le32 82)
  ++ le32 0
  ++ le32 92 ++ le32 90
  ++ le32 2 ++ le32 2
  ++ [x33; x44]
  ++ [x11].

(** Two pages; the second declares three samples of 5, 6 and 5 bits. *)
Definition two_page_file : list byte :=
  tiff_header 8
  ++ le16 0 ++ le32 14
  ++ le16 1 ++ tiff_entry Tags.BitsPerSample DataType.Short 3 (le32 32) ++ le32 0
  ++ le16 5 ++ le16 6 ++ le16 5.

(** Three pages of one entry each. *)
Definition three_page_file : list byte :=
  tiff_header 8
  ++ le16 1 ++ tiff_entry Tags.ImageWidth DataType.Long 1 (le32 1) ++ le32 26
  ++ le16 1 ++ tiff_entry Tags.ImageWidth DataType.Long 1 (le32 2) ++ le32 44
  ++ le16 1 ++ tiff_entry Tags.ImageWidth DataType.Long 1 (le32 3) ++ le32 0.

(** A 65536x65536 image of 8-bit samples, without strips. *)
Definition huge_image_file : list byte :=
  tiff_header 8
  ++ le16 3
  ++ tiff_entry Tags.ImageWidth DataType.Long 1 (le32 65536)
  ++ tiff_entry Tags.ImageLength DataType.Long 1 (le32 65536)
  ++ tiff_entry Tags.BitsPerSample DataType.Short 1 (le16 8 ++ le16 0)
  ++ le32 0.

(** A 2x1 image of 8-bit samples whose strip tables disagree: two offsets,
    one byte count. *)
Definition ragged_table_file : list byte :=
  tiff_header 8
  ++ le16 5
  ++ tiff_entry Tags.ImageWidth DataType.Long 1 (le32 2)
  ++ tiff_entry Tags.ImageLength DataType.Long 1 (le32 1)
  ++ tiff_entry Tags.BitsPerSample DataType.Short 1 (le16 8 ++ le16 0)
  ++ tiff_entry Tags.StripByteCounts DataType.Long 1 (le32 1)
  ++ tiff_entry Tags.StripOffsets DataType.Long 2 (le32 74)
  ++ le32 0
  ++ le32 82 ++ le32 83
  ++ [x11; x22].

(** A 2x1 image of 8-bit samples in one strip of two bytes. *)
Definition small_image_file : list byte :=
  tiff_header 8
  ++ le16 5
  ++ tiff_entry Tags.ImageWidth DataType.Long 1 (le32 2)
  ++ tiff_entry Tags.ImageLength DataType.Long 1 (le32 1)
  ++ tiff_entry Tags.BitsPerSample DataType.Short 1 (le16 8 ++ le16 0)
  ++ tiff_entry Tags.StripOffsets DataType.Long 1 (le32 74)
  ++ tiff_entry Tags.StripByteCounts DataType.Long 1 (le32 2)
  ++ le32 0
  ++ [x11; x22].

(** A frame of 100 bytes per sample in two strips of 50 bytes at file
    offsets 8 and 58, on a file of 108 bytes. *)
Definition two_strip_reader : ReaderPrivate :=
  set_current_frame
    (set_strip_byte_counts [50; 50]
       (set_strip_offsets [8; 58]
          (set_strip_count 2
             (set_bits_per_sample 8
                (set_height 10 (set_width 10 ReaderFrame_default))))))
    (reader_on (tiff_header 0 ++ repeat x2d 50 ++ repeat x2b 50)).

(** What [get_sample_data] hands to the caller of [opened bytes]: the
    vector and [err]. *)
Definition sample_data (dm : DataModel) (bytes : list byte) (sample : Z)
  : outcome (list variant_t * Error) :=
  r <-- Reader_get_sample_data LittleHost dm sample NoError (snd (opened bytes)) ;;
  Returned (fst r).

(** * The rest of the translation unit, and the vocabulary of its properties *)

(** ** [util::get_byte_order], as written *)

(** [long] is as wide as [unsigned long]. *)
Definition sizeof_long (dm : DataModel) : nat := Z.to_nat (ulong_bits dm / 8).

Module abi.

(** [union { long l; char c[4]; } test{}; test.l = 1;] followed by the two
    tests on [test.c]: [c] is the first four bytes of the object
    representation of the [long].  [util.get_byte_order] above is this
    function on the machines whose [long] has four bytes, and on every
    little-endian machine. *)
Definition get_byte_order (h : Host) (dm : DataModel) : ByteOrder :=
  let c := store h (sizeof_long dm) 1 in
  let set i := negb (byte_val (nth i c x00) =? 0) in
  if set 3%nat && negb (set 2%nat) && negb (set 1%nat) && negb (set 0%nat)
  then BigEndian
  else if negb (set 3%nat) && negb (set 2%nat) && negb (set 1%nat) && set 0%nat
  then LittleEndian
  else Unknown.

End abi.

(** ** Bytes of a file and the integers they store *)

(** The bytes [g, g + n) of a file. *)
Definition slice (bytes : list byte) (g n : Z) : list byte :=
  firstn (Z.to_nat n) (skipn (Z.to_nat g) bytes).

(** The unsigned integer a file of byte order [o] stores as [bs]. *)
Definition file_value (o : ByteOrder) (bs : list byte) : Z :=
  match o with
  | BigEndian => le_value (rev bs)
  | _ => le_value bs
  end.

(** The integer of [n] bytes the file of the reader [p] stores at [x], in
    the byte order the file declares. *)
Definition stored (p : ReaderPrivate) (x n : Z) : Z :=
  file_value (file_byte_order (file p)) (slice (contents (stream (file p))) x n).

(** The byte order [load] and [store] follow on the machine [h]. *)
Definition host_order (h : Host) : ByteOrder :=
  match h with
  | LittleHost => LittleEndian
  | BigHost => BigEndian
  end.

(** [knows_orders h p]: the reader [p] runs on [h] and has recorded the
    byte order of the machine and one of the two byte orders a file can
    declare. *)
Definition knows_orders (h : Host) (p : ReaderPrivate) : Prop :=
  system_byte_order (file p) = host_order h
  /\ (file_byte_order (file p) = LittleEndian
      \/ file_byte_order (file p) = BigEndian).

(** [declares bytes o]: the file starts with the mark of the byte order
    [o], the characters [II] or [MM]. *)
Definition declares (bytes : list byte) (o : ByteOrder) : Prop :=
  (o = LittleEndian /\ slice bytes 0 2 = [x49; x49])
  \/ (o = BigEndian /\ slice bytes 0 2 = [x4d; x4d]).

(** The errors that [read_next_frame] can return, and those of [open]. *)
Definition frame_error (e : Error) : Prop :=
  e = NoError \/ e = MultiSampleSizeNotSupport \/ e = NoMoreImagesInTiff.

Definition header_error (e : Error) : Prop :=
  e = OpenFileFailed \/ e = InvalidTiffByteOrder \/ e = InvalidTiffMagicNumber.

(** The byte order the two characters [a] and [b] stand for, as [open]
    tests them. *)
Definition mark_of (a b : byte) : option ByteOrder :=
  if (byte_val a =? 0x49) && (byte_val b =? 0x49) then Some LittleEndian
  else if (byte_val a =? 0x4D) && (byte_val b =? 0x4D) then Some BigEndian
  else None.

(** ** Directories reached from the first one *)

(** The directory at [off] lies inside the file with its trailing offset,
    and twelve times its entry count fits 16 bits. *)
Definition directory_inside (host : Host) (p : ReaderPrivate) (off : Z) : Prop :=
  0 < off
  /\ off + 2 + 12 * ifd_entry_count host p off + 4 <= len (contents (stream (file p)))
  /\ 12 * ifd_entry_count host p off < 2 ^ 16.

(** The offset reached from [off] after following [k] trailing offsets. *)
Definition nth_directory (host : Host) (p : ReaderPrivate) (off : Z) (k : nat) : Z :=
  Nat.iter k (ifd_next host p) off.

(** [same_file p q]: the two readers are on the same file, with the same
    byte orders and the same first directory. *)
Definition same_file (p q : ReaderPrivate) : Prop :=
  same_bytes p q /\ first_record_offset (file q) = first_record_offset (file p).

(** ** [class Reader]: the remaining member functions *)

(** [Reader::image_description], the characters of the description. *)
Definition Reader_image_description (p : ReaderPrivate) : list Z :=
  description (current_frame (file p)).

(** [Reader::resolution_unit] and [Reader::sameple_format] *)
Definition Reader_resolution_unit (p : ReaderPrivate) : Z :=
  resolution_unit (current_frame (file p)).

Definition Reader_sameple_format (p : ReaderPrivate) : Z :=
  sample_format (current_frame (file p)).

(** [Reader::bits_per_sample]: the 32-bit member is returned as
    [uint16_t]. *)
Definition Reader_bits_per_sample (p : ReaderPrivate) : Z :=
  u16 (bits_per_sample (current_frame (file p))).

(** [Reader::samples_per_pixel] *)
Definition Reader_samples_per_pixel (p : ReaderPrivate) : Z :=
  samples_per_pixel (current_frame (file p)).

(** ** Samples and strips *)

(** The errors [get_sample_data] gives for a frame it does not extract. *)
Definition refusal (e : Error) : Prop :=
  e = ReaderIsNotGoodYet \/ e = CompressionNotSupport \/ e = TiledNotSupport
  \/ e = OrientationNotSupport \/ e = PhotometricInterpretationNotSupport
  \/ e = InvalidImageSize \/ e = InvalidBitPerSample.

(** The sample a buffer holds at index [i] when it is read as an array of
    [bps]-bit unsigned integers on the machine [h]. *)
Definition sample_at (h : Host) (bps : Z) (buffer : list byte) (i : Z) : variant_t :=
  let v := load h (slice buffer (i * (bps / 8)) (bps / 8)) in
  if bps =? 8 then V8 v
  else if bps =? 16 then V16 v
  else if bps =? 32 then V32 v
  else V64 v.

(** The first [n] samples of a buffer. *)
Definition samples_of (h : Host) (bps : Z) (buffer : list byte) (n : nat) : list variant_t :=
  map (fun j => sample_at h bps buffer (Z.of_nat j)) (seq 0 n).

(** The strips of a frame, as pairs of a file offset and a byte count, and
    the image data they hold in the file [bytes], one strip after the
    other. *)
Definition strips (fr : ReaderFrame) : list (Z * Z) :=
  firstn (Z.to_nat (strip_count fr)) (combine (strip_offsets fr) (strip_byte_counts fr)).

Definition strip_bytes (bytes : list byte) (oc : Z * Z) : list byte :=
  slice bytes (fst oc) (snd oc).

Definition image_bytes (bytes : list byte) (fr : ReaderFrame) : list byte :=
  concat (map (strip_bytes bytes) (strips fr)).

(** A strip that lies inside the file and ends below [2 ^ 32]. *)
Definition strip_inside (bytes : list byte) (oc : Z * Z) : Prop :=
  0 <= fst oc /\ 0 <= snd oc
  /\ fst oc + snd oc <= len bytes /\ fst oc + snd oc < 2 ^ 32.

(** Of the data [R] that starts at the logical position [f] of the image,
    the part inside the window from [s] to [e]. *)
Definition window (s e f : Z) (R : list byte) : list byte :=
  firstn (Z.to_nat (e - Z.max s f)) (skipn (Z.to_nat (s - f)) R).

(** ** [util::cast_as] of [tiff_cxx.h], at the integer types *)

(** [uintN_t] and [intN_t], by their size in bytes. *)
Inductive int_t :=
| UInt (bytes : nat)
| SInt (bytes : nat).

Definition sizeof (t : int_t) : nat :=
  match t with UInt n | SInt n => n end.

(** The object representation of the value [v] of type [t] on the machine
    [h], and the value a representation stands for; the signed types are in
    two's complement. *)
Definition object_of (h : Host) (t : int_t) (v : Z) : list byte :=
  store h (sizeof t) v.

Definition value_of (h : Host) (t : int_t) (mem : list byte) : Z :=
  let u := load h mem in
  match t with
  | UInt _ => u
  | SInt n => if u <? 2 ^ (8 * Z.of_nat n - 1) then u else u - 2 ^ (8 * Z.of_nat n)
  end.

(** [cast_as<from_t, cast_t>(from)]: [memcpy] of the whole object of [from]
    into a [cast_t]; the [static_assert] rejects two types of different
    sizes, for which there is no result. *)
Definition cast_as (h : Host) (from_t cast_t : int_t) (from : Z) : option Z :=
  if (sizeof from_t =? sizeof cast_t)%nat
  then Some (value_of h cast_t (object_of h from_t from))
  else None.

(** ** A file for the whole path *)

(** An 8-bit grey image of [w] by [h] pixels kept in one strip after a
    directory of five entries: the layout of [small_image_file], for any
    size and any data. *)
Definition gray8_file (w h : Z) (data : list byte) : list byte :=
  tiff_header 8
  ++ le16 5
  ++ tiff_entry Tags.ImageWidth DataType.Long 1 (le32 w)
  ++ tiff_entry Tags.ImageLength DataType.Long 1 (le32 h)
  ++ tiff_entry Tags.BitsPerSample DataType.Short 1 (le16 8 ++ le16 0)
  ++ tiff_entry Tags.StripOffsets DataType.Long 1 (le32 74)
  ++ tiff_entry Tags.StripByteCounts DataType.Long 1 (le32 (w * h))
  ++ le32 0
  ++ data.

(** The frame that file describes. *)
Definition gray8_frame (w h : Z) : ReaderFrame :=
  mk_ReaderFrame w h CompressionType.None 1 8 PlanarConfiguration.Chunky
    SampleFormat.Uint h Orientation.Stantard FillOrder.Default
    ResolutionUnit.None ((1, 1), (1, 1))
    PhotometricInterpretation.BlackIsZero false 0 1 [74] [w * h] [].

(** ** More files used as examples *)

(** A directory without entries that names itself as its successor. *)
Definition looping_file : list byte :=
  tiff_header 8 ++ le16 0 ++ le32 8.

(** A directory without entries whose successor would start at the last
    two bytes of the file. *)
Definition short_tail_file : list byte :=
  tiff_header 8 ++ le16 0 ++ le32 14 ++ [x00; x00].

(** [small_image_file] cut in the middle of its third entry. *)
Definition cut_file : list byte := firstn 40 small_image_file.

(** A directory with a width and a tile width. *)
Definition tiled_file : list byte :=
  tiff_header 8
  ++ le16 2
  ++ tiff_entry Tags.ImageWidth DataType.Long 1 (le32 2)
  ++ tiff_entry Tags.TileWidth DataType.Long 1 (le32 16)
  ++ le32 0.

(** ** The entries of a directory *)

(** The loop of [read_next_frame] without its [switch]: the [n] entries it
    decodes, in order. *)
Fixpoint read_ifds (host : Host) (n : nat) : io (list IFD) :=
  match n with
  | O => ret []
  | S n' =>
      d <- read_ifd host ;;
      ds <- read_ifds host n' ;;
      ret (d :: ds)
  end.

(** The entries [read_next_frame] decodes for the directory at [off] of the
    file of [p]. *)
Definition entries_at (host : Host) (p : ReaderPrivate) (off : Z) : list IFD :=
  fst (read_ifds host (Z.to_nat (ifd_entry_count host p off))
         (set_stream (mk_ifstream (contents (stream (file p))) (off + 2) false) p)).

(** The frame and the error the [switch] leaves after the entries [ds],
    and the last statement of the loop's block, [height = image_length]. *)
Definition interpret (ds : list IFD) (fe : ReaderFrame * Error) : ReaderFrame * Error :=
  fold_left (fun fe d => dispatch_tag d fe) ds fe.

Definition with_height (fr : ReaderFrame) : ReaderFrame :=
  set_height (image_length fr) fr.

(** An entry of [BitsPerSample] whose values differ, and an entry with one
    of the four tile tags. *)
Definition uneven_bits (d : IFD) : bool :=
  (tag d =? Tags.BitsPerSample) && (0 <? count d)
  && match pvalue d with
     | [] => false
     | x :: rest => negb (all_equal_to x rest)
     end.

Definition tile_entry (d : IFD) : bool :=
  (tag d =? Tags.TileByteCounts) || (tag d =? Tags.TileLength)
  || (tag d =? Tags.TileOffsets) || (tag d =? Tags.TileWidth).

(** An action that never looks at the current frame. *)
Definition frame_blind {A : Type} (m : io A) : Prop :=
  forall fr p,
    m (set_current_frame fr p) = (fst (m p), set_current_frame fr (snd (m p))).

(** ** [main] of the test program: the path it opens *)

(** [s.substr(pos, count)] for [pos <= s.size()]: [count] is cut to what
    is left of the string. *)
Definition substr (s : list byte) (pos count : Z) : list byte :=
  firstn (Z.to_nat (Z.min count (len s - pos))) (skipn (Z.to_nat pos) s).

(** The path [main] hands to the reader for the line it has read: a path
    between double quotes loses them; [size() - 2] is computed in
    [size_t]. *)
Definition unquote (tiff_path : list byte) : list byte :=
  if negb (len tiff_path =? 0)
     && (byte_val (nth 0 tiff_path x00) =? 0x22)
     && (byte_val (nth (Z.to_nat (len tiff_path - 1)) tiff_path x00) =? 0x22)
  then substr tiff_path 1 (u64 (len tiff_path - 2))
  else tiff_path.

(** * Properties *)

(** ** Byte swapping *)

Lemma land_byte_mask (n k : Z) :
  0 <= k -> Z.land n (Z.shiftl 255 k) = Z.shiftl ((n / 2 ^ k) mod 256) k.
Proof.
  intros Hk. apply Z.bits_inj'. intros i Hi.
  rewrite Z.land_spec.
  destruct (Z.ltb_spec i k) as [Hlt | Hge].
  - rewrite !Z.shiftl_spec_low by lia. apply andb_false_r.
  - rewrite !Z.shiftl_spec by lia.
    change 256 with (2 ^ 8). change 255 with (Z.ones 8).
    destruct (Z.ltb_spec (i - k) 8) as [Hl8 | Hg8].
    + rewrite Z.ones_spec_low by lia. rewrite andb_true_r.
      rewrite Z.mod_pow2_bits_low by lia.
      rewrite Z.div_pow2_bits by lia. f_equal. lia.
    + rewrite Z.ones_spec_high by lia. rewrite andb_false_r.
      rewrite Z.mod_pow2_bits_high by lia. reflexivity.
Qed.

Lemma lor_shiftl_disjoint a b k :
  0 <= k -> 0 <= a < 2 ^ k -> Z.lor a (Z.shiftl b k) = a + b * 2 ^ k.
Proof.
  intros Hk Ha.
  assert (Hz : Z.land a (Z.shiftl b k) = 0).
  { apply Z.bits_inj'. intros i Hi. rewrite Z.land_spec, Z.bits_0.
    destruct (Z.ltb_spec i k).
    - rewrite Z.shiftl_spec_low by lia. apply andb_false_r.
    - rewrite <- (Z.mod_small a (2 ^ k)) by lia.
      rewrite Z.mod_pow2_bits_high by lia. reflexivity. }
  rewrite <- Z.lxor_lor by exact Hz.
  rewrite <- Z.add_nocarry_lxor by exact Hz.
  rewrite Z.shiftl_mul_pow2 by lia. reflexivity.
Qed.

Lemma byte_of_range n i : 0 <= byte_of n i < 256.
Proof. unfold byte_of. apply Z.mod_pos_bound. lia. Qed.

Lemma div_byte_step n i :
  0 <= i -> n / 2 ^ (8 * i) = byte_of n i + 256 * (n / 2 ^ (8 * (i + 1))).
Proof.
  intros Hi. unfold byte_of.
  replace (8 * (i + 1)) with (8 * i + 8) by lia.
  rewrite Z.pow_add_r by lia.
  rewrite <- Z.div_div by lia.
  change (2 ^ 8) with 256.
  pose proof (Z.div_mod (n / 2 ^ (8 * i)) 256). lia.
Qed.

(** A digit of a number written in base 256. *)
Lemma byte_of_digits c lo hi i :
  0 <= i -> 0 <= lo < 2 ^ (8 * i) -> 0 <= c < 256 ->
  byte_of (lo + c * 2 ^ (8 * i) + hi * 2 ^ (8 * i + 8)) i = c.
Proof.
  intros Hi Hlo Hc. unfold byte_of.
  rewrite Z.pow_add_r by lia. change (2 ^ 8) with 256.
  replace (lo + c * 2 ^ (8 * i) + hi * (2 ^ (8 * i) * 256))
    with (lo + (c + hi * 256) * 2 ^ (8 * i)) by ring.
  rewrite Z.div_add by lia.
  rewrite Z.div_small by lia.
  rewrite Z.add_0_l, Z.mod_add by lia.
  apply Z.mod_small; lia.
Qed.

Ltac pow2_norm :=
  repeat match goal with
    | |- context [2 ^ ?k] =>
        let v := eval cbv in (2 ^ k) in change (2 ^ k) with v
    end.

Ltac digit i lo c hi :=
  match goal with
  | |- byte_of ?r _ = _ =>
      replace r with (lo + c * 2 ^ (8 * i) + hi * 2 ^ (8 * i + 8))
        by (pow2_norm; lia);
      apply byte_of_digits; pow2_norm; lia
  end.

Ltac byte_ranges n :=
  pose proof (byte_of_range n 0); pose proof (byte_of_range n 1);
  pose proof (byte_of_range n 2); pose proof (byte_of_range n 3);
  pose proof (byte_of_range n 4); pose proof (byte_of_range n 5);
  pose proof (byte_of_range n 6); pose proof (byte_of_range n 7).

Ltac name_bytes n :=
  set (b0 := byte_of n 0) in *; set (b1 := byte_of n 1) in *;
  set (b2 := byte_of n 2) in *; set (b3 := byte_of n 3) in *;
  set (b4 := byte_of n 4) in *; set (b5 := byte_of n 5) in *;
  set (b6 := byte_of n 6) in *; set (b7 := byte_of n 7) in *.

(** The three swaps, as rearrangements of base-256 digits. *)
Lemma byte_swap16_bytes n :
  0 <= n < 2 ^ 16 -> util.byte_swap16 n = byte_of n 0 * 2 ^ 8 + byte_of n 1.
Proof.
  intros Hn. unfold util.byte_swap16.
  pose proof (div_byte_step n 0 ltac:(lia)) as H0.
  pose proof (div_byte_step n 1 ltac:(lia)) as H1.
  change (8 * 0) with 0 in H0. change (8 * (0 + 1)) with 8 in H0.
  change (8 * 1) with 8 in H1. change (8 * (1 + 1)) with 16 in H1.
  rewrite (Z.div_small n (2 ^ 16)) in H1 by lia.
  change (2 ^ 0) with 1 in H0. rewrite Z.div_1_r in H0.
  byte_ranges n.
  rewrite Z.shiftr_div_pow2 by lia.
  rewrite lor_shiftl_disjoint by lia.
  unfold u16, wrap. pow2_norm. change (2 ^ 8) with 256 in *.
  Z.div_mod_to_equations. lia.
Qed.

Lemma byte_swap32_bytes n :
  util.byte_swap32 n
  = byte_of n 0 * 2 ^ 24 + byte_of n 1 * 2 ^ 16 + byte_of n 2 * 2 ^ 8 + byte_of n 3.
Proof.
  unfold util.byte_swap32.
  change 0x000000FF with (Z.shiftl 255 (8 * 0)).
  change 0x0000FF00 with (Z.shiftl 255 (8 * 1)).
  change 0x00FF0000 with (Z.shiftl 255 (8 * 2)).
  change 0xFF000000 with (Z.shiftl 255 (8 * 3)).
  rewrite !land_byte_mask by lia.
  fold (byte_of n 0) (byte_of n 1) (byte_of n 2) (byte_of n 3).
  byte_ranges n.
  rewrite !Z.shiftl_mul_pow2, !Z.shiftr_div_pow2 by lia.
  name_bytes n. unfold u32, wrap. pow2_norm.
  Z.div_mod_to_equations. lia.
Qed.

Lemma byte_swap64_bytes n :
  util.byte_swap64 n
  = byte_of n 0 * 2 ^ 56 + byte_of n 1 * 2 ^ 48 + byte_of n 2 * 2 ^ 40
    + byte_of n 3 * 2 ^ 32 + byte_of n 4 * 2 ^ 24 + byte_of n 5 * 2 ^ 16
    + byte_of n 6 * 2 ^ 8 + byte_of n 7.
Proof.
  unfold util.byte_swap64.
  change 0x00000000000000FF with (Z.shiftl 255 (8 * 0)).
  change 0x000000000000FF00 with (Z.shiftl 255 (8 * 1)).
  change 0x0000000000FF0000 with (Z.shiftl 255 (8 * 2)).
  change 0x00000000FF000000 with (Z.shiftl 255 (8 * 3)).
  change 0x000000FF00000000 with (Z.shiftl 255 (8 * 4)).
  change 0x0000FF0000000000 with (Z.shiftl 255 (8 * 5)).
  change 0x00FF000000000000 with (Z.shiftl 255 (8 * 6)).
  change 0xFF00000000000000 with (Z.shiftl 255 (8 * 7)).
  rewrite !land_byte_mask by lia.
  fold (byte_of n 0) (byte_of n 1) (byte_of n 2) (byte_of n 3).
  fold (byte_of n 4) (byte_of n 5) (byte_of n 6) (byte_of n 7).
  byte_ranges n.
  rewrite !Z.shiftl_mul_pow2, !Z.shiftr_div_pow2 by lia.
  name_bytes n. unfold u64, wrap. pow2_norm.
  Z.div_mod_to_equations. lia.
Qed.

Lemma bytes_of_u64 n :
  0 <= n < 2 ^ 64 ->
  n = byte_of n 0 + byte_of n 1 * 2 ^ 8 + byte_of n 2 * 2 ^ 16 + byte_of n 3 * 2 ^ 24
      + byte_of n 4 * 2 ^ 32 + byte_of n 5 * 2 ^ 40 + byte_of n 6 * 2 ^ 48
      + byte_of n 7 * 2 ^ 56.
Proof.
  intros Hn.
  assert (H0 : n / 2 ^ 0 = byte_of n 0 + 256 * (n / 2 ^ 8)) by (apply (div_byte_step n 0); lia).
  assert (H1 : n / 2 ^ 8 = byte_of n 1 + 256 * (n / 2 ^ 16)) by (apply (div_byte_step n 1); lia).
  assert (H2 : n / 2 ^ 16 = byte_of n 2 + 256 * (n / 2 ^ 24)) by (apply (div_byte_step n 2); lia).
  assert (H3 : n / 2 ^ 24 = byte_of n 3 + 256 * (n / 2 ^ 32)) by (apply (div_byte_step n 3); lia).
  assert (H4 : n / 2 ^ 32 = byte_of n 4 + 256 * (n / 2 ^ 40)) by (apply (div_byte_step n 4); lia).
  assert (H5 : n / 2 ^ 40 = byte_of n 5 + 256 * (n / 2 ^ 48)) by (apply (div_byte_step n 5); lia).
  assert (H6 : n / 2 ^ 48 = byte_of n 6 + 256 * (n / 2 ^ 56)) by (apply (div_byte_step n 6); lia).
  assert (H7 : n / 2 ^ 56 = byte_of n 7 + 256 * (n / 2 ^ 64)) by (apply (div_byte_step n 7); lia).
  rewrite (Z.div_small n (2 ^ 64)) in H7 by lia.
  change (2 ^ 0) with 1 in H0. rewrite Z.div_1_r in H0.
  lia.
Qed.

Lemma bytes_of_u32 n :
  0 <= n < 2 ^ 32 ->
  n = byte_of n 0 + byte_of n 1 * 2 ^ 8 + byte_of n 2 * 2 ^ 16 + byte_of n 3 * 2 ^ 24.
Proof.
  intros Hn.
  assert (H0 : n / 2 ^ 0 = byte_of n 0 + 256 * (n / 2 ^ 8)) by (apply (div_byte_step n 0); lia).
  assert (H1 : n / 2 ^ 8 = byte_of n 1 + 256 * (n / 2 ^ 16)) by (apply (div_byte_step n 1); lia).
  assert (H2 : n / 2 ^ 16 = byte_of n 2 + 256 * (n / 2 ^ 24)) by (apply (div_byte_step n 2); lia).
  assert (H3 : n / 2 ^ 24 = byte_of n 3 + 256 * (n / 2 ^ 32)) by (apply (div_byte_step n 3); lia).
  rewrite (Z.div_small n (2 ^ 32)) in H3 by lia.
  change (2 ^ 0) with 1 in H0. rewrite Z.div_1_r in H0.
  lia.
Qed.

Lemma bytes_of_u16 n :
  0 <= n < 2 ^ 16 -> n = byte_of n 0 + byte_of n 1 * 2 ^ 8.
Proof.
  intros Hn.
  assert (H0 : n / 2 ^ 0 = byte_of n 0 + 256 * (n / 2 ^ 8)) by (apply (div_byte_step n 0); lia).
  assert (H1 : n / 2 ^ 8 = byte_of n 1 + 256 * (n / 2 ^ 16)) by (apply (div_byte_step n 1); lia).
  rewrite (Z.div_small n (2 ^ 16)) in H1 by lia.
  change (2 ^ 0) with 1 in H0. rewrite Z.div_1_r in H0.
  lia.
Qed.

Lemma byte_swap16_involutive n :
  0 <= n < 2 ^ 16 -> util.byte_swap16 (util.byte_swap16 n) = n.
Proof.
  intros Hn.
  assert (Hr : 0 <= util.byte_swap16 n < 2 ^ 16)
    by (unfold util.byte_swap16, u16, wrap; apply Z.mod_pos_bound; lia).
  rewrite (byte_swap16_bytes (util.byte_swap16 n) Hr), (byte_swap16_bytes n Hn).
  pose proof (bytes_of_u16 n Hn) as Hd. byte_ranges n. name_bytes n.
  match goal with |- context [byte_of ?R 1] => set (r := R) end.
  assert (byte_of r 0 = b1) by (subst r; digit 0 0 b1 b0).
  assert (byte_of r 1 = b0) by (subst r; digit 1 b1 b0 0).
  lia.
Qed.

Lemma byte_swap32_involutive n :
  0 <= n < 2 ^ 32 -> util.byte_swap32 (util.byte_swap32 n) = n.
Proof.
  intros Hn. rewrite (byte_swap32_bytes (util.byte_swap32 n)), (byte_swap32_bytes n).
  pose proof (bytes_of_u32 n Hn) as Hd. byte_ranges n. name_bytes n.
  match goal with |- context [byte_of ?R 3] => set (r := R) end.
  assert (byte_of r 0 = b3) by (subst r; digit 0 0 b3 (b2 + b1 * 2 ^ 8 + b0 * 2 ^ 16)).
  assert (byte_of r 1 = b2) by (subst r; digit 1 b3 b2 (b1 + b0 * 2 ^ 8)).
  assert (byte_of r 2 = b1) by (subst r; digit 2 (b3 + b2 * 2 ^ 8) b1 b0).
  assert (byte_of r 3 = b0) by (subst r; digit 3 (b3 + b2 * 2 ^ 8 + b1 * 2 ^ 16) b0 0).
  lia.
Qed.

Lemma byte_swap64_involutive n :
  0 <= n < 2 ^ 64 -> util.byte_swap64 (util.byte_swap64 n) = n.
Proof.
  intros Hn. rewrite (byte_swap64_bytes (util.byte_swap64 n)), (byte_swap64_bytes n).
  pose proof (bytes_of_u64 n Hn) as Hd. byte_ranges n. name_bytes n.
  match goal with |- context [byte_of ?R 7] => set (r := R) end.
  assert (byte_of r 0 = b7) by
    (subst r; digit 0 0 b7 (b6 + b5 * 2^8 + b4 * 2^16 + b3 * 2^24 + b2 * 2^32 + b1 * 2^40 + b0 * 2^48)).
  assert (byte_of r 1 = b6) by
    (subst r; digit 1 b7 b6 (b5 + b4 * 2^8 + b3 * 2^16 + b2 * 2^24 + b1 * 2^32 + b0 * 2^40)).
  assert (byte_of r 2 = b5) by
    (subst r; digit 2 (b7 + b6 * 2^8) b5 (b4 + b3 * 2^8 + b2 * 2^16 + b1 * 2^24 + b0 * 2^32)).
  assert (byte_of r 3 = b4) by
    (subst r; digit 3 (b7 + b6 * 2^8 + b5 * 2^16) b4 (b3 + b2 * 2^8 + b1 * 2^16 + b0 * 2^24)).
  assert (byte_of r 4 = b3) by
    (subst r; digit 4 (b7 + b6 * 2^8 + b5 * 2^16 + b4 * 2^24) b3 (b2 + b1 * 2^8 + b0 * 2^16)).
  assert (byte_of r 5 = b2) by
    (subst r; digit 5 (b7 + b6 * 2^8 + b5 * 2^16 + b4 * 2^24 + b3 * 2^32) b2 (b1 + b0 * 2^8)).
  assert (byte_of r 6 = b1) by
    (subst r; digit 6 (b7 + b6 * 2^8 + b5 * 2^16 + b4 * 2^24 + b3 * 2^32 + b2 * 2^40) b1 b0).
  assert (byte_of r 7 = b0) by
    (subst r; digit 7 (b7 + b6 * 2^8 + b5 * 2^16 + b4 * 2^24 + b3 * 2^32 + b2 * 2^40 + b1 * 2^48) b0 0).
  lia.
Qed.

(** C8.  Swapping the bytes of a 16-bit, 32-bit or 64-bit value twice gives
    the value back: [swap16 (swap16 x) = x], [swap32 (swap32 x) = x] and
    [swap64 (swap64 x) = x] for every [x] of the respective width. *)
Theorem byte_swap_round_trip (x : Z) :
  (0 <= x < 2 ^ 16 -> util.byte_swap16 (util.byte_swap16 x) = x)
  /\ (0 <= x < 2 ^ 32 -> util.byte_swap32 (util.byte_swap32 x) = x)
  /\ (0 <= x < 2 ^ 64 -> util.byte_swap64 (util.byte_swap64 x) = x).
Proof.
  split; [|split].
  - apply byte_swap16_involutive.
  - apply byte_swap32_involutive.
  - apply byte_swap64_involutive.
Qed.

(** ** What a member function may change *)

Create HintDb stream_only.

Lemma same_session_refl p : same_session p p.
Proof. unfold same_session; intuition. Qed.

Lemma same_session_trans p q r :
  same_session p q -> same_session q r -> same_session p r.
Proof. unfold same_session; intuition congruence. Qed.

Lemma stream_moved_refl p : stream_moved p p.
Proof. split; [apply same_session_refl | reflexivity]. Qed.

Lemma stream_moved_trans p q r :
  stream_moved p q -> stream_moved q r -> stream_moved p r.
Proof.
  intros [H1 F1] [H2 F2]. split; [eapply same_session_trans; eauto | congruence].
Qed.

Lemma stream_moved_set_stream p st :
  contents st = contents (stream (file p)) -> stream_moved p (set_stream st p).
Proof. intros H. unfold stream_moved, same_session; cbn; intuition. Qed.

(** A reader is determined by the session, the frame and the stream. *)
Lemma stream_moved_eq p q :
  stream_moved p q ->
  gptr (stream (file q)) = gptr (stream (file p)) ->
  failbit (stream (file q)) = failbit (stream (file p)) ->
  q = p.
Proof.
  destruct p as [[a b c d e fr [ct g f]] gd], q as [[a' b' c' d' e' fr' [ct' g' f']] gd'].
  unfold stream_moved, same_session; cbn. intuition congruence.
Qed.

Lemma stream_moved_set_stream_eq p q st :
  stream_moved p q -> st = stream (file p) -> set_stream st q = p.
Proof.
  intros H ->. apply stream_moved_eq; cbn; auto.
  destruct H as [(?&?&?&?&?&?&?) ?].
  destruct q as [[a' b' c' d' e' fr' [ct' g' f']] gd']; cbn in *.
  unfold stream_moved, same_session; cbn; intuition.
Qed.

Lemma stream_only_ret {A} (a : A) : stream_only (ret a).
Proof. intros p. apply stream_moved_refl. Qed.

Lemma stream_only_bind {A B} (m : io A) (k : A -> io B) :
  stream_only m -> (forall a, stream_only (k a)) -> stream_only (bind m k).
Proof.
  intros Hm Hk p. unfold bind. specialize (Hm p).
  destruct (m p) as [a q]. eapply stream_moved_trans; [exact Hm | apply Hk].
Qed.

Lemma istream_read_contents n s : contents (snd (istream.read n s)) = contents s.
Proof. unfold istream.read. destruct (failbit s); reflexivity. Qed.

Lemma istream_seekg_contents off s : contents (istream.seekg off s) = contents s.
Proof. unfold istream.seekg. destruct (failbit s), (off <? 0); reflexivity. Qed.

Lemma istream_seekg_cur_contents off s : contents (istream.seekg_cur off s) = contents s.
Proof.
  unfold istream.seekg_cur. destruct (failbit s), (gptr s + off <? 0); reflexivity.
Qed.

Lemma istream_clear_contents s : contents (istream.clear s) = contents s.
Proof. reflexivity. Qed.

Lemma stream_only_clear : stream_only stream_clear.
Proof. intros p. apply stream_moved_set_stream. reflexivity. Qed.

Lemma stream_only_seekg off : stream_only (stream_seekg off).
Proof. intros p. apply stream_moved_set_stream, istream_seekg_contents. Qed.

Lemma stream_only_seekg_cur off : stream_only (stream_seekg_cur off).
Proof. intros p. apply stream_moved_set_stream, istream_seekg_cur_contents. Qed.

Lemma stream_only_tellg : stream_only stream_tellg.
Proof. intros p. apply stream_moved_refl. Qed.

Section Frame.

Variable host : Host.

Lemma read_snd n p :
  snd (read host n p) =
  if istream.good (stream (file p))
  then set_stream (snd (istream.read n (stream (file p)))) p
  else p.
Proof.
  unfold read. destruct (istream.good (stream (file p))); [|reflexivity].
  destruct (istream.read n (stream (file p))); reflexivity.
Qed.

Lemma stream_only_read n : stream_only (read host n).
Proof.
  intros p. rewrite read_snd. destruct (istream.good _).
  - apply stream_moved_set_stream, istream_read_contents.
  - apply stream_moved_refl.
Qed.

#[local] Hint Resolve stream_only_ret stream_only_bind stream_only_clear stream_only_seekg
  stream_only_seekg_cur stream_only_tellg stream_only_read : stream_only.

Lemma stream_only_read_inline bytes count n : forall i pv,
  stream_only (read_inline host bytes count i n pv).
Proof. induction n; intros; cbn; auto with stream_only. Qed.

Lemma stream_only_read_values bytes n : forall pv,
  stream_only (read_values host bytes n pv).
Proof. induction n; intros; cbn; auto with stream_only. Qed.

Lemma stream_only_read_rationals n : forall pv pv2,
  stream_only (read_rationals host n pv pv2).
Proof. induction n; intros; cbn; auto 6 with stream_only. Qed.

#[local] Hint Resolve stream_only_read_inline stream_only_read_values
  stream_only_read_rationals : stream_only.

Lemma stream_only_read_ifd_values type count :
  stream_only (read_ifd_values host type count).
Proof.
  intros p. unfold read_ifd_values.
  repeat match goal with
    | |- stream_moved _ (snd ((if ?b then _ else _))) => destruct b
    end;
  match goal with |- stream_moved _ (snd (?m p)) => 
     assert (H : stream_only m); [ | apply H ] end;
  repeat (first [ apply stream_only_bind; [ | intros ? ] | solve [auto with stream_only] 
     | match goal with |- stream_only (if ?b then _ else _) => destruct b end ]).
Qed.

Lemma stream_only_read_ifd : stream_only (read_ifd host).
Proof.
  unfold read_ifd.
  repeat (first [ apply stream_only_bind; [ | intros ? ]
                | solve [auto with stream_only]
                | apply stream_only_read_ifd_values
                | match goal with
                  | |- stream_only (if ?b then _ else _) => destruct b
                  | |- stream_only (let '(_, _) := ?r in _) => destruct r
                  end ]).
Qed.


(** ** Reads that succeed *)

Lemma len_nonneg {A} (l : list A) : 0 <= len l.
Proof. unfold len. lia. Qed.

Lemma istream_read_length n s :
  failbit s = false -> 0 <= gptr s -> 0 <= n -> gptr s + n <= len (contents s) ->
  len (fst (istream.read n s)) = n.
Proof.
  intros Hf Hg Hn Hb. unfold istream.read, len in *. rewrite Hf. cbn.
  rewrite length_firstn, length_skipn. lia.
Qed.

Lemma istream_read_cursor n s :
  failbit s = false -> 0 <= gptr s -> 0 <= n -> gptr s + n <= len (contents s) ->
  gptr (snd (istream.read n s)) = gptr s + n
  /\ failbit (snd (istream.read n s)) = false.
Proof.
  intros Hf Hg Hn Hb.
  pose proof (istream_read_length n s Hf Hg Hn Hb) as Hl.
  unfold istream.read, len in *. rewrite Hf in *. cbn in *.
  rewrite Hl. split; [reflexivity | apply Z.ltb_irrefl].
Qed.

Lemma positioned_contents p0 p g :
  positioned p0 p g -> contents (stream (file p)) = contents (stream (file p0)).
Proof. intros [[(?&?&?&?&?&?&?) ?] ?]. assumption. Qed.

Lemma read_positioned n p0 p g :
  positioned p0 p g -> 0 <= g -> 0 <= n ->
  g + n <= len (contents (stream (file p0))) ->
  positioned p0 (snd (read host n p)) (g + n).
Proof.
  intros Hp Hg Hn Hb. pose proof (positioned_contents _ _ _ Hp) as Hc.
  destruct Hp as [Hm [Hgp Hf]]. split.
  - eapply stream_moved_trans; [exact Hm | apply stream_only_read].
  - rewrite read_snd. unfold istream.good. rewrite Hf. cbn [negb].
    unfold cursor_at. cbn.
    rewrite <- Hgp. apply istream_read_cursor; rewrite ?Hgp, ?Hc; auto.
Qed.

Lemma read_inline_positioned bytes count n : forall i pv p0 p g,
  positioned p0 p g -> 0 <= g -> 0 <= bytes ->
  g + Z.of_nat n * bytes <= len (contents (stream (file p0))) ->
  positioned p0 (snd (read_inline host bytes count i n pv p)) (g + Z.of_nat n * bytes).
Proof.
  induction n as [|n IH]; intros i pv p0 p g Hp Hg Hb Hl.
  - cbn [read_inline ret snd]. replace (g + Z.of_nat 0 * bytes) with g by lia. exact Hp.
  - cbn [read_inline]. unfold bind.
    pose proof (read_positioned bytes p0 p g Hp Hg Hb) as H1.
    destruct (read host bytes p) as [v q]. cbn [snd] in H1.
    replace (g + Z.of_nat (S n) * bytes) with ((g + bytes) + Z.of_nat n * bytes) by lia.
    apply IH; try lia. apply H1. nia.
Qed.


Ltac step_io :=
  unfold bind, ret;
  repeat match goal with
    | |- context [let (_, _) := ?m in _] =>
        let E := fresh "E" in destruct m eqn:E
    end.

Lemma read_ifd_values_cursor type count p0 p g :
  positioned p0 p g -> 0 <= g ->
  g + 4 <= len (contents (stream (file p0))) ->
  let r := read_ifd_values host type count p in
  if empty_byte_entry type count
  then snd r = p /\ snd (fst r) = false
  else snd (fst r) = true \/ cursor_at (snd r) (g + 4).
Proof.
  intros Hp Hg Hl. unfold empty_byte_entry, read_ifd_values. cbv zeta.
  destruct ((type =? DataType.Byte) || (type =? DataType.ASCII)); cbn [andb].
  - destruct (0 <? count); cbn [negb].
    + destruct (count <=? 4).
      * right.
        pose proof (read_inline_positioned 1 count 4 0 [] p0 p g Hp Hg) as H.
        step_io. cbn [snd] in *. apply H; lia.
      * left. step_io. destruct (_ <=? _); step_io; reflexivity.
    + split; reflexivity.
  - destruct (type =? DataType.Short).
    + destruct (count <=? 2).
      * right.
        pose proof (read_inline_positioned 2 count 2 0 [] p0 p g Hp Hg) as H.
        step_io. cbn [snd] in *. apply H; lia.
      * left. step_io. destruct (_ <=? _); step_io; reflexivity.
    + destruct (type =? DataType.Long).
      * destruct (count <=? 1).
        -- right. pose proof (read_positioned 4 p0 p g Hp Hg) as H.
           step_io. cbn [snd] in *. apply H; lia.
        -- left. step_io. destruct (_ <=? _); step_io; reflexivity.
      * destruct (type =? DataType.Rational).
        -- left. step_io. destruct (_ <=? _); step_io; reflexivity.
        -- right. pose proof (read_positioned 4 p0 p g Hp Hg) as H.
           step_io. cbn [snd] in *. apply H; lia.
Qed.

Lemma bind_run {A B} (m : io A) (k : A -> io B) p :
  bind m k p = k (fst (m p)) (snd (m p)).
Proof. unfold bind. destruct (m p). reflexivity. Qed.

Ltac run_io := repeat (rewrite bind_run; cbv beta).
Ltac run_io_in H := repeat (rewrite bind_run in H; cbv beta in H).

Lemma read_ifd_cursor_at p g :
  cursor_at p g -> 0 <= g -> g + 12 <= len (contents (stream (file p))) ->
  let r := read_ifd host p in
  cursor_at (snd r)
    (if empty_byte_entry (type (fst r)) (count (fst r)) then g + 8 else g + 12).
Proof.
  intros Hc Hg Hl.
  assert (Hp : positioned p p g) by (split; [apply stream_moved_refl | exact Hc]).
  cbv zeta. remember (read_ifd host p) as r eqn:Er.
  unfold read_ifd in Er. rewrite 4 bind_run in Er. cbv beta in Er.
  pose proof (read_positioned 2 p p g Hp Hg) as H1.
  set (tg := fst (read host 2 p)) in *. set (p1 := snd (read host 2 p)) in *.
  specialize (H1 ltac:(lia) ltac:(lia)).
  pose proof (read_positioned 2 p p1 _ H1) as H2.
  set (ty := fst (read host 2 p1)) in *. set (p2 := snd (read host 2 p1)) in *.
  specialize (H2 ltac:(lia) ltac:(lia) ltac:(lia)).
  pose proof (read_positioned 4 p p2 _ H2) as H3.
  set (ct := fst (read host 4 p2)) in *. set (p3 := snd (read host 4 p2)) in *.
  specialize (H3 ltac:(lia) ltac:(lia) ltac:(lia)).
  replace (g + 2 + 2 + 4) with (g + 8) in H3 by lia.
  unfold stream_tellg in Er. cbn [fst snd] in Er.
  pose proof (read_ifd_values_cursor ty ct p p3 (g + 8) H3) as H4.
  cbv zeta in H4. specialize (H4 ltac:(lia) ltac:(lia)).
  destruct H3 as [Hm3 [Hg3 Hf3]].
  unfold istream.tellg in Er. rewrite Hf3, Hg3 in Er.
  rewrite bind_run in Er. cbv beta in Er.
  destruct (read_ifd_values host ty ct p3) as [[[[pv pv2] v] pc] p4].
  cbn [fst snd] in H4, Er.
  destruct pc.
  - (* the values were read out of line: the cursor is put back *)
    run_io_in Er. subst r. cbn [fst snd type count ret].
    destruct (empty_byte_entry ty ct); [destruct H4; discriminate|].
    unfold stream_clear, stream_seekg, stream_seekg_cur, cursor_at. cbn.
    unfold istream.seekg, istream.seekg_cur, istream.clear. cbn.
    destruct (g + 8 <? 0) eqn:Elt; [lia|]. cbn.
    destruct (g + 8 + 4 <? 0) eqn:Elt2; [lia|]. cbn. split; [lia | reflexivity].
  - run_io_in Er. subst r. cbn [fst snd type count ret].
    destruct (empty_byte_entry ty ct).
    + destruct H4 as [-> _]. split; assumption.
    + destruct H4 as [H4|H4]; [discriminate|].
      replace (g + 12) with (g + 8 + 4) by lia. exact H4.
Qed.

Lemma ifstream_ext s c g f :
  contents s = c -> gptr s = g -> failbit s = f -> s = mk_ifstream c g f.
Proof. destruct s; cbn; congruence. Qed.

(** Where [read_ifd] leaves the cursor, for an entry that lies inside the
    file: twelve bytes on, except for a [Byte] or [ASCII] entry whose
    count is zero, which is left after the count field. *)
Lemma read_ifd_cursor p g :
  cursor_at p g -> 0 <= g -> g + 12 <= len (contents (stream (file p))) ->
  let r := read_ifd host p in
  stream (file (snd r)) =
  mk_ifstream (contents (stream (file p)))
    (if empty_byte_entry (type (fst r)) (count (fst r)) then g + 8 else g + 12)
    false.
Proof.
  intros Hc Hg Hl r.
  destruct (read_ifd_cursor_at p g Hc Hg Hl) as [Hgp Hf].
  destruct (stream_only_read_ifd p) as [(_&_&_&_&_&Hcs&_) _].
  apply ifstream_ext; assumption.
Qed.


(** ** The directory walk of [read_next_frame] *)

Lemma stream_only_session_only {A} (m : io A) : stream_only m -> session_only m.
Proof. intros H p. apply H. Qed.

Lemma session_only_bind {A B} (m : io A) (k : A -> io B) :
  session_only m -> (forall a, session_only (k a)) -> session_only (bind m k).
Proof.
  intros Hm Hk p. rewrite bind_run.
  eapply same_session_trans; [apply Hm | apply Hk].
Qed.

Lemma same_session_set_current_frame fr p : same_session p (set_current_frame fr p).
Proof. unfold same_session; cbn; intuition. Qed.

Lemma session_only_read_entries n : forall err, session_only (read_entries host n err).
Proof.
  induction n as [|n IH]; intros err.
  - intros p. apply same_session_refl.
  - cbn [read_entries]. apply session_only_bind.
    + apply stream_only_session_only, stream_only_read_ifd.
    + intros ifd p. destruct (dispatch_tag ifd (current_frame (file p), err)) as [fr err'].
      eapply same_session_trans; [apply (same_session_set_current_frame fr) | apply IH].
Qed.

Lemma same_session_bytes p q : same_session p q -> same_bytes p q.
Proof. intros (_&_&?&?&_&?&_). repeat split; assumption. Qed.

Lemma same_bytes_trans p q r : same_bytes p q -> same_bytes q r -> same_bytes p r.
Proof. unfold same_bytes. intuition congruence. Qed.

Lemma same_bytes_sym p q : same_bytes p q -> same_bytes q p.
Proof. unfold same_bytes. intuition congruence. Qed.

Lemma read_fst_peek n p q g :
  same_bytes p q -> cursor_at q g -> fst (read host n q) = peek host p g n.
Proof.
  intros (Hs&Hf&Hc) [Hg Hb]. unfold peek, read, byte_swap_if_need, istream.good.
  cbn. rewrite Hb, Hs, Hf. cbn.
  unfold istream.read. cbn. rewrite Hb, Hg, Hc. reflexivity.
Qed.

Lemma peek_same_bytes p q g n : same_bytes p q -> peek host q g n = peek host p g n.
Proof.
  intros H. unfold peek at 1. apply read_fst_peek.
  - destruct H as (?&?&?). repeat split; cbn; assumption.
  - split; reflexivity.
Qed.

Lemma read_nonneg n p : 0 <= fst (read host n p).
Proof.
  unfold read. destruct (istream.good _); [|cbn; lia].
  destruct (istream.read n _) as [got st]. cbn [fst].
  assert (Hle : forall l, 0 <= le_value l).
  { induction l as [|b l IH]; cbn [le_value]; [lia|].
    unfold byte_val. lia. }
  assert (Hld : forall l, 0 <= load host l) by (intros; destruct host; cbn; apply Hle).
  unfold byte_swap_if_need. destruct (negb _); [|apply Hld].
  unfold util.byte_swap, util.byte_swap64, util.byte_swap32, util.byte_swap16, u64, u32, u16, wrap.
  repeat match goal with |- context [if ?b then _ else _] => destruct b end;
    try apply Z.mod_pos_bound; try lia. apply Hld.
Qed.


Lemma seekg_clear off st :
  0 <= off -> istream.seekg off (istream.clear st) = mk_ifstream (contents st) off false.
Proof.
  intros H. unfold istream.seekg, istream.clear. cbn.
  destruct (off <? 0) eqn:E; [lia | reflexivity].
Qed.

(** [read_next_frame] on a directory offset that passes its test, as one
    straight line. *)
Lemma read_next_frame_unfold p :
  let off := next_ifd_offset (file p) in
  0 < off -> off + 2 < size (file p) ->
  read_next_frame host p =
  let pa := set_stream (mk_ifstream (contents (stream (file p))) off false)
              (set_current_frame ReaderFrame_default p) in
  let r1 := read host 2 pa in
  let r2 := read_entries host (Z.to_nat (fst r1)) NoError (snd r1) in
  let fr := current_frame (file (snd r2)) in
  let pd := set_current_frame (set_height (image_length fr) fr) (snd r2) in
  let pe := set_stream
              (mk_ifstream (contents (stream (file pd))) (off + 2 + 12 * fst r1) false)
              pd in
  let r3 := read host 4 pe in
  (fst r2, set_good (Error_is_NoError (fst r2)) (set_next_ifd_offset (fst r3) (snd r3))).
Proof.
  intros off H0 H2. unfold read_next_frame. cbn [set_current_frame file next_ifd_offset size].
  fold off.
  replace (negb (off =? 0) && (off + 2 <? size (file p))) with true
    by (symmetry; apply andb_true_iff; split; [apply negb_true_iff; lia | lia]).
  cbv zeta. unfold bind, stream_clear, stream_seekg, ret.
  cbn [set_stream set_current_frame file stream good first_record_offset
       next_ifd_offset system_byte_order file_byte_order size current_frame
       contents gptr failbit fst snd].
  rewrite seekg_clear by lia. cbn [contents].
  destruct (read host 2 _) as [cnt pb] eqn:E1.
  assert (Hc : 0 <= cnt).
  { match type of E1 with read host 2 ?x = _ =>
      pose proof (read_nonneg 2 x) as H; rewrite E1 in H; exact H end. }
  cbn [fst snd].
  destruct (read_entries host (Z.to_nat cnt) NoError pb) as [err pc].
  cbn [set_stream set_current_frame file stream good first_record_offset
       next_ifd_offset system_byte_order file_byte_order size current_frame
       contents gptr failbit fst snd].
  rewrite seekg_clear by lia. cbn [contents].
  destruct (read host 4 _) as [v pf]. reflexivity.
Qed.

Lemma same_session_canon p q st fr :
  same_session p q ->
  set_stream st (set_current_frame fr q) = set_stream st (set_current_frame fr p).
Proof.
  destruct p as [[a b c d e f0 s0] gd], q as [[a' b' c' d' e' f1 s1] gd'].
  unfold same_session, set_stream, set_current_frame; cbn.
  intros (?&?&?&?&?&?&?). congruence.
Qed.

(** [read_next_frame] starts from a fresh frame and an absolute seek: what
    the frame and the cursor were before does not matter. *)
Lemma read_next_frame_same_session p q :
  same_session p q ->
  0 < next_ifd_offset (file p) -> next_ifd_offset (file p) + 2 < size (file p) ->
  read_next_frame host q = read_next_frame host p.
Proof.
  intros Hs H0 H2. pose proof Hs as (_&Hn&_&_&Hz&Hc&_).
  rewrite (read_next_frame_unfold p), (read_next_frame_unfold q) by (rewrite ?Hn, ?Hz; lia).
  rewrite Hn, Hc. rewrite (same_session_canon p q) by exact Hs. reflexivity.
Qed.


Lemma ifd_next_same_bytes p q off : same_bytes p q -> ifd_next host q off = ifd_next host p off.
Proof.
  intros H. unfold ifd_next, ifd_entry_count. rewrite !(peek_same_bytes p q) by exact H.
  reflexivity.
Qed.

Lemma same_session_set_stream_frame p st fr :
  contents st = contents (stream (file p)) ->
  same_session p (set_stream st (set_current_frame fr p)).
Proof. intros H. unfold same_session; cbn; intuition. Qed.

(** What [read_next_frame] leaves behind on a directory offset that passes
    its test: the file is the same, the next offset is the one stored
    after the entries, [good] says whether the decode reported an error,
    and the stream is where the read of that offset left it. *)
Lemma read_next_frame_spec p :
  let off := next_ifd_offset (file p) in
  0 < off -> off + 2 < size (file p) ->
  let r := read_next_frame host p in
  same_session (set_next_ifd_offset (ifd_next host p off) (set_good (Error_is_NoError (fst r)) p))
    (snd r)
  /\ stream (file (snd r)) =
     snd (istream.read 4
            (mk_ifstream (contents (stream (file p)))
               (off + 2 + 12 * ifd_entry_count host p off) false)).
Proof.
  intros off H0 H2 r. subst r. rewrite read_next_frame_unfold by assumption.
  fold off. cbv zeta.
  set (pa := set_stream _ (set_current_frame ReaderFrame_default p)).
  assert (Sa : same_session p pa) by (apply same_session_set_stream_frame; reflexivity).
  assert (Ca : cursor_at pa off) by (split; reflexivity).
  pose proof (read_fst_peek 2 p pa off (same_session_bytes _ _ Sa) Ca) as Hcnt.
  fold (ifd_entry_count host p off) in Hcnt.
  pose proof (stream_only_read 2 pa) as [S1 _].
  set (r1 := read host 2 pa) in *. rewrite Hcnt.
  pose proof (session_only_read_entries (Z.to_nat (ifd_entry_count host p off)) NoError (snd r1)) as S2.
  set (r2 := read_entries host _ NoError (snd r1)) in *.
  set (fr := current_frame (file (snd r2))).
  set (pd := set_current_frame _ (snd r2)).
  assert (Sd : same_session p pd).
  { eapply same_session_trans; [exact Sa|]. eapply same_session_trans; [exact S1|].
    eapply same_session_trans; [exact S2|]. apply same_session_set_current_frame. }
  assert (Hcd : contents (stream (file pd)) = contents (stream (file p))) by apply Sd.
  set (pe := set_stream _ pd).
  assert (Se : same_session p pe).
  { eapply same_session_trans; [exact Sd|]. unfold pe, same_session; cbn; intuition. }
  assert (Ce : cursor_at pe (off + 2 + 12 * ifd_entry_count host p off)) by (split; reflexivity).
  pose proof (read_fst_peek 4 p pe _ (same_session_bytes _ _ Se) Ce) as Hnx.
  fold (ifd_next host p off) in Hnx.
  pose proof (stream_only_read 4 pe) as [S3 _].
  pose proof (read_snd 4 pe) as Hs3.
  set (r3 := read host 4 pe) in *. rewrite Hnx. cbn [fst snd].
  split.
  - assert (S4 : same_session p (snd r3)) by (eapply same_session_trans; eassumption).
    revert S4. unfold same_session; cbn. intuition.
  - rewrite Hs3.
    change (stream (file pe))
      with (mk_ifstream (contents (stream (file pd)))
              (off + 2 + 12 * ifd_entry_count host p off) false).
    unfold istream.good. cbn [failbit negb].
    change (stream (file (set_stream ?s ?q))) with s.
    rewrite Hcd. reflexivity.
Qed.


(** ** Counting frames and walking them *)

Lemma ifd_entry_count_nonneg p off : 0 <= ifd_entry_count host p off.
Proof. apply read_nonneg. Qed.

(** One pass of the loop of [count_frames] over a directory of the chain
    reads the same trailing offset as [read_next_frame]. *)
Lemma count_frames_step p q off :
  same_bytes p q ->
  0 < off ->
  off + 2 + 12 * ifd_entry_count host p off + 4 <= len (contents (stream (file p))) ->
  12 * ifd_entry_count host p off < 2 ^ 16 ->
  let r := (stream_clear ;;;
            stream_seekg off ;;;
            c <- read host 2 ;;
            stream_seekg_cur (u16 (c * 12)) ;;;
            read host 4) q in
  fst r = ifd_next host p off /\ stream_moved q (snd r).
Proof.
  intros Hb H0 Hl H16 r. split.
  - remember r as r' eqn:Er. subst r.
    unfold bind, stream_clear, stream_seekg, ret in Er. cbv beta iota zeta in Er.
    change (stream (file (set_stream ?s ?x))) with s in Er.
    rewrite seekg_clear in Er by lia.
    change (set_stream ?a (set_stream ?b ?x)) with (set_stream a x) in Er.
    set (qa := set_stream _ q) in Er.
    assert (Sa : stream_moved q qa) by (apply stream_moved_set_stream; reflexivity).
    assert (Ba : same_bytes p qa).
    { eapply same_bytes_trans; [exact Hb | apply same_session_bytes, Sa]. }
    assert (Pa : positioned q qa off) by (split; [exact Sa | split; reflexivity]).
    pose proof (read_fst_peek 2 p qa off Ba (proj2 Pa)) as Hc.
    fold (ifd_entry_count host p off) in Hc.
    assert (Hcq : contents (stream (file q)) = contents (stream (file p))) by apply Hb.
    pose proof (ifd_entry_count_nonneg p off) as Hn.
    pose proof (read_positioned 2 q qa off Pa ltac:(lia) ltac:(lia)) as P1.
    rewrite Hcq in P1. specialize (P1 ltac:(lia)).
    destruct (read host 2 qa) as [c q1]. cbn [fst snd] in Hc, P1. subst c.
    assert (Hu : u16 (ifd_entry_count host p off * 12) = 12 * ifd_entry_count host p off).
    { unfold u16, wrap. rewrite Z.mod_small; lia. }
    rewrite Hu in Er. destruct P1 as [S1 [G1 F1]].
    unfold stream_seekg_cur in Er. unfold istream.seekg_cur in Er. rewrite F1, G1 in Er.
    destruct (off + 2 + 12 * ifd_entry_count host p off <? 0) eqn:E; [lia|].
    subst r'. unfold ifd_next. apply read_fst_peek.
    + eapply same_bytes_trans; [exact Hb|]. apply same_session_bytes.
      eapply same_session_trans; [apply S1|].
      unfold same_session; cbn; intuition.
    + split; reflexivity.
  - subst r.
    assert (H : stream_only (stream_clear ;;;
            stream_seekg off ;;;
            c <- read host 2 ;;
            stream_seekg_cur (u16 (c * 12)) ;;;
            read host 4)) by auto 10 with stream_only.
    apply H.
Qed.


Lemma count_frames_loop_moved fuel : forall off frames q r,
  count_frames_loop host fuel off frames q = Some r -> stream_moved q (snd r).
Proof.
  induction fuel as [|fuel IH]; intros off frames q r; cbn [count_frames_loop];
    destruct (0 <? off); try discriminate;
    try (intros H; inversion H; apply stream_moved_refl).
  assert (Hs : stream_only (stream_clear ;;;
            stream_seekg off ;;;
            c <- read host 2 ;;
            stream_seekg_cur (u16 (c * 12)) ;;;
            read host 4)) by auto 10 with stream_only.
  specialize (Hs q).
  destruct ((stream_clear ;;; _) q) as [next q1]. cbn [snd] in Hs.
  intros H. eapply stream_moved_trans; [exact Hs | eapply IH; exact H].
Qed.

Lemma count_frames_loop_chain p offs : forall off,
  ifd_chain host p off offs ->
  forall fuel frames q,
    (length offs <= fuel)%nat -> same_bytes p q ->
    0 <= frames -> frames + len offs < 2 ^ 32 ->
    exists q', count_frames_loop host fuel off frames q = Some (frames + len offs, q').
Proof.
  induction 1 as [|off rest H0 Hl H16 Hch IH]; intros fuel frames q Hfuel Hb Hf Hlt.
  - exists q. destruct fuel; cbn; unfold len; cbn; f_equal; f_equal; lia.
  - destruct fuel as [|fuel]; [cbn in Hfuel; lia|].
    cbn [count_frames_loop]. destruct (0 <? off) eqn:E; [|lia].
    pose proof (count_frames_step p q off Hb H0 Hl H16) as [Hn Hm].
    destruct ((stream_clear ;;; _) q) as [next q1]. cbn [fst snd] in Hn, Hm. subst next.
    unfold len in *. cbn [length] in *.
    assert (Hu : u32 (frames + 1) = frames + 1) by (unfold u32, wrap; rewrite Z.mod_small; lia).
    rewrite Hu.
    destruct (IH fuel (frames + 1) q1) as [q' Hq']; try lia.
    + eapply same_bytes_trans; [exact Hb | apply same_session_bytes, Hm].
    + exists q'. rewrite Hq'. f_equal. f_equal. lia.
Qed.

Lemma set_next_ifd_offset_same p : set_next_ifd_offset (next_ifd_offset (file p)) p = p.
Proof. destruct p as [[]]; reflexivity. Qed.

Lemma same_session_sym p q : same_session p q -> same_session q p.
Proof. unfold same_session; intuition congruence. Qed.

(** Walking a chain whose directories decode: every call of the public
    [read_next_frame] succeeds, and [has_next_frame] turns false exactly at
    the end of the chain. *)
Lemma remaining_frames_chain p :
  good p = true -> size (file p) = len (contents (stream (file p))) ->
  forall offs off,
    ifd_chain host p off offs -> Forall (decodes host p) offs ->
    forall q, same_session (set_next_ifd_offset off p) q ->
      remaining_frames host (length offs) q = Some (length offs).
Proof.
  intros Hgood Hsize offs off0 Hch0.
  induction Hch0 as [|off rest H0 Hl H16 Hch IH]; intros Hdec q Hs.
  - cbn. unfold Reader_has_next_frame.
    destruct Hs as (_&Hn&_). cbn in Hn. rewrite Hn.
    rewrite andb_false_r. reflexivity.
  - pose proof (ifd_entry_count_nonneg p off) as Hc.
    pose proof Hs as (Hfirst&Hn&Hso&Hfo&Hz&Hct&Hg). cbn in Hfirst, Hn, Hso, Hfo, Hz, Hct, Hg.
    cbn [length remaining_frames].
    assert (Hhas : Reader_has_next_frame q = true).
    { unfold Reader_has_next_frame. rewrite Hg, Hgood, Hn, Hz, Hsize. cbn.
      apply andb_true_iff. split; lia. }
    rewrite Hhas. unfold Reader_read_next_frame. rewrite Hhas. cbn [negb].
    set (c := set_next_ifd_offset off p) in *.
    assert (Hc0 : 0 < next_ifd_offset (file c)) by (cbn; lia).
    assert (Hc2 : next_ifd_offset (file c) + 2 < size (file c)) by (cbn; rewrite Hsize; lia).
    rewrite (read_next_frame_same_session c q Hs Hc0 Hc2).
    pose proof (Forall_inv Hdec) as Hd. pose proof (Forall_inv_tail Hdec) as Hdec'.
    pose proof (read_next_frame_spec c Hc0 Hc2) as [Hs' _]. cbv zeta in Hs'.
    unfold decodes in Hd. fold c in Hd. rewrite Hd in Hs'.
    destruct (read_next_frame host c) as [e q']. cbn [fst snd] in Hd, Hs'. subst e.
    rewrite (IH Hdec' q'); [reflexivity|].
    change (next_ifd_offset (file c)) with off in Hs'.
    assert (Hbc : same_bytes p c) by (unfold c, same_bytes; cbn; intuition).
    rewrite (ifd_next_same_bytes p c off Hbc) in Hs'.
    revert Hs'. unfold c, same_session; cbn. rewrite Hgood. intuition.
Qed.


(** A successful [open] ends with [read_next_frame] on the first
    directory, the file's length in [size]. *)
Lemma open_inv bytes p :
  open host (Some bytes) ReaderPrivate_default = (NoError, p) ->
  exists p0,
    read_next_frame host p0 = (NoError, p)
    /\ next_ifd_offset (file p0) = first_record_offset (file p0)
    /\ 0 <= next_ifd_offset (file p0)
    /\ size (file p0) = len bytes
    /\ contents (stream (file p0)) = bytes.
Proof.
  unfold open. cbv zeta.
  pose proof (istream_read_contents 2
    (stream (file (set_size (len bytes)
       (set_stream (mk_ifstream bytes 0 false)
          (set_system_byte_order (util.get_byte_order host) ReaderPrivate_default))))))
    as Hct.
  destruct (istream.read 2 _) as [got st]. cbn [snd] in Hct.
  match goal with
  | |- match ?x with _ => _ end = _ -> _ => destruct x as [o|]; [|discriminate]
  end.
  match goal with |- ?m ?x = _ -> _ => set (p1 := x) end.
  assert (Hz1 : size (file p1) = len bytes) by reflexivity.
  assert (Hc1 : contents (stream (file p1)) = bytes) by exact Hct.
  rewrite bind_run. cbv beta.
  pose proof (stream_only_read 2 p1) as [S2 _].
  destruct (read host 2 p1) as [magic p2]. cbn [fst snd] in *.
  destruct (negb (magic =? 42)); [discriminate|].
  rewrite bind_run. cbv beta.
  pose proof (stream_only_read 4 p2) as [S3 _].
  pose proof (read_nonneg 4 p2) as Hn.
  destruct (read host 4 p2) as [first p3]. cbn [fst snd] in *.
  rewrite bind_run. cbv beta. cbn [fst snd].
  intros H. eexists. split; [exact H|].
  pose proof (same_session_trans _ _ _ S2 S3) as (_&_&_&_&Hz&Hc&_).
  cbn. repeat split; try assumption; congruence.
Qed.

Lemma read_next_frame_NoError p q :
  read_next_frame host p = (NoError, q) ->
  next_ifd_offset (file p) <> 0
  /\ next_ifd_offset (file p) + 2 < size (file p).
Proof.
  unfold read_next_frame. cbn [set_current_frame file next_ifd_offset size].
  destruct (negb (next_ifd_offset (file p) =? 0)) eqn:E1; cbn [andb].
  - destruct (next_ifd_offset (file p) + 2 <? size (file p)) eqn:E2.
    + intros _. apply negb_true_iff in E1. split; lia.
    + intros H. inversion H.
  - intros H. inversion H.
Qed.


(** C5, as amended.  After a successful [open] of a file whose chain of
    directories [offs] is well formed (every directory and its trailing
    offset inside the file, fewer than 5462 entries each, a final offset of
    zero, fewer than [2 ^ 32] directories) and whose directories after the
    first decode without an error, [count_frames] returns the number of
    directories and leaves the reader as it was, and that number is one
    more than the number of public [read_next_frame] calls that succeed
    before [has_next_frame] turns false: the first frame is the one [open]
    decodes. *)
Theorem count_frames_matches_walk bytes p offs :
  open host (Some bytes) ReaderPrivate_default = (NoError, p) ->
  ifd_chain host p (first_record_offset (file p)) offs ->
  Forall (decodes host p) (tl offs) ->
  len offs < 2 ^ 32 ->
  Reader_count_frames host (length offs) p = Some (len offs, p)
  /\ remaining_frames host (length (tl offs)) p = Some (length (tl offs))
  /\ length offs = S (length (tl offs)).
Proof.
  intros Hopen Hch Hdec Hlt.
  destruct (open_inv bytes p Hopen) as (p0 & Hrun & Hfirst & Hnn & Hsize & Hbytes).
  destruct (read_next_frame_NoError p0 p Hrun) as [Hne H2].
  assert (H0 : 0 < next_ifd_offset (file p0)) by lia.
  pose proof (read_next_frame_spec p0 H0 H2) as [Hs Hst]. cbv zeta in Hs, Hst.
  rewrite Hrun in Hs, Hst. cbn [fst snd Error_is_NoError] in Hs, Hst.
  set (off := next_ifd_offset (file p0)) in *.
  pose proof Hs as Hs'. unfold same_session, set_next_ifd_offset, set_good in Hs'.
  cbn [file good first_record_offset next_ifd_offset system_byte_order
       file_byte_order size stream] in Hs'.
  destruct Hs' as (Hf & Hn & Hso & Hfo & Hz & Hc & Hg).
  assert (Hb : same_bytes p0 p) by (repeat split; assumption).
  assert (Hfp : first_record_offset (file p) = off) by congruence.
  rewrite Hfp in Hch.
  inversion Hch as [E | off' rest Hpos Hl H16 Hrest E1 E2]; [lia|]. subst off' offs.
  cbn [tl length] in *.
  rewrite <- (ifd_next_same_bytes p0 p off Hb) in Hn.
  assert (Hcur : cursor_at p (off + 2 + 12 * ifd_entry_count host p off + 4)).
  { pose proof (ifd_entry_count_nonneg p off) as Hcn.
    unfold ifd_entry_count in *. rewrite <- (peek_same_bytes p0 p off 2 Hb) in Hst.
    rewrite <- Hc in Hst.
    assert (Hin : off + 2 + 12 * peek host p off 2 + 4 <= len (contents (stream (file p))))
      by lia.
    destruct (istream_read_cursor 4
      (mk_ifstream (contents (stream (file p))) (off + 2 + 12 * peek host p off 2) false)
      eq_refl ltac:(cbn [gptr]; lia) ltac:(lia) Hin) as [G F].
    unfold cursor_at. rewrite Hst. split; assumption. }
  destruct Hcur as [Hgp Hfb].
  repeat split.
  - unfold Reader_count_frames. rewrite Hg. rewrite Hfp.
    assert (Hbp : same_bytes p p) by (repeat split; reflexivity).
    destruct (count_frames_loop_chain p (off :: rest) off Hch (S (length rest)) 0 p
                (le_n _) Hbp ltac:(lia) ltac:(lia)) as [q' Hq'].
    cbn [length] in Hq'. rewrite Hq'. rewrite Z.add_0_l. f_equal. f_equal.
    pose proof (count_frames_loop_moved _ _ _ _ _ Hq') as Hm. cbn [snd] in Hm.
    apply stream_moved_set_stream_eq; [exact Hm|].
    unfold istream.tellg. rewrite Hfb, Hgp.
    pose proof (ifd_entry_count_nonneg p off).
    rewrite seekg_clear by lia.
    symmetry. apply ifstream_ext; try assumption.
    destruct Hm as [(_&_&_&_&_&Hcm&_) _]. congruence.
  - apply (remaining_frames_chain p Hg ltac:(congruence) rest (ifd_next host p off) Hrest Hdec).
    rewrite <- Hn. rewrite set_next_ifd_offset_same. apply same_session_refl.
Qed.

End Frame.

(** ** Sample extraction: buffers *)

Lemma istream_read_length_le n s :
  0 <= n -> len (fst (istream.read n s)) <= n.
Proof.
  intros Hn. unfold istream.read, len. destruct (failbit s); cbn; [lia|].
  rewrite length_firstn. lia.
Qed.

Lemma splice_length l at_ src :
  0 <= at_ -> at_ + len src <= len l -> len (splice l at_ src) = len l.
Proof.
  unfold splice, len. intros H0 H1.
  rewrite !length_app, length_firstn, length_skipn. lia.
Qed.

Lemma read_into_Returned buffer at_ n st :
  0 <= at_ -> 0 <= n -> at_ + n <= len buffer ->
  exists b k st',
    read_into buffer at_ n st = Returned (b, k, st')
    /\ len b = len buffer /\ contents st' = contents st /\ 0 <= k <= n.
Proof.
  intros H0 Hn Hb. unfold read_into.
  pose proof (istream_read_length_le n st Hn) as Hle.
  pose proof (istream_read_contents n st) as Hc.
  destruct (istream.read n st) as [got st']. cbn [fst snd] in *.
  pose proof (len_nonneg got).
  destruct (at_ + len got <=? len buffer) eqn:E; [|lia].
  eexists _, _, _. split; [reflexivity|].
  repeat split; try assumption; try lia. apply splice_length; lia.
Qed.

(** [do_ranges_overlap] on ranges of 32-bit numbers: an answer is the
    intersection, and it is not empty. *)
Lemma do_ranges_overlap_Some dm s e f f' r :
  0 <= s <= e -> e < 2 ^ 32 -> 0 <= f <= f' -> f' < 2 ^ 32 ->
  util.do_ranges_overlap dm (s, e) (f, f') = Some r ->
  r = (Z.max s f, Z.min e f') /\ Z.max s f < Z.min e f'.
Proof.
  intros Hs He Hf Hf'. unfold util.do_ranges_overlap. cbn [fst snd].
  set (w := 2 ^ ulong_bits dm).
  assert (Hw : 2 ^ 32 <= w) by (unfold w; destruct dm; cbn; lia).
  unfold wrap. fold w.
  rewrite (Z.mod_small (Z.max e f' - Z.min s f) w) by lia.
  rewrite (Z.mod_small (e - s) w) by lia.
  rewrite (Z.mod_small (f' - f) w) by lia.
  pose proof (Z.mod_le (e - s + (f' - f)) w ltac:(lia) ltac:(lia)) as Hle.
  destruct (_ <? _) eqn:E; [|discriminate].
  intros H. inversion H. split; [reflexivity|]. lia.
Qed.

Lemma nth_error_skipn_cons {A} (l : list A) : forall i x,
  nth_error l i = Some x -> skipn i l = x :: skipn (S i) l.
Proof.
  induction l as [|a l IH]; intros [|i] x H; cbn in *; try discriminate.
  - inversion H. reflexivity.
  - apply IH. exact H.
Qed.

Lemma nth_error_in_range {A} (l : list A) i :
  0 <= i < len l -> exists x, nth_error l (Z.to_nat i) = Some x.
Proof.
  unfold len. intros H.
  destruct (nth_error l (Z.to_nat i)) eqn:E; [eauto|].
  apply nth_error_None in E. lia.
Qed.

Lemma Forall_nth_error {A} (P : A -> Prop) l i x :
  Forall P l -> nth_error l i = Some x -> P x.
Proof.
  intros HF Hn. rewrite Forall_forall in HF. apply HF. eapply nth_error_In; eauto.
Qed.

Lemma total_nonneg l : Forall (fun n => 0 <= n) l -> 0 <= total l.
Proof.
  induction 1 as [|x l Hx Hl IH]; cbn [total fold_right]; [lia|].
  fold (total l). lia.
Qed.

Lemma Forall_skipn {A} (P : A -> Prop) l : forall i, Forall P l -> Forall P (skipn i l).
Proof.
  intros i H. rewrite Forall_forall in *. intros x Hx. apply H.
  rewrite <- (firstn_skipn i l). apply in_or_app. right. exact Hx.
Qed.

Lemma u32_small x : 0 <= x < 2 ^ 32 -> u32 x = x.
Proof. intros H. unfold u32, wrap. apply Z.mod_small. exact H. Qed.

(** The strip loop of the planar case returns, with a buffer of the same
    size and the same file behind the stream, whenever the sample window
    and the running sum of the strip sizes stay below [2 ^ 32]: the output
    cursor never passes the part of the window the strips seen so far
    cover. *)
Lemma planar_strips_Returned dm fr s e :
  0 <= s <= e -> e < 2 ^ 32 ->
  Forall (fun n => 0 <= n) (strip_byte_counts fr) ->
  forall n strip f out buffer st err,
    0 <= strip ->
    strip + Z.of_nat n <= len (strip_offsets fr) ->
    strip + Z.of_nat n <= len (strip_byte_counts fr) ->
    0 <= f ->
    f + total (skipn (Z.to_nat strip) (strip_byte_counts fr)) < 2 ^ 32 ->
    len buffer = e - s ->
    0 <= out <= Z.max 0 (Z.min f e - s) ->
    exists b st' err',
      planar_strips dm n fr s e strip f out buffer st err = Returned (b, st', err')
      /\ len b = len buffer /\ contents st' = contents st.
Proof.
  intros Hs He Hnn. induction n as [|n IH];
    intros strip f out buffer st err H0 Ho Hc Hf Hsum Hlen Hout.
  - cbn. eauto 6.
  - cbn [planar_strips].
    destruct (nth_error_in_range (strip_byte_counts fr) strip ltac:(lia)) as [c Ec].
    destruct (nth_error_in_range (strip_offsets fr) strip ltac:(lia)) as [o Eo].
    unfold vec_at. rewrite Ec, Eo. cbn [obind].
    pose proof (Forall_nth_error _ _ _ _ Hnn Ec) as Hc0. cbn beta in Hc0.
    rewrite (nth_error_skipn_cons _ _ _ Ec) in Hsum. cbn [total fold_right] in Hsum.
    fold (total (skipn (S (Z.to_nat strip)) (strip_byte_counts fr))) in Hsum.
    pose proof (total_nonneg _ (Forall_skipn _ _ (S (Z.to_nat strip)) Hnn)) as Ht.
    rewrite (u32_small (f + c)) by lia.
    assert (Hnext : f + c + total (skipn (Z.to_nat (strip + 1)) (strip_byte_counts fr)) < 2 ^ 32).
    { replace (Z.to_nat (strip + 1)) with (S (Z.to_nat strip)) by lia. lia. }
    destruct (util.do_ranges_overlap dm (s, e) (f, f + c)) as [r|] eqn:Er.
    + destruct (do_ranges_overlap_Some dm s e f (f + c) r Hs He ltac:(lia) ltac:(lia) Er)
        as [-> Hlt].
      cbn [fst snd].
      assert (Hw : 2 ^ 32 <= 2 ^ ulong_bits dm) by (destruct dm; cbn; lia).
      assert (Hcnt : u32 (wrap (ulong_bits dm) (Z.min e (f + c) - Z.max s f))
                     = Z.min e (f + c) - Z.max s f).
      { unfold wrap. rewrite Z.mod_small by lia. apply u32_small. lia. }
      rewrite Hcnt.
      set (cnt := Z.min e (f + c) - Z.max s f) in *.
      match goal with |- context [read_into buffer out cnt ?x] => set (st1 := x) end.
      destruct (read_into_Returned buffer out cnt st1 ltac:(lia) ltac:(lia) ltac:(lia))
        as (b & k & st2 & Hr & Hlb & Hcs & Hk).
      rewrite Hr. cbn [obind].
      rewrite (u32_small (out + cnt)) by lia.
      destruct (IH (strip + 1) (f + c) (out + cnt) b st2
                  (if k =? cnt then err else StripDataLost))
        as (b' & st' & err' & Hrec & Hlb' & Hcs'); try lia.
      exists b', st', err'. split; [exact Hrec|]. split; [lia|].
      rewrite Hcs', Hcs. unfold st1. rewrite istream_seekg_contents. reflexivity.
    + destruct (e <? f); [eauto 6|].
      destruct (IH (strip + 1) (f + c) out buffer st err)
        as (b' & st' & err' & Hrec & Hlb' & Hcs'); try lia.
      eauto 6.
Qed.

(** ** Sample extraction: the stream *)

Lemma obind_Returned {A B} (m : outcome A) (k : A -> outcome B) b :
  obind m k = Returned b -> exists a, m = Returned a /\ k a = Returned b.
Proof. destruct m; cbn; intros H; try discriminate. eauto. Qed.

Lemma read_into_contents buffer at_ n st b k st' :
  read_into buffer at_ n st = Returned (b, k, st') -> contents st' = contents st.
Proof.
  unfold read_into. pose proof (istream_read_contents n st) as Hc.
  destruct (istream.read n st) as [got st2]. destruct (_ <=? _); [|discriminate].
  intros H. inversion H; subst. exact Hc.
Qed.

Lemma planar_strips_contents dm fr s e n :
  forall strip f out buffer st err b st' err',
    planar_strips dm n fr s e strip f out buffer st err = Returned (b, st', err') ->
    contents st' = contents st.
Proof.
  induction n as [|n IH]; intros strip f out buffer st err b st' err' H.
  - cbn in H. inversion H. reflexivity.
  - cbn [planar_strips] in H.
    apply obind_Returned in H. destruct H as (c & _ & H).
    apply obind_Returned in H. destruct H as (o & _ & H).
    destruct (util.do_ranges_overlap _ _ _) as [r|].
    + apply obind_Returned in H. destruct H as ([[b1 k] st2] & Hr & H).
      apply read_into_contents in Hr. apply IH in H.
      rewrite H, Hr, istream_seekg_contents. reflexivity.
    + destruct (e <? f).
      * inversion H. reflexivity.
      * apply IH in H. exact H.
Qed.

Lemma chunky_strips_contents fr sample n :
  forall strip f out last stripdata buffer st err b st' err',
    chunky_strips n fr sample strip f out last stripdata buffer st err
      = Returned (b, st', err') ->
    contents st' = contents st.
Proof.
  induction n as [|n IH]; intros strip f out last stripdata buffer st err b st' err' H.
  - cbn in H. inversion H. reflexivity.
  - cbn [chunky_strips] in H.
    apply obind_Returned in H. destruct H as (c & _ & H).
    apply obind_Returned in H. destruct H as (o & _ & H).
    cbv zeta in H.
    pose proof (istream_read_contents c (istream.seekg o (istream.clear st))) as Hc.
    destruct (istream.read c _) as [got st2]. cbn [snd] in Hc.
    apply obind_Returned in H. destruct H as ([[b1 o1] f1] & _ & H).
    apply IH in H. rewrite H, Hc, istream_seekg_contents. reflexivity.
Qed.

Lemma fill_buffer_contents host dm sample err p b st e :
  fill_buffer host dm sample err p = Returned (b, st, e) ->
  contents st = contents (stream (file p)).
Proof.
  unfold fill_buffer. cbv zeta.
  destruct (_ && _ && _).
  - destruct (_ || _).
    + apply planar_strips_contents.
    + intros H. inversion H. reflexivity.
  - destruct (_ && _).
    + intros H. apply obind_Returned in H. destruct H as ([[b1 st1] e1] & Hc & H).
      apply chunky_strips_contents in Hc.
      apply obind_Returned in H. destruct H as (b2 & _ & H).
      inversion H; subst. exact Hc.
    + intros H. inversion H. reflexivity.
Qed.

(** Putting the cursor back: [clear()] then [seekg(pos)] with the [pos]
    that [tellg()] gave on entry. *)
Lemma restore_cursor st st' :
  contents st' = contents st -> 0 <= gptr st ->
  let r := istream.seekg (istream.tellg st) (istream.clear st') in
  contents r = contents st
  /\ istream.tellg r = istream.tellg st
  /\ (failbit st = false -> r = st).
Proof.
  intros Hc Hg. cbv zeta. unfold istream.tellg, istream.seekg, istream.clear.
  cbn [failbit contents gptr].
  destruct st as [c g [|]]; cbn in *.
  - repeat split; try assumption. discriminate.
  - destruct (g <? 0) eqn:E; [lia|]. cbn. repeat split; try assumption.
    intros _. f_equal. exact Hc.
Qed.

Lemma get_sample_data_internal_stream host dm sample err p res e p' :
  stream_wf p ->
  get_sample_data_internal host dm sample err p = Returned (res, e, p') ->
  stream_moved p p'
  /\ istream.tellg (stream (file p')) = istream.tellg (stream (file p))
  /\ (failbit (stream (file p)) = false -> p' = p).
Proof.
  intros Hwf. unfold get_sample_data_internal. cbv zeta.
  destruct (precondition_error _).
  - intros H. inversion H; subst. split; [apply stream_moved_refl|]. split; reflexivity.
  - intros H. apply obind_Returned in H. destruct H as ([[b st] e1] & Hf & H).
    apply fill_buffer_contents in Hf.
    apply obind_Returned in H. destruct H as (r & _ & H).
    inversion H; subst.
    destruct (restore_cursor (stream (file p)) st Hf Hwf) as (Hc & Ht & He).
    cbv zeta in Hc, Ht, He.
    assert (Hm : stream_moved p
              (set_stream (istream.seekg (istream.tellg (stream (file p)))
                             (istream.clear st)) p))
      by (apply stream_moved_set_stream; exact Hc).
    split; [exact Hm|]. split; [exact Ht|].
    intros Hg. apply stream_moved_eq; [exact Hm| |]; change (stream (file (set_stream ?s ?x))) with s; rewrite (He Hg); reflexivity.
Qed.

Lemma count_frames_stream host fuel p n p' :
  stream_wf p ->
  Reader_count_frames host fuel p = Some (n, p') ->
  stream_moved p p'
  /\ istream.tellg (stream (file p')) = istream.tellg (stream (file p))
  /\ (failbit (stream (file p)) = false -> p' = p).
Proof.
  intros Hwf. unfold Reader_count_frames. destruct (good p).
  - destruct (count_frames_loop host fuel _ 0 p) as [[frames q]|] eqn:E; [|discriminate].
    intros H. inversion H; subst. clear H.
    pose proof (count_frames_loop_moved host _ _ _ _ _ E) as Hm. cbn [snd] in Hm.
    assert (Hcq : contents (stream (file q)) = contents (stream (file p))) by apply Hm.
    destruct (restore_cursor (stream (file p)) (stream (file q)) Hcq Hwf) as (Hc & Ht & He).
    cbv zeta in Hc, Ht, He.
    assert (Hm' : stream_moved p
              (set_stream (istream.seekg (istream.tellg (stream (file p)))
                             (istream.clear (stream (file q)))) q)).
    { eapply stream_moved_trans; [exact Hm|]. apply stream_moved_set_stream.
      rewrite Hc. symmetry. exact Hcq. }
    split; [exact Hm'|]. split; [exact Ht|].
    intros Hg. apply stream_moved_eq; [exact Hm'| |]; change (stream (file (set_stream ?s ?x))) with s; rewrite (He Hg); reflexivity.
  - intros H. inversion H; subst. split; [apply stream_moved_refl|]. split; reflexivity.
Qed.

(** ** Sample extraction: the values *)

Lemma le_value_zeros n : le_value (zeros n) = 0.
Proof. induction n as [|n IH]; cbn; [reflexivity|]. fold (zeros n). rewrite IH. reflexivity. Qed.

Lemma rev_zeros n : rev (zeros n) = zeros n.
Proof.
  unfold zeros. induction n as [|n IH]; cbn; [reflexivity|].
  rewrite IH. symmetry. apply (repeat_cons n x00).
Qed.

Lemma load_zeros host n : load host (zeros n) = 0.
Proof. destruct host; cbn; rewrite ?rev_zeros; apply le_value_zeros. Qed.

Lemma firstn_zeros k n : firstn k (zeros n) = zeros (Nat.min k n).
Proof.
  unfold zeros. revert n. induction k as [|k IH]; intros [|n]; cbn; try reflexivity.
  rewrite IH. reflexivity.
Qed.

Lemma skipn_zeros k n : skipn k (zeros n) = zeros (n - k).
Proof.
  unfold zeros. revert n. induction k as [|k IH]; intros [|n]; cbn; try reflexivity.
  apply IH.
Qed.

Lemma zeros_app a b : zeros a ++ zeros b = zeros (a + b).
Proof. unfold zeros. symmetry. apply repeat_app. Qed.

Lemma splice_zeros n a k :
  0 <= a -> (Z.to_nat a + k <= n)%nat -> splice (zeros n) a (zeros k) = zeros n.
Proof.
  intros Ha H. unfold splice.
  assert (Hl : length (zeros k) = k) by apply repeat_length.
  rewrite Hl, firstn_zeros, skipn_zeros, !zeros_app. f_equal. lia.
Qed.

Lemma le_bytes_zero n : le_bytes n 0 = zeros n.
Proof. induction n as [|n IH]; cbn; [reflexivity|]. rewrite IH. reflexivity. Qed.

Lemma store_zero host n : store host n 0 = zeros n.
Proof. destruct host; cbn; rewrite le_bytes_zero, ?rev_zeros; reflexivity. Qed.

Lemma element_Returned host k buffer i :
  (i + 1) * k <= len buffer ->
  element host k buffer i
  = Returned (load host (firstn (Z.to_nat k) (skipn (Z.to_nat (i * k)) buffer))).
Proof.
  intros H. unfold element. destruct (_ <=? _) eqn:E; [reflexivity|lia].
Qed.

Lemma element_zeros host k n i :
  0 <= i -> 0 <= k -> (i + 1) * k <= Z.of_nat n ->
  element host k (zeros n) i = Returned 0.
Proof.
  intros Hi Hk H. rewrite element_Returned by (unfold len, zeros; rewrite repeat_length; lia).
  rewrite skipn_zeros, firstn_zeros, load_zeros. reflexivity.
Qed.

(** Swapping a buffer of zero bytes leaves it as it is. *)
Lemma swap_elements_zeros host k N n : forall x,
  k = 2 \/ k = 4 \/ k = 8 ->
  0 <= x -> (x + Z.of_nat n) * k <= Z.of_nat N ->
  swap_elements host n k (zeros N) x = Returned (zeros N).
Proof.
  induction n as [|n IH]; intros x Hk Hx Hb; [reflexivity|].
  cbn [swap_elements]. rewrite element_zeros by nia. cbn [obind].
  assert (Hs : util.byte_swap k 0 = 0) by (destruct Hk as [->|[->| ->]]; reflexivity).
  rewrite Hs, store_zero, splice_zeros by nia.
  apply IH; try assumption; nia.
Qed.

Lemma sample_value_Returned host bps buffer i :
  bps = 8 \/ bps = 16 \/ bps = 32 \/ bps = 64 ->
  0 <= i -> (i + 1) * (bps / 8) <= len buffer ->
  exists t, sample_value host bps buffer i = Returned t
            /\ variant_width t = bps
            /\ (forall N, buffer = zeros N -> variant_value t = 0).
Proof.
  intros Hb Hi Hl. unfold sample_value.
  destruct Hb as [->|[->|[->| ->]]]; cbn [Z.eqb Pos.eqb];
    match type of Hl with context [?b / 8] =>
      let v := eval cbv in (b / 8) in change (b / 8) with v in Hl end;
    rewrite element_Returned by exact Hl; cbn [obind];
    (eexists; split; [reflexivity|]; split; [reflexivity|]);
    intros N ->; cbn [variant_value];
    rewrite skipn_zeros, firstn_zeros; apply load_zeros.
Qed.

(** The final loop returns one value per pixel, each of the width
    [bits_per_sample] selects, as soon as the buffer holds them all. *)
Lemma materialize_Returned host bps buffer :
  bps = 8 \/ bps = 16 \/ bps = 32 \/ bps = 64 ->
  forall n i result,
    0 <= i -> (i + Z.of_nat n) * (bps / 8) <= len buffer ->
    exists res,
      materialize host n bps buffer i result = Returned (result ++ res)
      /\ length res = n
      /\ Forall (fun t => variant_width t = bps) res
      /\ (forall N, buffer = zeros N -> Forall (fun t => variant_value t = 0) res).
Proof.
  intros Hb. induction n as [|n IH]; intros i result Hi Hl.
  - exists []. cbn. rewrite app_nil_r. repeat split; constructor.
  - cbn [materialize].
    assert (Hk : 0 < bps / 8) by (destruct Hb as [->|[->|[->| ->]]]; reflexivity).
    destruct (sample_value_Returned host bps buffer i Hb Hi ltac:(nia))
      as (t & Ht & Hw & Hz).
    rewrite Ht. cbn [obind].
    destruct (IH (i + 1) (result ++ [t]) ltac:(lia) ltac:(nia))
      as (res & Hr & Hn & Hws & Hzs).
    exists (t :: res). rewrite Hr, <- app_assoc. cbn [app length].
    split; [reflexivity|]. split; [congruence|]. split.
    + constructor; assumption.
    + intros N HN. constructor; eauto.
Qed.

Lemma precondition_error_None fr :
  precondition_error fr = None ->
  width fr <> 0 /\ height fr <> 0
  /\ (bits_per_sample fr = 8 \/ bits_per_sample fr = 16
      \/ bits_per_sample fr = 32 \/ bits_per_sample fr = 64).
Proof.
  unfold precondition_error.
  destruct (negb (compression fr =? _)); [discriminate|].
  destruct (is_tiled fr); [discriminate|].
  destruct (negb (orientation fr =? _)); [discriminate|].
  destruct (photometric_interpertation fr =? _); [discriminate|].
  destruct (width fr =? 0) eqn:Ew; [discriminate|].
  destruct (height fr =? 0) eqn:Eh; [discriminate|]. cbn [orb].
  cbv zeta.
  destruct (bits_per_sample fr =? 8) eqn:E8; [intros _; repeat split; lia|].
  destruct (bits_per_sample fr =? 16) eqn:E16; [intros _; repeat split; lia|].
  destruct (bits_per_sample fr =? 32) eqn:E32; [intros _; repeat split; lia|].
  destruct (bits_per_sample fr =? 64) eqn:E64; [intros _; repeat split; lia|].
  discriminate.
Qed.

Lemma bps_bytes bps :
  bps = 8 \/ bps = 16 \/ bps = 32 \/ bps = 64 ->
  bps = bps / 8 * 8 /\ 0 < bps / 8.
Proof. intros [->|[->|[->| ->]]]; split; reflexivity. Qed.

Lemma len_zeros n : len (zeros n) = Z.of_nat n.
Proof. unfold len, zeros. rewrite repeat_length. reflexivity. Qed.

Lemma nonempty_len {A} (l : list A) : 0 < len l -> nonempty l = true.
Proof. destruct l; unfold len; cbn; [lia|reflexivity]. Qed.

(** Filling the buffer returns, with a buffer of [sample_image_size_bytes]
    bytes, for a frame whose strip table fits; without strips the buffer
    stays as [resize] made it. *)
Lemma fill_buffer_Returned host dm sample err p :
  let fr := current_frame (file p) in
  let bytes := width fr * height fr * (bits_per_sample fr / 8) in
  (bits_per_sample fr = 8 \/ bits_per_sample fr = 16
   \/ bits_per_sample fr = 32 \/ bits_per_sample fr = 64) ->
  0 <= width fr -> 0 <= height fr ->
  width fr * height fr * bits_per_sample fr < 2 ^ 32 ->
  0 <= sample -> (sample + 1) * bytes < 2 ^ 32 ->
  strip_table_fits fr ->
  exists b st e,
    fill_buffer host dm sample err p = Returned (b, st, e)
    /\ len b = bytes
    /\ (strip_count fr = 0 -> b = zeros (Z.to_nat bytes)).
Proof.
  intros fr bytes Hb Hw Hh Hfit Hs Hwin (Hc0 & Hco & Hcc & Hnn & Htot).
  unfold fill_buffer. fold fr. cbv zeta.
  destruct (bps_bytes _ Hb) as [Hk8 Hkpos].
  assert (Hbytes : u32 (width fr * height fr * bits_per_sample fr) / 8 = bytes).
  { rewrite u32_small by nia. unfold bytes.
    set (k := bits_per_sample fr / 8) in *.
    replace (width fr * height fr * bits_per_sample fr) with (width fr * height fr * k * 8)
      by (rewrite Hk8; ring).
    apply Z.div_mul. lia. }
  rewrite Hbytes.
  assert (Hb0 : 0 <= bytes) by (unfold bytes; nia).
  fold (zeros (Z.to_nat bytes)).
  assert (Hlz : len (zeros (Z.to_nat bytes)) = bytes) by (rewrite len_zeros; lia).
  destruct (0 <? strip_count fr) eqn:Esc.
  - rewrite !nonempty_len by lia. cbn [andb].
    destruct (_ || _).
    + rewrite (u32_small (sample * bytes)) by nia.
      rewrite (u32_small (sample * bytes + bytes)) by nia.
      destruct (planar_strips_Returned dm fr (sample * bytes) (sample * bytes + bytes)
                  ltac:(nia) ltac:(nia) Hnn (Z.to_nat (strip_count fr)) 0 0 0
                  (zeros (Z.to_nat bytes)) (stream (file p)) err
                  ltac:(lia) ltac:(lia) ltac:(lia) ltac:(lia)
                  ltac:(cbn [Z.to_nat skipn]; lia) ltac:(lia) ltac:(lia))
        as (b & st & e & Hr & Hl & _).
      exists b, st, e. split; [exact Hr|]. split; [lia|]. intros; lia.
    + eexists _, _, _. split; [reflexivity|]. split; [exact Hlz|]. reflexivity.
  - cbn [andb].
    assert (Hsc : strip_count fr = 0) by lia. rewrite Hsc. cbn [Z.to_nat].
    destruct (_ && _).
    + cbn [chunky_strips obind].
      assert (Hsw : forall k, k = 2 \/ k = 4 \/ k = 8 -> k = bits_per_sample fr / 8 ->
                swap_elements host (Z.to_nat (u32 (width fr * height fr))) k
                  (zeros (Z.to_nat bytes)) 0 = Returned (zeros (Z.to_nat bytes))).
      { intros k Hk Hkb. apply swap_elements_zeros; [exact Hk|lia|].
        rewrite u32_small by nia. unfold bytes. rewrite <- Hkb. nia. }
      destruct (orders_differ p).
      * destruct Hb as [E|[E|[E|E]]]; rewrite E in *; cbn [Z.eqb Pos.eqb];
          rewrite ?Hsw by (auto; reflexivity); cbn [obind];
          (eexists _, _, _; split; [reflexivity|]; split; [exact Hlz|]; reflexivity).
      * cbn [obind]. eexists _, _, _. split; [reflexivity|]. split; [exact Hlz|]. reflexivity.
    + eexists _, _, _. split; [reflexivity|]. split; [exact Hlz|]. reflexivity.
Qed.

(** C9, as amended.  When the six checks pass, [width * height *
    bits_per_sample] is below [2 ^ 32], the byte window of the requested
    sample ends below [2 ^ 32] and the strip table covers [strip_count]
    strips whose sizes add up below [2 ^ 32], [get_sample_data] returns
    [NoError] with exactly [width * height] values, each of the storage
    width [bits_per_sample] selects; without strips every value is zero. *)
Theorem get_sample_data_every_pixel host dm sample err p :
  let fr := current_frame (file p) in
  good p = true ->
  precondition_error fr = None ->
  0 <= width fr -> 0 <= height fr ->
  width fr * height fr * bits_per_sample fr < 2 ^ 32 ->
  0 <= sample ->
  (sample + 1) * (width fr * height fr * (bits_per_sample fr / 8)) < 2 ^ 32 ->
  strip_table_fits fr ->
  exists res p',
    Reader_get_sample_data host dm sample err p = Returned (res, NoError, p')
    /\ len res = width fr * height fr
    /\ Forall (fun t => variant_width t = bits_per_sample fr) res
    /\ (strip_count fr = 0 -> Forall (fun t => variant_value t = 0) res).
Proof.
  intros fr Hgood Hpre Hw Hh Hfit Hs Hwin Htab.
  destruct (precondition_error_None fr Hpre) as (Hw0 & Hh0 & Hb).
  unfold Reader_get_sample_data. rewrite Hgood.
  unfold get_sample_data_internal. fold fr. rewrite Hpre. cbv zeta.
  destruct (fill_buffer_Returned host dm sample err p Hb Hw Hh Hfit Hs Hwin Htab)
    as (b & st & e & Hfill & Hlen & Hzero).
  fold fr in Hlen, Hzero. rewrite Hfill. cbn [obind].
  destruct (bps_bytes _ Hb) as [Hk8 Hkpos].
  assert (Hpix : u32 (width fr * height fr) = width fr * height fr)
    by (apply u32_small; nia).
  rewrite Hpix.
  destruct (materialize_Returned host (bits_per_sample fr) b Hb
              (Z.to_nat (width fr * height fr)) 0 [] ltac:(lia))
    as (res & Hres & Hn & Hwd & Hz).
  { rewrite Hlen. rewrite Z2Nat.id by nia. lia. }
  rewrite Hres. cbn [app obind].
  eexists res, _. split; [reflexivity|]. split; [unfold len; rewrite Hn; nia|].
  split; [exact Hwd|]. intros Hsc. eapply Hz. apply Hzero. exact Hsc.
Qed.

(** ** The planar path on two strips *)

Lemma seek_target_aligned dm o :
  0 <= o < 2 ^ 32 ->
  to_streamoff (wrap (ulong_bits dm) (o + wrap (ulong_bits dm) 0)) = o.
Proof.
  intros Ho. unfold wrap, to_streamoff.
  assert (Hw : 2 ^ 32 <= 2 ^ ulong_bits dm <= 2 ^ 64) by (destruct dm; cbn; lia).
  rewrite (Z.mod_small 0) by lia. rewrite Z.add_0_r, Z.mod_small by lia.
  destruct (o <? 2 ^ 63) eqn:E; lia.
Qed.

Lemma overlap_first_strip dm :
  util.do_ranges_overlap dm (0, 100) (0, 50) = Some (0, 50).
Proof. destruct dm; reflexivity. Qed.

Lemma overlap_second_strip dm :
  util.do_ranges_overlap dm (0, 100) (50, 100) = Some (50, 100).
Proof. destruct dm; reflexivity. Qed.

Lemma read_into_fits buffer at_ n st :
  0 <= at_ -> 0 <= n -> at_ + n <= len buffer ->
  read_into buffer at_ n st =
  Returned (splice buffer at_ (fst (istream.read n st)),
            len (fst (istream.read n st)), snd (istream.read n st)).
Proof.
  intros H0 Hn Hb. unfold read_into.
  pose proof (istream_read_length_le n st Hn) as Hle.
  destruct (istream.read n st) as [got st']. cbn [fst snd] in *.
  destruct (_ <=? _) eqn:E; [reflexivity|lia].
Qed.

Lemma slice_read n st :
  failbit st = false -> 0 <= gptr st -> 0 <= n -> gptr st + n <= len (contents st) ->
  fst (istream.read n st) = firstn (Z.to_nat n) (skipn (Z.to_nat (gptr st)) (contents st)).
Proof. intros Hf _ _ _. unfold istream.read. rewrite Hf. reflexivity. Qed.

(** C3.  For a sample window [0, 100) over two strips whose logical spans
    are [0, 50) and [50, 100), the planar path makes two reads of exactly 50
    bytes, after seeking to [strip offset + (intersection start - strip
    start)], that is [o1 + (0 - 0)] and [o2 + (50 - 50)], and stores them at
    output offsets 0 and 50; when the file holds both strips the buffer is
    the first strip followed by the second, with no gap and no overlap. *)
Theorem planar_window_two_strips host dm err p o1 o2 :
  let fr := current_frame (file p) in
  let st := stream (file p) in
  strip_count fr = 2 ->
  strip_byte_counts fr = [50; 50] ->
  strip_offsets fr = [o1; o2] ->
  0 <= o1 < 2 ^ 32 -> 0 <= o2 < 2 ^ 32 ->
  u32 (width fr * height fr * bits_per_sample fr) / 8 = 100 ->
  samples_per_pixel fr = 1 \/ planar_config fr = PlanarConfiguration.Planar ->
  let r1 := istream.read 50 (istream.seekg (o1 + (0 - 0)) (istream.clear st)) in
  let r2 := istream.read 50 (istream.seekg (o2 + (50 - 50)) (istream.clear (snd r1))) in
  fill_buffer host dm 0 err p =
    Returned (splice (splice (zeros 100) 0 (fst r1)) 50 (fst r2), snd r2,
              if len (fst r2) =? 50
              then (if len (fst r1) =? 50 then err else StripDataLost)
              else StripDataLost)
  /\ (o1 + 50 <= len (contents st) -> o2 + 50 <= len (contents st) ->
      splice (splice (zeros 100) 0 (fst r1)) 50 (fst r2)
      = firstn 50 (skipn (Z.to_nat o1) (contents st))
        ++ firstn 50 (skipn (Z.to_nat o2) (contents st))).
Proof.
  intros fr st Hsc Hbc Hso Ho1 Ho2 Hsz Hlayout.
  replace (o1 + (0 - 0)) with o1 by lia. replace (o2 + (50 - 50)) with o2 by lia.
  intros r1 r2.
  assert (Hl1 : len (fst r1) <= 50) by (apply istream_read_length_le; lia).
  assert (Hl2 : len (fst r2) <= 50) by (apply istream_read_length_le; lia).
  pose proof (len_nonneg (fst r1)) as Hn1. pose proof (len_nonneg (fst r2)) as Hn2.
  split.
  - unfold fill_buffer. fold fr st. cbv zeta. rewrite Hsz, Hsc, Hbc, Hso.
    change (0 <? 2) with true. cbn [nonempty andb].
    replace ((samples_per_pixel fr =? 1) || (planar_config fr =? PlanarConfiguration.Planar))
      with true by (symmetry; apply orb_true_iff; destruct Hlayout; [left|right]; lia).
    change (Z.to_nat 2) with 2%nat. change (Z.to_nat 100) with 100%nat.
    fold (zeros 100).
    change (u32 (0 * 100)) with 0. change (u32 (0 + 100)) with 100.
    cbn [planar_strips]. rewrite Hbc, Hso. unfold vec_at.
    change (Z.to_nat 0) with 0%nat. change (Z.to_nat (0 + 1)) with 1%nat.
    cbn [nth_error obind].
    change (u32 (0 + 50)) with 50. change (u32 (50 + 50)) with 100.
    rewrite overlap_first_strip. cbn [fst snd].
    change (50 - 0) with 50. change (0 - 0) with 0.
    rewrite seek_target_aligned by lia.
    assert (Hw : wrap (ulong_bits dm) 50 = 50) by (destruct dm; reflexivity).
    rewrite Hw. change (u32 50) with 50.
    rewrite read_into_fits by (rewrite ?len_zeros; lia). cbn [obind].
    rewrite overlap_second_strip. cbn [fst snd].
    change (100 - 50) with 50. change (50 - 50) with 0.
    rewrite seek_target_aligned by lia. rewrite Hw. change (u32 50) with 50.
    change (u32 (0 + 50)) with 50.
    fold st. fold r1.
    rewrite read_into_fits by (rewrite ?splice_length; rewrite ?len_zeros; lia).
    fold r2. cbn [obind]. reflexivity.
  - intros Hb1 Hb2.
    assert (Hc1 : contents (snd r1) = contents st).
    { unfold r1. rewrite istream_read_contents, istream_seekg_contents. reflexivity. }
    assert (E1 : fst r1 = firstn 50 (skipn (Z.to_nat o1) (contents st))).
    { unfold r1. rewrite seekg_clear by lia.
      rewrite slice_read; cbn [failbit gptr contents]; try lia; reflexivity. }
    assert (E2 : fst r2 = firstn 50 (skipn (Z.to_nat o2) (contents st))).
    { unfold r2. rewrite seekg_clear by lia.
      rewrite slice_read; cbn [failbit gptr contents]; rewrite ?Hc1; try lia; reflexivity. }
    assert (L1 : length (fst r1) = 50%nat).
    { rewrite E1, length_firstn, length_skipn. unfold len in Hb1. lia. }
    assert (L2 : length (fst r2) = 50%nat).
    { rewrite E2, length_firstn, length_skipn. unfold len in Hb2. lia. }
    rewrite <- E1, <- E2.
    unfold splice. rewrite L1, L2.
    change (Z.to_nat 0) with 0%nat. change (Z.to_nat 50) with 50%nat.
    change (firstn 0 (zeros 100)) with (@nil byte). rewrite app_nil_l.
    change (0 + 50)%nat with 50%nat. change (50 + 50)%nat with 100%nat.
    rewrite skipn_zeros. change (100 - 50)%nat with 50%nat.
    rewrite firstn_app, L1. change (50 - 50)%nat with 0%nat.
    change (firstn 0 (zeros 50)) with (@nil byte).
    rewrite app_nil_r, firstn_all2 by lia.
    rewrite skipn_all2; [rewrite app_nil_r; reflexivity|].
    rewrite length_app, L1. unfold zeros. rewrite repeat_length. lia.
Qed.

(** ** The stream cursor across the public operations *)

Lemma out_of_line_not_empty type count :
  out_of_line type count = true -> empty_byte_entry type count = false.
Proof.
  unfold out_of_line, empty_byte_entry, DataType.Byte, DataType.ASCII,
    DataType.Short, DataType.Long, DataType.Rational.
  destruct (type =? 1) eqn:E1; destruct (type =? 2) eqn:E2; cbn [orb andb];
    try (destruct (4 <? count) eqn:E4; destruct (0 <? count) eqn:E0; cbn;
         solve [reflexivity | lia | intros; lia
               | destruct (type =? 3) eqn:E3; destruct (type =? 4) eqn:E5;
                 destruct (type =? 5) eqn:E6; cbn; intros; lia]).
  all: intros _; reflexivity.
Qed.

Ltac split_test :=
  match goal with
  | |- context [?a =? ?b] => destruct (a =? b) eqn:?
  | |- context [?a <? ?b] => destruct (a <? b) eqn:?
  | |- context [?a <=? ?b] => destruct (a <=? b) eqn:?
  end; try (exfalso; lia); cbn [andb orb negb].

(** [pos_changed] is set exactly on those entries. *)
Lemma read_ifd_values_pos_changed host type count p :
  snd (fst (read_ifd_values host type count p)) = out_of_line type count.
Proof.
  unfold read_ifd_values, out_of_line, DataType.Byte, DataType.ASCII, DataType.Short,
    DataType.Long, DataType.Rational. cbv zeta.
  repeat split_test;
    rewrite ?bind_run; cbv beta;
    try match goal with
      | |- context [if ?b then _ else _] => destruct b
      end;
    rewrite ?bind_run; cbn [ret fst snd]; reflexivity.
Qed.

Lemma read_next_frame_cursor host p :
  let off := next_ifd_offset (file p) in
  0 < off -> off + 2 < size (file p) ->
  off + 2 + 12 * ifd_entry_count host p off + 4 <= len (contents (stream (file p))) ->
  stream (file (snd (read_next_frame host p)))
  = mk_ifstream (contents (stream (file p)))
      (off + 2 + 12 * ifd_entry_count host p off + 4) false.
Proof.
  intros off H0 H2 Hl.
  pose proof (read_next_frame_spec host p H0 H2) as [_ Hst]. cbv zeta in Hst.
  fold off in Hst. rewrite Hst.
  pose proof (ifd_entry_count_nonneg host p off) as Hc.
  destruct (istream_read_cursor 4
    (mk_ifstream (contents (stream (file p))) (off + 2 + 12 * ifd_entry_count host p off) false)
    eq_refl ltac:(cbn [gptr]; lia) ltac:(lia) Hl) as [G F].
  apply ifstream_ext; [rewrite istream_read_contents; reflexivity | exact G | exact F].
Qed.

(** C7.  The operations that move the stream for their own purposes put it
    back.  [count_frames] and [get_sample_data] return with [tellg()] as it
    was on entry and, when the stream was healthy, with the whole reader
    unchanged.  [read_ifd], on an entry inside the file whose values are
    kept out of line, returns twelve bytes past the start of the entry.
    [read_next_frame], on a directory inside the file, returns right after
    the trailing offset of that directory, wherever decoding the entries
    took the stream. *)
Theorem stream_cursor_discipline host dm p :
  stream_wf p ->
  (forall fuel n p',
      Reader_count_frames host fuel p = Some (n, p') ->
      istream.tellg (stream (file p')) = istream.tellg (stream (file p))
      /\ (failbit (stream (file p)) = false -> p' = p))
  /\ (forall sample err res e p',
      Reader_get_sample_data host dm sample err p = Returned (res, e, p') ->
      istream.tellg (stream (file p')) = istream.tellg (stream (file p))
      /\ (failbit (stream (file p)) = false -> p' = p))
  /\ (forall g,
      cursor_at p g -> g + 12 <= len (contents (stream (file p))) ->
      out_of_line (type (fst (read_ifd host p))) (count (fst (read_ifd host p))) = true ->
      stream (file (snd (read_ifd host p)))
      = mk_ifstream (contents (stream (file p))) (g + 12) false)
  /\ (0 < next_ifd_offset (file p) ->
      next_ifd_offset (file p) + 2 < size (file p) ->
      next_ifd_offset (file p) + 2
        + 12 * ifd_entry_count host p (next_ifd_offset (file p)) + 4
        <= len (contents (stream (file p))) ->
      stream (file (snd (read_next_frame host p)))
      = mk_ifstream (contents (stream (file p)))
          (next_ifd_offset (file p) + 2
           + 12 * ifd_entry_count host p (next_ifd_offset (file p)) + 4) false).
Proof.
  intros Hwf. split; [|split; [|split]].
  - intros fuel n p' H. apply (count_frames_stream host fuel p n p' Hwf) in H. tauto.
  - intros sample err res e p'. unfold Reader_get_sample_data.
    destruct (good p).
    + intros H. apply (get_sample_data_internal_stream _ _ _ _ _ _ _ _ Hwf) in H. tauto.
    + intros H. inversion H; subst. split; reflexivity.
  - intros g Hc Hl Hout.
    pose proof (read_ifd_cursor host p g Hc ltac:(destruct Hc; unfold stream_wf in Hwf; lia) Hl)
      as H. cbv zeta in H.
    rewrite (out_of_line_not_empty _ _ Hout) in H. exact H.
  - apply read_next_frame_cursor.
Qed.

(** ** Asking for a frame when there is none *)

(** C10.  When [has_next_frame()] is false, the public [read_next_frame]
    returns [NoMoreImagesInTiff] and the reader is unchanged: the current
    frame, the next offset and the stream are the ones before the call. *)
Theorem read_next_frame_at_end_is_atomic host p :
  Reader_has_next_frame p = false ->
  Reader_read_next_frame host p = (NoMoreImagesInTiff, p).
Proof.
  intros H. unfold Reader_read_next_frame. rewrite H. reflexivity.
Qed.

(** The member function of [ReaderPrivate] does not have that property: it
    resets the current frame before it looks at the offset. *)
Lemma private_read_next_frame_resets_frame host p :
  next_ifd_offset (file p) = 0 ->
  read_next_frame host p
  = (NoMoreImagesInTiff, set_good false (set_current_frame ReaderFrame_default p)).
Proof.
  intros H. unfold read_next_frame. cbn [set_current_frame file next_ifd_offset].
  rewrite H. reflexivity.
Qed.

(** Splitting a conjunction of closed facts without touching the facts. *)
Ltac conjs := repeat match goal with |- _ /\ _ => split end.

(** ** Planar against chunky *)

(** With a strip table present, a frame of several chunky samples takes
    neither branch: nothing is read and the buffer stays zero. *)
Lemma chunky_with_strips_reads_nothing host dm sample err p :
  let fr := current_frame (file p) in
  (0 <? strip_count fr) && nonempty (strip_byte_counts fr)
    && nonempty (strip_offsets fr) = true ->
  samples_per_pixel fr <> 1 ->
  planar_config fr <> PlanarConfiguration.Planar ->
  fill_buffer host dm sample err p
  = Returned (zeros (Z.to_nat (u32 (width fr * height fr * bits_per_sample fr) / 8)),
              stream (file p), err).
Proof.
  intros fr Hs Hspp Hpc. unfold fill_buffer. fold fr. cbv zeta. rewrite Hs.
  destruct (samples_per_pixel fr =? 1) eqn:E1; [lia|].
  destruct (planar_config fr =? PlanarConfiguration.Planar) eqn:E2; [lia|].
  reflexivity.
Qed.

(** The chunky loop is only reached without a usable strip table, and then
    its first pass indexes an empty vector. *)
Lemma chunky_loop_without_table fr sample stripdata buffer st err :
  (0 <? strip_count fr) && nonempty (strip_byte_counts fr)
    && nonempty (strip_offsets fr) = false ->
  0 < strip_count fr ->
  chunky_strips (Z.to_nat (strip_count fr)) fr sample 0 0 0 0 stripdata buffer st err
  = Undefined.
Proof.
  intros Hs Hc. destruct (Z.to_nat (strip_count fr)) as [|n] eqn:En; [lia|].
  cbn [chunky_strips]. unfold vec_index. change (Z.to_nat 0) with 0%nat.
  destruct (0 <? strip_count fr) eqn:E0; [|lia]. cbn [andb] in Hs.
  destruct (strip_byte_counts fr) as [|c cs]; [reflexivity|].
  destruct (strip_offsets fr) as [|o os]; [reflexivity|]. discriminate.
Qed.

(** The cut of the inner chunky loop is never the reason for its outcome:
    a pass that returns has stored [k * k] bytes further on in [buffer], so
    more passes than [buffer] has bytes cannot all return. *)
Lemma copy_sample_Returned k stripdata strip_i n : forall buffer out b out',
  0 <= k -> 0 <= strip_i -> 0 <= out -> len buffer < 2 ^ 32 ->
  copy_sample n k stripdata strip_i buffer out = Returned (b, out') ->
  len b = len buffer
  /\ out' = out + Z.of_nat n * k
  /\ (n <> 0%nat -> out' <= len buffer).
Proof.
  induction n as [|n IH]; intros buffer out b out' Hk Hi Ho Hlen H.
  - cbn in H. inversion H; subst. conjs; [reflexivity | lia | intros Hn; contradiction].
  - cbn [copy_sample] in H.
    destruct (out <? len buffer) eqn:E1; [|discriminate].
    destruct (out + k <=? len buffer) eqn:E2; [|discriminate].
    destruct (strip_i <? len stripdata) eqn:E3; [|discriminate].
    destruct (strip_i + k <=? len stripdata) eqn:E4; [|discriminate].
    cbn [andb] in H.
    assert (Hsrc : len (firstn (Z.to_nat k) (skipn (Z.to_nat strip_i) stripdata)) = k).
    { unfold len in *. rewrite length_firstn, length_skipn. lia. }
    assert (Hsp : len (splice buffer out
                         (firstn (Z.to_nat k) (skipn (Z.to_nat strip_i) stripdata)))
                  = len buffer) by (apply splice_length; lia).
    rewrite (u32_small (out + k)) in H by lia.
    assert (Ho' : 0 <= out + k) by lia.
    assert (Hlen' : len (splice buffer out
                           (firstn (Z.to_nat k) (skipn (Z.to_nat strip_i) stripdata)))
                    < 2 ^ 32) by (rewrite Hsp; exact Hlen).
    destruct (IH _ _ _ _ Hk Hi Ho' Hlen' H) as (Hb & Hout & Hle).
    rewrite Hsp in *.
    conjs; [exact Hb | lia | intros _].
    destruct n as [|n]; [lia|]. apply Hle. discriminate.
Qed.

Lemma chunky_samples_fuel k step stripsize stripdata :
  0 < k ->
  forall fuel extra strip_i f buffer out,
    0 <= strip_i -> 0 <= out -> len buffer < 2 ^ 32 ->
    (Z.to_nat (len buffer - out) < fuel)%nat ->
    chunky_samples (fuel + extra) k step stripsize stripdata strip_i f buffer out
    = chunky_samples fuel k step stripsize stripdata strip_i f buffer out.
Proof.
  intros Hk. induction fuel as [|fuel IH]; intros extra strip_i f buffer out Hi Ho Hlen Hf;
    [lia|].
  cbn [Nat.add chunky_samples]. destruct (strip_i <? stripsize); [|reflexivity].
  destruct (copy_sample (Z.to_nat k) k stripdata strip_i buffer out) as [[b out']| |] eqn:E;
    cbn [obind fst snd]; try reflexivity.
  destruct (copy_sample_Returned k stripdata strip_i (Z.to_nat k) buffer out b out'
              ltac:(lia) Hi Ho Hlen E) as (Hb & Hout & Hle).
  specialize (Hle ltac:(lia)).
  apply IH.
  - unfold u32, wrap. apply Z.mod_pos_bound. lia.
  - nia.
  - rewrite Hb. exact Hlen.
  - rewrite Hb. nia.
Qed.

(** C1, where the code departs from it.  One pixel with the samples [0x11]
    and [0x22], stored planar and stored chunky: both files open, the planar
    one yields [0x11] for sample 0 and [0x22] for sample 1, the chunky one
    yields [0] for both. *)
Theorem chunky_strips_are_never_read dm :
  fst (opened (planar_file x11 x22)) = NoError
  /\ fst (opened (chunky_file x11 x22)) = NoError
  /\ sample_data dm (planar_file x11 x22) 0 = Returned ([V8 0x11], NoError)
  /\ sample_data dm (planar_file x11 x22) 1 = Returned ([V8 0x22], NoError)
  /\ sample_data dm (chunky_file x11 x22) 0 = Returned ([V8 0], NoError)
  /\ sample_data dm (chunky_file x11 x22) 1 = Returned ([V8 0], NoError).
Proof. destruct dm; conjs; vm_compute; reflexivity. Qed.

(** ** Directory entries of bytes *)

(** C2, where the code departs from it.  On a twelve-byte [Byte] entry
    whose count is zero [read_ifd] leaves the cursor eight bytes past the
    start of the entry; the same entry declared [Short] leaves it twelve
    bytes past. *)
Theorem read_ifd_empty_byte_entry_stops_short :
  len empty_byte_entry_bytes = 12
  /\ type (fst (read_ifd LittleHost (reader_on empty_byte_entry_bytes))) = DataType.Byte
  /\ count (fst (read_ifd LittleHost (reader_on empty_byte_entry_bytes))) = 0
  /\ istream.tellg
       (stream (file (snd (read_ifd LittleHost (reader_on empty_byte_entry_bytes))))) = 8
  /\ istream.tellg
       (stream (file (snd (read_ifd LittleHost (reader_on empty_short_entry_bytes))))) = 12.
Proof. conjs; vm_compute; reflexivity. Qed.

(** C6, where the code departs from it.  An [ASCII] entry of five
    characters kept at offset 20, the bounds check passing: the values
    decoded are not the five bytes at offset 20 but the five bytes that
    follow the entry; a [Short] entry pointing to the same offset is read
    from there. *)
Theorem read_ifd_long_ascii_reads_in_place :
  count (fst (read_ifd LittleHost (reader_on ascii_entry_bytes))) = 5
  /\ map byte_val (firstn 5 (skipn 20 ascii_entry_bytes)) = [0x48; 0x65; 0x6c; 0x6c; 0x6f]
  /\ pvalue (fst (read_ifd LittleHost (reader_on ascii_entry_bytes)))
     = [0x2d; 0x2d; 0x2d; 0x2d; 0x2d]
  /\ pvalue (fst (read_ifd LittleHost (reader_on ascii_entry_bytes)))
     = map byte_val (firstn 5 (skipn 12 ascii_entry_bytes))
  /\ pvalue (fst (read_ifd LittleHost (reader_on short_entry_bytes)))
     = [0x6548; 0x6c6c; 0x006f].
Proof. conjs; vm_compute; reflexivity. Qed.

(** The out-of-line [Byte]/[ASCII] case in general: when the bounds check
    passes, the values are the [count] bytes that follow the entry, whatever
    the offset says. *)
Lemma read_ifd_values_bytes_in_place host type count p :
  (type =? DataType.Byte) || (type =? DataType.ASCII) = true ->
  4 < count ->
  fst (read host 4 p) + count * 1 <= size (file p) ->
  fst (fst (fst (fst (read_ifd_values host type count p))))
  = fst (read_values host 1 (Z.to_nat count) [] (snd (read host 4 p))).
Proof.
  intros Ht Hc Hb. unfold read_ifd_values. cbv zeta. rewrite Ht.
  destruct (0 <? count) eqn:E0; [|lia].
  destruct (count <=? 4) eqn:E4; [lia|].
  rewrite bind_run. cbv beta.
  destruct (fst (read host 4 p) + count * 1 <=? size (file p)) eqn:E; [|lia].
  rewrite bind_run. reflexivity.
Qed.

(** ** Short strip reads *)

(** C4, where the code departs from it.  A 4x1 image whose first strip is
    cut short by the end of the file: extraction goes on to the second
    strip and returns the partly filled buffer, but [err] is [NoError] on
    return, not [StripDataLost]. *)
Theorem short_strip_read_is_reported_as_NoError dm :
  fst (opened truncated_strip_file) = NoError
  /\ len truncated_strip_file = 93
  /\ strip_offsets (current_frame (file (snd (opened truncated_strip_file)))) = [92; 90]
  /\ strip_byte_counts (current_frame (file (snd (opened truncated_strip_file)))) = [2; 2]
  /\ sample_data dm truncated_strip_file 0
     = Returned ([V8 0x11; V8 0; V8 0x33; V8 0x44], NoError).
Proof. destruct dm; conjs; vm_compute; reflexivity. Qed.

(** Whatever happens to the strips, [err] is overwritten before the
    function returns. *)
Lemma get_sample_data_never_reports_StripDataLost host dm sample err p res e p' :
  Reader_get_sample_data host dm sample err p = Returned (res, e, p') ->
  e <> StripDataLost.
Proof.
  unfold Reader_get_sample_data. destruct (good p).
  - unfold get_sample_data_internal. cbv zeta.
    destruct (precondition_error _) as [e0|] eqn:Ep.
    + intros H. inversion H; subst. clear H. revert Ep. unfold precondition_error.
      repeat match goal with
        | |- context [if ?b then _ else _] => destruct b
        end; intros H; inversion H; discriminate.
    + intros H. apply obind_Returned in H. destruct H as ([[b st] e1] & _ & H).
      apply obind_Returned in H. destruct H as (r & _ & H).
      inversion H; subst. discriminate.
  - intros H. inversion H; subst. discriminate.
Qed.

(** The short read itself neither stops the strip loop nor empties the
    buffer: the planar loop goes on to the next strip with what arrived. *)
Lemma planar_strips_goes_on_after_short_read dm fr s e n strip f out buffer st err c o r :
  nth_error (strip_byte_counts fr) (Z.to_nat strip) = Some c ->
  nth_error (strip_offsets fr) (Z.to_nat strip) = Some o ->
  util.do_ranges_overlap dm (s, e) (f, u32 (f + c)) = Some r ->
  let ul := wrap (ulong_bits dm) in
  let cnt := u32 (ul (snd r - fst r)) in
  let got := istream.read cnt
               (istream.seekg (to_streamoff (ul (o + ul (fst r - f)))) (istream.clear st)) in
  out + len (fst got) <= len buffer ->
  planar_strips dm (S n) fr s e strip f out buffer st err
  = planar_strips dm n fr s e (strip + 1) (u32 (f + c)) (u32 (out + cnt))
      (splice buffer out (fst got)) (snd got)
      (if len (fst got) =? cnt then err else StripDataLost).
Proof.
  intros Hc Ho Hr ul cnt got Hfit. cbn [planar_strips]. unfold vec_at.
  rewrite Hc, Ho. cbn [obind]. rewrite Hr. subst got cnt ul.
  unfold read_into. destruct (istream.read _ _) as [g st2]. cbn [fst snd] in *.
  destruct (out + len g <=? len buffer) eqn:E; [reflexivity|lia].
Qed.

(** ** Where the frame count and the walk part ways *)

(** C5 as stated fails: [count_frames] never decodes an entry, so it counts
    a page that [read_next_frame] rejects.  On a file of two pages whose
    second page declares samples of 5, 6 and 5 bits, [open] succeeds and
    [count_frames] returns 2, while the only call of [read_next_frame]
    fails: no call succeeds, and one frame was decoded in all. *)
Lemma count_frames_counts_a_page_that_does_not_decode :
  exists p n k,
    opened two_page_file = (NoError, p)
    /\ Reader_count_frames LittleHost 2 p = Some (n, p)
    /\ remaining_frames LittleHost 2 p = Some k
    /\ fst (Reader_read_next_frame LittleHost p) = MultiSampleSizeNotSupport
    /\ n <> Z.of_nat k
    /\ n <> Z.of_nat (S k).
Proof.
  exists (snd (opened two_page_file)), 2, 0%nat.
  conjs; try (vm_compute; reflexivity); discriminate.
Qed.

(** Nor does it look at the size of the file before it follows an offset. *)
Lemma count_frames_follows_an_offset_outside_the_file :
  let bytes := tiff_header 8 ++ le16 0 ++ le32 64 in
  fst (opened bytes) = NoError
  /\ Reader_has_next_frame (snd (opened bytes)) = false
  /\ option_map fst (Reader_count_frames LittleHost 2 (snd (opened bytes))) = Some 2.
Proof. intros bytes. conjs; vm_compute; reflexivity. Qed.

(** ** Images whose size does not fit 32 bits, and ragged strip tables *)

(** C9 as stated fails: a 65536x65536 image of 8-bit samples passes the six
    checks, and [get_sample_data] returns an empty vector, the product of
    the dimensions being zero in 32 bits. *)
Lemma get_sample_data_of_a_huge_image_is_empty :
  exists p res p',
    opened huge_image_file = (NoError, p)
    /\ precondition_error (current_frame (file p)) = None
    /\ width (current_frame (file p)) = 65536
    /\ height (current_frame (file p)) = 65536
    /\ Reader_get_sample_data LittleHost LP64 0 NoError p = Returned (res, NoError, p')
    /\ len res <> width (current_frame (file p)) * height (current_frame (file p)).
Proof.
  exists (snd (opened huge_image_file)), [], (snd (opened huge_image_file)).
  conjs; try (vm_compute; reflexivity).
  vm_compute. discriminate.
Qed.

Lemma get_sample_data_throws_on_a_ragged_table dm :
  fst (opened ragged_table_file) = NoError
  /\ precondition_error (current_frame (file (snd (opened ragged_table_file)))) = None
  /\ sample_data dm ragged_table_file 0 = Throws.
Proof. destruct dm; conjs; vm_compute; reflexivity. Qed.

(** ** The theorems at work on concrete files *)

(** C8 at [0x1234]. *)
Lemma byte_swap_round_trip_witness :
  util.byte_swap16 (util.byte_swap16 0x1234) = 0x1234
  /\ util.byte_swap32 (util.byte_swap32 0x1234) = 0x1234
  /\ util.byte_swap64 (util.byte_swap64 0x1234) = 0x1234.
Proof.
  destruct (byte_swap_round_trip 0x1234) as (H16 & H32 & H64).
  split; [apply H16; lia | split; [apply H32; lia | apply H64; lia]].
Defined.

(** C10 on a single-page file, after [open]. *)
Lemma read_next_frame_at_end_is_atomic_witness :
  Reader_has_next_frame (snd (opened small_image_file)) = false
  /\ Reader_read_next_frame LittleHost (snd (opened small_image_file))
     = (NoMoreImagesInTiff, snd (opened small_image_file)).
Proof.
  split; [vm_compute; reflexivity|].
  apply (read_next_frame_at_end_is_atomic LittleHost (snd (opened small_image_file))).
  vm_compute; reflexivity.
Defined.

(** C3 on a file of 108 bytes holding the two strips at offsets 8 and 58. *)
Lemma planar_window_two_strips_witness :
  fill_buffer LittleHost LP64 0 NoError two_strip_reader
  = Returned (repeat x2d 50 ++ repeat x2b 50,
              mk_ifstream (contents (stream (file two_strip_reader))) 108 false,
              NoError).
Proof.
  destruct (planar_window_two_strips LittleHost LP64 NoError two_strip_reader 8 58
              ltac:(vm_compute; reflexivity) ltac:(vm_compute; reflexivity)
              ltac:(vm_compute; reflexivity) ltac:(lia) ltac:(lia)
              ltac:(vm_compute; reflexivity)
              ltac:(left; vm_compute; reflexivity)) as [H _].
  rewrite H. vm_compute. reflexivity.
Defined.

(** C9, as amended, on a 2x1 image in one strip. *)
Lemma get_sample_data_every_pixel_witness :
  exists res p',
    Reader_get_sample_data LittleHost LP64 0 NoError (snd (opened small_image_file))
    = Returned (res, NoError, p')
    /\ len res = 2
    /\ Forall (fun t => variant_width t = 8) res.
Proof.
  assert (Hfit : strip_table_fits (current_frame (file (snd (opened small_image_file))))).
  { unfold strip_table_fits. vm_compute.
    conjs; try discriminate; try reflexivity. repeat constructor. discriminate. }
  destruct (get_sample_data_every_pixel LittleHost LP64 0 NoError
              (snd (opened small_image_file))
              ltac:(vm_compute; reflexivity) ltac:(vm_compute; reflexivity)
              ltac:(vm_compute; discriminate) ltac:(vm_compute; discriminate)
              ltac:(vm_compute; reflexivity) ltac:(lia)
              ltac:(vm_compute; reflexivity) Hfit)
    as (res & p' & H & Hl & Hw & _).
  exists res, p'. split; [exact H|]. split; [exact Hl|exact Hw].
Defined.

(** C5, as amended, on a file of three pages: the count is 3, and two calls
    of [read_next_frame] succeed after [open]. *)
Lemma count_frames_matches_walk_witness :
  let p := snd (opened three_page_file) in
  Reader_count_frames LittleHost 3 p = Some (3, p)
  /\ remaining_frames LittleHost 2 p = Some 2%nat.
Proof.
  intros p.
  assert (Hopen : open LittleHost (Some three_page_file) ReaderPrivate_default = (NoError, p))
    by (vm_compute; reflexivity).
  assert (Hchain : ifd_chain LittleHost p (first_record_offset (file p)) [8; 26; 44]).
  { change (first_record_offset (file p)) with 8.
    apply chain_ifd; [lia | vm_compute; discriminate | vm_compute; reflexivity |].
    replace (ifd_next LittleHost p 8) with 26 by (vm_compute; reflexivity).
    apply chain_ifd; [lia | vm_compute; discriminate | vm_compute; reflexivity |].
    replace (ifd_next LittleHost p 26) with 44 by (vm_compute; reflexivity).
    apply chain_ifd; [lia | vm_compute; discriminate | vm_compute; reflexivity |].
    replace (ifd_next LittleHost p 44) with 0 by (vm_compute; reflexivity).
    apply chain_end. }
  assert (Hdec : Forall (decodes LittleHost p) (tl [8; 26; 44])).
  { repeat constructor; vm_compute; reflexivity. }
  destruct (count_frames_matches_walk LittleHost three_page_file p [8; 26; 44]
              Hopen Hchain Hdec ltac:(vm_compute; reflexivity)) as (Hc & Hr & _).
  split; [exact Hc | exact Hr].
Defined.

(** C7 on concrete readers. *)
Lemma stream_cursor_discipline_witness :
  let p := snd (opened small_image_file) in
  (exists n, Reader_count_frames LittleHost 1 p = Some (n, p))
  /\ (exists res, Reader_get_sample_data LittleHost LP64 0 NoError p
                  = Returned (res, NoError, p))
  /\ istream.tellg (stream (file (snd (read_ifd LittleHost (reader_on short_entry_bytes)))))
     = 12
  /\ istream.tellg
       (stream (file (snd (read_next_frame LittleHost
                             (set_next_ifd_offset 8 (reader_on three_page_file))))))
     = 26.
Proof.
  intros p.
  assert (Hwf : stream_wf p) by (vm_compute; discriminate).
  destruct (stream_cursor_discipline LittleHost LP64 p Hwf) as (Hcount & Hdata & _ & _).
  split; [|split; [|split]].
  - destruct (Reader_count_frames LittleHost 1 p) as [[n p']|] eqn:E;
      [|vm_compute in E; discriminate].
    destruct (Hcount 1%nat n p' E) as [_ Hp]. exists n. rewrite Hp; [reflexivity|].
    vm_compute; reflexivity.
  - destruct (Reader_get_sample_data LittleHost LP64 0 NoError p) as [[[res e] p']| |] eqn:E;
      [|vm_compute in E; discriminate|vm_compute in E; discriminate].
    destruct (Hdata 0 NoError res e p' E) as [_ Hp].
    assert (He : e = NoError) by (vm_compute in E; inversion E; reflexivity).
    exists res. rewrite Hp, He; [reflexivity|]. vm_compute; reflexivity.
  - assert (Hw : stream_wf (reader_on short_entry_bytes)) by (vm_compute; discriminate).
    destruct (stream_cursor_discipline LittleHost LP64 (reader_on short_entry_bytes) Hw)
      as (_ & _ & Hifd & _).
    rewrite (Hifd 0); [reflexivity| split; reflexivity | vm_compute; discriminate
                       | vm_compute; reflexivity].
  - set (q := set_next_ifd_offset 8 (reader_on three_page_file)).
    assert (Hw : stream_wf q) by (vm_compute; discriminate).
    destruct (stream_cursor_discipline LittleHost LP64 q Hw) as (_ & _ & _ & Hnav).
    rewrite Hnav; [vm_compute; reflexivity | vm_compute; reflexivity
                   | vm_compute; reflexivity | vm_compute; discriminate].
Defined.

(** * Further properties *)

(** ** [util]: ranges, byte order, byte swapping *)

Lemma byte_val_range b : 0 <= byte_val b < 256.
Proof.
  unfold byte_val. pose proof (Byte.to_N_bounded b). lia.
Qed.

Lemma byte_swap_le_value2 a b :
  util.byte_swap16 (le_value [a; b]) = le_value [b; a].
Proof.
  cbn [le_value].
  pose proof (byte_val_range a). pose proof (byte_val_range b).
  set (x := byte_val a) in *. set (y := byte_val b) in *.
  rewrite byte_swap16_bytes by lia.
  match goal with |- context [byte_of ?R 1] => set (r := R) end.
  assert (byte_of r 0 = x) by (subst r; digit 0 0 x y).
  assert (byte_of r 1 = y) by (subst r; digit 1 x y 0).
  lia.
Qed.

Lemma byte_swap_le_value4 a b c d :
  util.byte_swap32 (le_value [a; b; c; d]) = le_value [d; c; b; a].
Proof.
  cbn [le_value].
  pose proof (byte_val_range a). pose proof (byte_val_range b).
  pose proof (byte_val_range c). pose proof (byte_val_range d).
  set (x0 := byte_val a) in *. set (x1 := byte_val b) in *.
  set (x2 := byte_val c) in *. set (x3 := byte_val d) in *.
  rewrite byte_swap32_bytes.
  match goal with |- context [byte_of ?R 3] => set (r := R) end.
  assert (byte_of r 0 = x0) by (subst r; digit 0 0 x0 (x1 + x2 * 2 ^ 8 + x3 * 2 ^ 16)).
  assert (byte_of r 1 = x1) by (subst r; digit 1 x0 x1 (x2 + x3 * 2 ^ 8)).
  assert (byte_of r 2 = x2) by (subst r; digit 2 (x0 + x1 * 2 ^ 8) x2 x3).
  assert (byte_of r 3 = x3) by (subst r; digit 3 (x0 + x1 * 2 ^ 8 + x2 * 2 ^ 16) x3 0).
  lia.
Qed.

Lemma byte_swap_le_value8 a0 a1 a2 a3 a4 a5 a6 a7 :
  util.byte_swap64 (le_value [a0; a1; a2; a3; a4; a5; a6; a7])
  = le_value [a7; a6; a5; a4; a3; a2; a1; a0].
Proof.
  cbn [le_value].
  pose proof (byte_val_range a0). pose proof (byte_val_range a1).
  pose proof (byte_val_range a2). pose proof (byte_val_range a3).
  pose proof (byte_val_range a4). pose proof (byte_val_range a5).
  pose proof (byte_val_range a6). pose proof (byte_val_range a7).
  set (x0 := byte_val a0) in *. set (x1 := byte_val a1) in *.
  set (x2 := byte_val a2) in *. set (x3 := byte_val a3) in *.
  set (x4 := byte_val a4) in *. set (x5 := byte_val a5) in *.
  set (x6 := byte_val a6) in *. set (x7 := byte_val a7) in *.
  rewrite byte_swap64_bytes.
  match goal with |- context [byte_of ?R 7] => set (r := R) end.
  assert (byte_of r 0 = x0) by
    (subst r; digit 0 0 x0 (x1 + x2 * 2^8 + x3 * 2^16 + x4 * 2^24 + x5 * 2^32 + x6 * 2^40 + x7 * 2^48)).
  assert (byte_of r 1 = x1) by
    (subst r; digit 1 x0 x1 (x2 + x3 * 2^8 + x4 * 2^16 + x5 * 2^24 + x6 * 2^32 + x7 * 2^40)).
  assert (byte_of r 2 = x2) by
    (subst r; digit 2 (x0 + x1 * 2^8) x2 (x3 + x4 * 2^8 + x5 * 2^16 + x6 * 2^24 + x7 * 2^32)).
  assert (byte_of r 3 = x3) by
    (subst r; digit 3 (x0 + x1 * 2^8 + x2 * 2^16) x3 (x4 + x5 * 2^8 + x6 * 2^16 + x7 * 2^24)).
  assert (byte_of r 4 = x4) by
    (subst r; digit 4 (x0 + x1 * 2^8 + x2 * 2^16 + x3 * 2^24) x4 (x5 + x6 * 2^8 + x7 * 2^16)).
  assert (byte_of r 5 = x5) by
    (subst r; digit 5 (x0 + x1 * 2^8 + x2 * 2^16 + x3 * 2^24 + x4 * 2^32) x5 (x6 + x7 * 2^8)).
  assert (byte_of r 6 = x6) by
    (subst r; digit 6 (x0 + x1 * 2^8 + x2 * 2^16 + x3 * 2^24 + x4 * 2^32 + x5 * 2^40) x6 x7).
  assert (byte_of r 7 = x7) by
    (subst r; digit 7 (x0 + x1 * 2^8 + x2 * 2^16 + x3 * 2^24 + x4 * 2^32 + x5 * 2^40 + x6 * 2^48) x7 0).
  lia.
Qed.

(** Lists of a given small length, taken apart. *)
Ltac explode bs H :=
  repeat (let b := fresh "b" in destruct bs as [|b bs]; cbn [length] in H; try lia).

Lemma byte_swap_le_value (bs : list byte) :
  len bs = 1 \/ len bs = 2 \/ len bs = 4 \/ len bs = 8 ->
  util.byte_swap (len bs) (le_value bs) = le_value (rev bs).
Proof.
  unfold len. intros H.
  assert (Hl : (length bs = 1 \/ length bs = 2 \/ length bs = 4 \/ length bs = 8)%nat) by lia.
  clear H. destruct Hl as [H|[H|[H|H]]]; rewrite H; unfold util.byte_swap;
    cbn [Z.of_nat Pos.of_succ_nat Pos.succ Z.eqb Pos.eqb].
  - destruct bs as [|a [|? ?]]; try discriminate. reflexivity.
  - destruct bs as [|a [|b [|? ?]]]; try discriminate. apply byte_swap_le_value2.
  - destruct bs as [|a [|b [|c [|d [|? ?]]]]]; try discriminate. apply byte_swap_le_value4.
  - destruct bs as [|a0 [|a1 [|a2 [|a3 [|a4 [|a5 [|a6 [|a7 [|? ?]]]]]]]]]; try discriminate.
    apply byte_swap_le_value8.
Qed.

Lemma byte_swap_load_rev (h : Host) (bs : list byte) :
  len bs = 1 \/ len bs = 2 \/ len bs = 4 \/ len bs = 8 ->
  util.byte_swap (len bs) (load h bs) = load h (rev bs).
Proof.
  intros H. destruct h; cbn [load].
  - apply byte_swap_le_value. exact H.
  - rewrite <- (byte_swap_le_value (rev bs)).
    + unfold len. rewrite length_rev. reflexivity.
    + unfold len in *. rewrite length_rev. exact H.
Qed.

(** X1.  [byte_swap<value_t>] reverses the object representation of its
    argument: on either kind of machine, the value stored as the bytes [bs]
    becomes the value stored as [bs] read backwards, for the three widths the
    template is specialised for; on a single byte it changes nothing. *)
Theorem byte_swap_reverses_bytes (h : Host) (bs : list byte) :
  len bs = 1 \/ len bs = 2 \/ len bs = 4 \/ len bs = 8 ->
  util.byte_swap (len bs) (load h bs) = load h (rev bs).
Proof. exact (byte_swap_load_rev h bs). Qed.

(** X2.  [get_byte_order] recognises every little-endian machine, and a
    big-endian machine when its [long] has four bytes; on a big-endian
    machine whose [long] has eight bytes the four [char]s of the union are
    all zero and the answer is [Unknown]. *)
Theorem get_byte_order_by_machine (h : Host) (dm : DataModel) :
  abi.get_byte_order h dm
  = match h, dm with
    | LittleHost, _ => LittleEndian
    | BigHost, LLP64 => BigEndian
    | BigHost, LP64 => Unknown
    end.
Proof. destruct h, dm; reflexivity. Qed.

Lemma do_ranges_overlap_ordered dm a b c d :
  0 <= a <= b -> b < 2 ^ ulong_bits dm ->
  0 <= c <= d -> d < 2 ^ ulong_bits dm ->
  (b - a) + (d - c) < 2 ^ ulong_bits dm ->
  util.do_ranges_overlap dm (a, b) (c, d)
  = if Z.max a c <? Z.min b d then Some (Z.max a c, Z.min b d) else None.
Proof.
  intros Hab Hb Hcd Hd Hsum. unfold util.do_ranges_overlap. cbn [fst snd].
  set (w := 2 ^ ulong_bits dm) in *.
  unfold wrap. fold w.
  rewrite (Z.mod_small (Z.max b d - Z.min a c) w) by lia.
  rewrite (Z.mod_small (b - a) w) by lia.
  rewrite (Z.mod_small (d - c) w) by lia.
  rewrite (Z.mod_small (b - a + (d - c)) w) by lia.
  destruct (Z.max a c <? Z.min b d) eqn:E1;
    destruct (Z.max b d - Z.min a c <? b - a + (d - c)) eqn:E2; try reflexivity; lia.
Qed.

(** X3.  [do_ranges_overlap] computes the intersection of two half-open
    ranges: when the bounds are ordered and the two lengths add up within
    [unsigned long], the answer is [max] of the starts and [min] of the ends
    if that range is not empty, and nothing otherwise; ranges that only
    touch, and empty ranges, overlap nothing. *)
Theorem do_ranges_overlap_is_intersection dm a b c d :
  0 <= a <= b -> b < 2 ^ ulong_bits dm ->
  0 <= c <= d -> d < 2 ^ ulong_bits dm ->
  (b - a) + (d - c) < 2 ^ ulong_bits dm ->
  util.do_ranges_overlap dm (a, b) (c, d)
  = if Z.max a c <? Z.min b d then Some (Z.max a c, Z.min b d) else None.
Proof. exact (do_ranges_overlap_ordered dm a b c d). Qed.

(** ** [read]: the integers of a file *)

Lemma len_slice bytes g n :
  0 <= g -> 0 <= n -> g + n <= len bytes -> len (slice bytes g n) = n.
Proof.
  intros Hg Hn Hb. unfold slice, len in *. rewrite length_firstn, length_skipn. lia.
Qed.

(** A read that finds all its bytes. *)
Lemma read_healthy host n p g :
  cursor_at p g -> 0 <= g -> 0 <= n -> g + n <= len (contents (stream (file p))) ->
  read host n p
  = (byte_swap_if_need n (load host (slice (contents (stream (file p))) g n)) p,
     set_stream (mk_ifstream (contents (stream (file p))) (g + n) false) p).
Proof.
  intros [Hg Hf] H0 Hn Hb. unfold read, istream.good. rewrite Hf. cbn [negb].
  unfold istream.read. rewrite Hf, Hg. fold (slice (contents (stream (file p))) g n).
  pose proof (len_slice _ g n H0 Hn Hb) as Hl. unfold len in Hl.
  replace (Z.to_nat n - length (slice (contents (stream (file p))) g n))%nat with 0%nat by lia.
  cbn [repeat]. rewrite app_nil_r. rewrite Hl, Z.ltb_irrefl. reflexivity.
Qed.

Lemma swap_to_file_order host n p bs :
  knows_orders host p ->
  len bs = n -> n = 1 \/ n = 2 \/ n = 4 \/ n = 8 ->
  byte_swap_if_need n (load host bs) p = file_value (file_byte_order (file p)) bs.
Proof.
  intros [Hs Hf] Hl Hn. unfold byte_swap_if_need. rewrite Hs. subst n.
  destruct host, Hf as [-> | ->]; cbn [host_order ByteOrder_eqb negb file_value].
  - reflexivity.
  - apply (byte_swap_load_rev LittleHost). exact Hn.
  - rewrite (byte_swap_load_rev BigHost) by exact Hn. cbn [load].
    rewrite rev_involutive. reflexivity.
  - reflexivity.
Qed.

Lemma read_value host n p g :
  knows_orders host p ->
  n = 1 \/ n = 2 \/ n = 4 \/ n = 8 ->
  cursor_at p g -> 0 <= g -> g + n <= len (contents (stream (file p))) ->
  read host n p
  = (file_value (file_byte_order (file p)) (slice (contents (stream (file p))) g n),
     set_stream (mk_ifstream (contents (stream (file p))) (g + n) false) p).
Proof.
  intros Hk Hn Hc Hg Hb.
  rewrite (read_healthy host n p g Hc Hg ltac:(lia) Hb).
  rewrite (swap_to_file_order host n p _ Hk); [reflexivity | | exact Hn].
  apply len_slice; lia.
Qed.


(** ** Reading on after the stream has failed *)

Lemma read_failed host n p :
  failbit (stream (file p)) = true -> read host n p = (0, p).
Proof. intros H. unfold read, istream.good. rewrite H. reflexivity. Qed.

Lemma set_current_frame_same p : set_current_frame (current_frame (file p)) p = p.
Proof. destruct p as [[]]; reflexivity. Qed.

Lemma read_ifd_failed host p :
  failbit (stream (file p)) = true ->
  read_ifd host p = (mk_IFD 0 0 0 0 0 [] [], p).
Proof.
  intros H. unfold read_ifd. rewrite bind_run, (read_failed host 2 p H). cbn [fst snd].
  rewrite bind_run, (read_failed host 2 p H). cbn [fst snd].
  rewrite bind_run, (read_failed host 4 p H). cbn [fst snd].
  rewrite bind_run. unfold stream_tellg. cbn [fst snd].
  rewrite bind_run. unfold read_ifd_values.
  cbn [Z.eqb DataType.Byte DataType.ASCII DataType.Short DataType.Long
       DataType.Rational orb].
  rewrite bind_run, (read_failed host 4 p H). cbn [fst snd ret].
  rewrite bind_run. reflexivity.
Qed.

(** X5.  Once the stream has failed, the rest of a directory changes
    nothing: every further entry is read as zeros, which is no tag the
    reader knows, so the frame under construction, the error so far and the
    reader stay as they are. *)
Theorem read_entries_after_failure host n err p :
  failbit (stream (file p)) = true ->
  read_entries host n err p = (err, p).
Proof.
  intros H. revert err. induction n as [|n IH]; intros err; [reflexivity|].
  cbn [read_entries]. rewrite bind_run, (read_ifd_failed host p H). cbn [fst snd].
  unfold dispatch_tag. cbn [tag Z.eqb orb Tags.ImageWidth Tags.ImageLength
    Tags.BitsPerSample Tags.Compression Tags.StripOffsets Tags.SamplesPerPixel
    Tags.RowsPerStrip Tags.SampleFormat Tags.ImageDescription Tags.StripByteCounts
    Tags.PlanarConfig Tags.Orientation Tags.PhotometricInterpretation Tags.FillOrder
    Tags.TileByteCounts Tags.TileLength Tags.TileOffsets Tags.TileWidth
    Tags.XResolution Tags.YResolution Tags.ResolutionUnit].
  rewrite set_current_frame_same. apply IH.
Qed.

(** ** The errors of [read_next_frame] and [open] *)

Lemma dispatch_tag_error ifd fr err :
  snd (dispatch_tag ifd (fr, err)) = err
  \/ snd (dispatch_tag ifd (fr, err)) = MultiSampleSizeNotSupport.
Proof.
  unfold dispatch_tag.
  repeat match goal with
    | |- context [if ?b then _ else _] => destruct b
    | |- context [match ?l with [] => _ | _ :: _ => _ end] => destruct l
    end; cbn [snd]; auto.
Qed.

Lemma read_entries_error host n : forall err p,
  fst (read_entries host n err p) = err
  \/ fst (read_entries host n err p) = MultiSampleSizeNotSupport.
Proof.
  induction n as [|n IH]; intros err p; [left; reflexivity|].
  cbn [read_entries]. rewrite bind_run.
  set (ifd := fst (read_ifd host p)). set (q := snd (read_ifd host p)).
  destruct (dispatch_tag_error ifd (current_frame (file q)) err) as [H|H];
    destruct (dispatch_tag ifd (current_frame (file q), err)) as [fr e]; cbn [snd] in H; subst e.
  - apply IH.
  - destruct (IH MultiSampleSizeNotSupport (set_current_frame fr q)) as [H|H]; right; exact H.
Qed.

Lemma read_next_frame_fst host p :
  fst (read_next_frame host p)
  = if negb (next_ifd_offset (file p) =? 0)
       && (next_ifd_offset (file p) + 2 <? size (file p))
    then fst (read_entries host
                (Z.to_nat (fst (read host 2
                   (set_stream (istream.seekg (next_ifd_offset (file p))
                                  (istream.clear (stream (file p))))
                      (set_current_frame ReaderFrame_default p)))))
                NoError
                (snd (read host 2
                   (set_stream (istream.seekg (next_ifd_offset (file p))
                                  (istream.clear (stream (file p))))
                      (set_current_frame ReaderFrame_default p)))))
    else NoMoreImagesInTiff.
Proof.
  unfold read_next_frame. cbn [set_current_frame file next_ifd_offset size].
  destruct (negb (next_ifd_offset (file p) =? 0)
            && (next_ifd_offset (file p) + 2 <? size (file p))); [|reflexivity].
  cbv zeta. rewrite !bind_run. cbn [fst snd ret stream_clear stream_seekg].
  reflexivity.
Qed.

Lemma read_next_frame_good host p :
  good (snd (read_next_frame host p)) = Error_is_NoError (fst (read_next_frame host p)).
Proof.
  unfold read_next_frame.
  match goal with |- context [let (_, _) := ?x in _] => destruct x end.
  reflexivity.
Qed.

Lemma read_next_frame_outcome host p :
  let r := read_next_frame host p in
  frame_error (fst r)
  /\ (fst r = NoMoreImagesInTiff <->
      next_ifd_offset (file p) = 0 \/ size (file p) <= next_ifd_offset (file p) + 2)
  /\ (good (snd r) = true <-> fst r = NoError).
Proof.
  cbv zeta. rewrite read_next_frame_good, read_next_frame_fst.
  destruct (negb (next_ifd_offset (file p) =? 0)) eqn:E0;
    destruct (next_ifd_offset (file p) + 2 <? size (file p)) eqn:E2; cbn [andb].
  1: match goal with |- context [read_entries host ?n NoError ?q] =>
       destruct (read_entries_error host n NoError q) as [H|H]; rewrite H
     end.
  all: unfold frame_error; cbn [Error_is_NoError];
    apply negb_true_iff in E0 || apply negb_false_iff in E0;
    repeat split; auto; try discriminate; try (intros [?|?]; lia); try lia;
    try (intros _; lia).
Qed.

(** X6.  [read_next_frame] returns [NoError], [MultiSampleSizeNotSupport] or
    [NoMoreImagesInTiff] and nothing else; [NoMoreImagesInTiff] exactly when
    the next offset is zero or leaves no room for an entry count; and the
    reader is [good] afterwards exactly when the result is [NoError]. *)
Theorem read_next_frame_errors host p :
  let r := read_next_frame host p in
  frame_error (fst r)
  /\ (fst r = NoMoreImagesInTiff <->
      next_ifd_offset (file p) = 0 \/ size (file p) <= next_ifd_offset (file p) + 2)
  /\ (good (snd r) = true <-> fst r = NoError).
Proof. exact (read_next_frame_outcome host p). Qed.

Lemma read_good host n p : good (snd (read host n p)) = good p.
Proof. destruct (stream_only_read host n p) as [(_&_&_&_&_&_&H) _]. exact H. Qed.

(** X7.  [open] on a fresh reader returns [OpenFileFailed] exactly when the
    file cannot be opened, and otherwise one of the two header errors or a
    result of [read_next_frame]; the reader is [good] afterwards exactly
    when [open] returned [NoError]. *)
Theorem open_errors host c :
  let r := open host c ReaderPrivate_default in
  (header_error (fst r) \/ frame_error (fst r))
  /\ (fst r = OpenFileFailed <-> c = None)
  /\ (good (snd r) = true <-> fst r = NoError).
Proof.
  cbv zeta. unfold open, header_error. destruct c as [bytes|].
  - cbv zeta.
    destruct (istream.read 2 _) as [got st].
    match goal with
    | |- context [match ?x with Some _ => _ | None => _ end] => destruct x as [o|]
    end.
    + rewrite bind_run.
      match goal with |- context [read host 2 ?q] =>
        pose proof (read_good host 2 q) as Hg; set (r1 := read host 2 q) in *
      end.
      cbn [good set_file_byte_order set_stream set_size set_system_byte_order
           ReaderPrivate_default] in Hg.
      destruct (negb (fst r1 =? 42)).
      * cbn [ret fst snd]. rewrite Hg.
        repeat split; auto; try discriminate.
      * rewrite !bind_run. cbn [fst snd].
        match goal with |- context [read_next_frame host ?q] =>
          destruct (read_next_frame_outcome host q) as (He & _ & Hgood);
          set (r := read_next_frame host q) in *
        end.
        cbv zeta in He, Hgood.
        repeat split; auto; try discriminate.
        -- intros H. rewrite H in He. destruct He as [?|[?|?]]; discriminate.
        -- apply Hgood.
        -- apply Hgood.
    + cbn [fst snd good set_stream set_size set_system_byte_order ReaderPrivate_default].
      repeat split; auto; try discriminate.
  - cbn [fst snd good set_stream set_system_byte_order ReaderPrivate_default].
    repeat split; auto; try discriminate.
Qed.

(** ** The header *)

Lemma byte_val_inj a b : byte_val a = byte_val b -> a = b.
Proof.
  unfold byte_val. intros H. apply N2Z.inj in H.
  pose proof (Byte.of_to_N a) as Ha. pose proof (Byte.of_to_N b) as Hb.
  rewrite H in Ha. congruence.
Qed.

Lemma open_two_bytes host a b rest :
  open host (Some (a :: b :: rest)) ReaderPrivate_default
  = let p := mk_ReaderPrivate
               (mk_ReaderFile 0 0 (util.get_byte_order host) Unknown
                  (len (a :: b :: rest)) ReaderFrame_default
                  (mk_ifstream (a :: b :: rest) 2 false)) false in
    match mark_of a b with
    | None => (InvalidTiffByteOrder, p)
    | Some o =>
        (magic <- read host 2 ;;
         if negb (magic =? 42) then ret InvalidTiffMagicNumber
         else
           first <- read host 4 ;;
           (fun q => (tt, set_next_ifd_offset first (set_first_record_offset first q))) ;;;
           read_next_frame host) (set_file_byte_order o p)
    end.
Proof. reflexivity. Qed.

(** The mark the header test finds is the one the file declares. *)
Lemma header_mark a b rest o :
  declares (a :: b :: rest) o <-> mark_of a b = Some o.
Proof.
  unfold declares, mark_of.
  change (slice (a :: b :: rest) 0 2) with [a; b].
  destruct (byte_val a =? 0x49) eqn:Ea; destruct (byte_val b =? 0x49) eqn:Eb; cbn [andb].
  - apply Z.eqb_eq in Ea, Eb.
    apply (byte_val_inj a x49) in Ea. apply (byte_val_inj b x49) in Eb. subst.
    split.
    + intros [[-> _]|[_ H]]; [reflexivity | discriminate].
    + intros H. inversion H. left. split; reflexivity.
  - destruct (byte_val a =? 0x4D) eqn:Ea'; [apply Z.eqb_eq in Ea, Ea'; congruence|].
    cbn [andb]. split; [|discriminate].
    intros [[_ H]|[_ H]]; inversion H; subst; discriminate.
  - destruct (byte_val b =? 0x4D) eqn:Eb'; [apply Z.eqb_eq in Eb, Eb'; congruence|].
    rewrite andb_false_r. split; [|discriminate].
    intros [[_ H]|[_ H]]; inversion H; subst; discriminate.
  - destruct (byte_val a =? 0x4D) eqn:Ea'; destruct (byte_val b =? 0x4D) eqn:Eb'; cbn [andb].
    + apply Z.eqb_eq in Ea', Eb'.
      apply (byte_val_inj a x4d) in Ea'. apply (byte_val_inj b x4d) in Eb'. subst.
      split.
      * intros [[_ H]|[-> _]]; [discriminate | reflexivity].
      * intros H. inversion H. right. split; reflexivity.
    + split; [|discriminate].
      intros [[_ H]|[_ H]]; inversion H; subst; discriminate.
    + split; [|discriminate].
      intros [[_ H]|[_ H]]; inversion H; subst; discriminate.
    + split; [|discriminate].
      intros [[_ H]|[_ H]]; inversion H; subst; discriminate.
Qed.

(** What [read_next_frame] keeps, whatever it finds. *)
Lemma read_next_frame_keeps host p :
  0 <= next_ifd_offset (file p) ->
  let q := snd (read_next_frame host p) in
  first_record_offset (file q) = first_record_offset (file p)
  /\ system_byte_order (file q) = system_byte_order (file p)
  /\ file_byte_order (file q) = file_byte_order (file p)
  /\ size (file q) = size (file p)
  /\ contents (stream (file q)) = contents (stream (file p)).
Proof.
  intros H0 q. subst q.
  destruct (negb (next_ifd_offset (file p) =? 0)
            && (next_ifd_offset (file p) + 2 <? size (file p))) eqn:E.
  - apply andb_true_iff in E. destruct E as [E1 E2]. apply negb_true_iff in E1.
    destruct (read_next_frame_spec host p ltac:(lia) ltac:(lia)) as [Hs _].
    cbv zeta in Hs. destruct Hs as (?&?&?&?&?&?&?).
    cbn in *. repeat split; assumption.
  - unfold read_next_frame. cbn [set_current_frame file next_ifd_offset size].
    rewrite E. cbn. repeat split; reflexivity.
Qed.

(** X8.  [open] accepts a header exactly when it starts with [II] or [MM]
    followed by the number 42 in that byte order: any other first two bytes
    give [InvalidTiffByteOrder], any other number gives
    [InvalidTiffMagicNumber], and an accepted header leaves the first
    directory offset, read in the declared order, the declared order and
    the length of the file in the reader, on which [read_next_frame] has
    run.  This is so on every machine whose byte order [get_byte_order]
    recognises. *)
Theorem open_checks_header host dm bytes :
  abi.get_byte_order host dm = host_order host ->
  let r := open host (Some bytes) ReaderPrivate_default in
  (slice bytes 0 2 <> [x49; x49] -> slice bytes 0 2 <> [x4d; x4d] ->
   fst r = InvalidTiffByteOrder)
  /\ (forall o, declares bytes o -> 4 <= len bytes ->
        file_value o (slice bytes 2 2) <> 42 -> fst r = InvalidTiffMagicNumber)
  /\ (forall o, declares bytes o -> 8 <= len bytes ->
        file_value o (slice bytes 2 2) = 42 ->
        frame_error (fst r)
        /\ first_record_offset (file (snd r)) = file_value o (slice bytes 4 4)
        /\ file_byte_order (file (snd r)) = o
        /\ system_byte_order (file (snd r)) = host_order host
        /\ size (file (snd r)) = len bytes).
Proof.
  intros _ r. subst r.
  destruct bytes as [|a [|b rest]].
  - split; [reflexivity|]. split; intros o [[_ H]|[_ H]]; discriminate.
  - split; [|split; intros o [[_ H]|[_ H]]; discriminate].
    intros _ _. unfold open. cbv zeta.
    change (istream.read 2 _) with ([a], mk_ifstream [a] 1 true).
    cbv iota beta. cbn [app repeat length Nat.sub nth byte_val Byte.to_N Z.of_N].
    change (0 =? 73) with false. change (0 =? 77) with false.
    rewrite !andb_false_r. reflexivity.
  - rewrite open_two_bytes. cbv zeta.
    pose proof (header_mark a b rest) as Hmark.
    set (bytes := a :: b :: rest) in *.
    set (p := mk_ReaderPrivate _ false).
    assert (Hsys : util.get_byte_order host = host_order host) by (destruct host; reflexivity).
    assert (Hread : forall o, declares bytes o -> 4 <= len bytes ->
              read host 2 (set_file_byte_order o p)
              = (file_value o (slice bytes 2 2),
                 set_stream (mk_ifstream bytes 4 false) (set_file_byte_order o p))).
    { intros o Hd Hl.
      apply (read_value host 2 (set_file_byte_order o p) 2).
      - split; [exact Hsys|]. destruct Hd as [[-> _]|[-> _]]; [left|right]; reflexivity.
      - right; left; reflexivity.
      - split; reflexivity.
      - lia.
      - exact Hl. }
    split; [|split].
    + intros H1 H2.
      destruct (mark_of a b) as [o|] eqn:E; [|reflexivity].
      destruct (proj2 (Hmark o) eq_refl) as [[_ H]|[_ H]]; contradiction.
    + intros o Hd Hl Hm. rewrite (proj1 (Hmark o) Hd).
      rewrite bind_run, (Hread o Hd Hl). cbn [fst snd].
      destruct (file_value o (slice bytes 2 2) =? 42) eqn:E; [lia|]. reflexivity.
    + intros o Hd Hl Hm. rewrite (proj1 (Hmark o) Hd).
      rewrite bind_run, (Hread o Hd ltac:(lia)). cbn [fst snd].
      rewrite Hm. cbn [Z.eqb Pos.eqb negb].
      set (p1 := set_stream (mk_ifstream bytes 4 false) (set_file_byte_order o p)).
      assert (H4 : read host 4 p1
                   = (file_value o (slice bytes 4 4),
                      set_stream (mk_ifstream bytes 8 false) p1)).
      { apply (read_value host 4 p1 4).
        - split; [exact Hsys|]. destruct Hd as [[-> _]|[-> _]]; [left|right]; reflexivity.
        - right; right; left; reflexivity.
        - split; reflexivity.
        - lia.
        - exact Hl. }
      pose proof (read_nonneg host 4 p1) as Hnn. rewrite H4 in Hnn. cbn [fst] in Hnn.
      rewrite bind_run, H4. cbn [fst snd]. rewrite bind_run. cbn [fst snd].
      set (first := file_value o (slice bytes 4 4)) in *.
      set (q := set_next_ifd_offset first _).
      destruct (read_next_frame_outcome host q) as (He & _ & _). cbv zeta in He.
      destruct (read_next_frame_keeps host q Hnn) as (K1 & K2 & K3 & K4 & _).
      cbv zeta in K1, K2, K3, K4.
      split; [exact He|]. split; [exact K1|]. split; [exact K3|]. split; [exact K2|exact K4].
Qed.

(** ** Directories cut by the end of the file *)

Lemma byte_swap_zero n : util.byte_swap n 0 = 0.
Proof.
  unfold util.byte_swap.
  destruct (n =? 8); [reflexivity|]. destruct (n =? 4); [reflexivity|].
  destruct (n =? 2); reflexivity.
Qed.

Lemma skipn_past_end {A} (l : list A) g :
  len l <= g -> skipn (Z.to_nat g) l = [].
Proof. unfold len. intros H. apply skipn_all2. lia. Qed.

(** Past the end of the file a healthy stream delivers nothing, and the
    value read is zero. *)
Lemma peek_past_end host p g n :
  len (contents (stream (file p))) <= g -> peek host p g n = 0.
Proof.
  intros H. unfold peek, read, istream.good, istream.read. cbn.
  rewrite skipn_past_end by exact H. rewrite firstn_nil. cbn [app length fst].
  fold (zeros (Z.to_nat n - 0)). rewrite load_zeros.
  unfold byte_swap_if_need. destruct (negb _); [apply byte_swap_zero | reflexivity].
Qed.

(** X9.  A directory whose entries run to the end of the file or beyond is
    taken for the last one, and the truncation is not reported: the trailing
    offset is read as zero, so [has_next_frame] is false afterwards, the
    stream is left failed, and the result is [NoError] unless the entries
    that were there differ in their bits per sample. *)
Theorem read_next_frame_on_cut_directory host p :
  let off := next_ifd_offset (file p) in
  0 < off -> off + 2 < size (file p) ->
  len (contents (stream (file p))) <= off + 2 + 12 * ifd_entry_count host p off ->
  let r := read_next_frame host p in
  (fst r = NoError \/ fst r = MultiSampleSizeNotSupport)
  /\ next_ifd_offset (file (snd r)) = 0
  /\ failbit (stream (file (snd r))) = true
  /\ Reader_has_next_frame (snd r) = false.
Proof.
  intros off H0 H2 Hcut r.
  destruct (read_next_frame_outcome host p) as (He & Hno & _). cbv zeta in He, Hno.
  destruct (read_next_frame_spec host p H0 H2) as [Hs Hst]. cbv zeta in Hs, Hst.
  fold off in Hs, Hst. fold r in He, Hno, Hs, Hst.
  assert (Hnext : next_ifd_offset (file (snd r)) = 0).
  { destruct Hs as (_ & Hn & _). rewrite Hn. cbn.
    unfold ifd_next. apply peek_past_end. exact Hcut. }
  split; [|split; [exact Hnext|split]].
  - destruct He as [?|[?|He]]; auto.
    apply Hno in He. fold off in He. lia.
  - rewrite Hst. unfold istream.read. cbn [failbit contents gptr].
    rewrite skipn_past_end by exact Hcut. rewrite firstn_nil. reflexivity.
  - unfold Reader_has_next_frame. rewrite Hnext. cbn [Z.ltb Z.compare].
    rewrite andb_false_r. reflexivity.
Qed.

(** ** Walking the frames *)

(** X10.  A call of the public [read_next_frame] that does not return
    [NoError] ends the walk: [has_next_frame] is false afterwards.  When the
    call got as far as the directory, the reader is not [good] any more:
    [count_frames] answers 0 and [get_sample_data] answers
    [ReaderIsNotGoodYet] with an empty vector, both leaving the reader as it
    is. *)
Theorem error_ends_the_walk host dm p :
  let r := Reader_read_next_frame host p in
  fst r <> NoError ->
  Reader_has_next_frame (snd r) = false
  /\ (Reader_has_next_frame p = true ->
      Reader_good (snd r) = false
      /\ (forall fuel, Reader_count_frames host fuel (snd r) = Some (0, snd r))
      /\ (forall sample err,
            Reader_get_sample_data host dm sample err (snd r)
            = Returned ([], ReaderIsNotGoodYet, snd r))).
Proof.
  intros r He. subst r. unfold Reader_read_next_frame in *.
  destruct (Reader_has_next_frame p) eqn:Eh; cbn [negb] in *.
  - assert (Hg : good (snd (read_next_frame host p)) = false).
    { rewrite read_next_frame_good.
      destruct (fst (read_next_frame host p)); try reflexivity. contradiction. }
    split; [unfold Reader_has_next_frame; rewrite Hg; reflexivity|].
    intros _. split; [exact Hg|]. split.
    + intros fuel. unfold Reader_count_frames. rewrite Hg. reflexivity.
    + intros sample err. unfold Reader_get_sample_data. rewrite Hg. reflexivity.
  - split; [exact Eh | discriminate].
Qed.

(** X11.  [has_next_frame] asks for one byte of the file at the next offset,
    [read_next_frame] for room for the entry count: when the next offset
    points at the last two bytes of the file, [has_next_frame] is true and
    the call of [read_next_frame] it allows returns [NoMoreImagesInTiff],
    having put the default frame in place of the current one and cleared
    [good]. *)
Theorem has_next_frame_without_a_count host p :
  Reader_has_next_frame p = true ->
  size (file p) <= next_ifd_offset (file p) + 2 ->
  Reader_read_next_frame host p
  = (NoMoreImagesInTiff, set_good false (set_current_frame ReaderFrame_default p)).
Proof.
  intros Hh Hs. unfold Reader_read_next_frame. rewrite Hh. cbn [negb].
  unfold read_next_frame. cbn [set_current_frame file next_ifd_offset size].
  destruct (next_ifd_offset (file p) + 2 <? size (file p)) eqn:E; [lia|].
  rewrite andb_false_r. reflexivity.
Qed.

(** X12.  The frame [read_next_frame] builds depends on the file and on the
    offset of the directory only: two readers that differ in the frame they
    hold and in the state of their stream get the same result, the same
    frame and the same next offset. *)
Theorem read_next_frame_forgets_the_frame host p q :
  same_session p q -> 0 <= next_ifd_offset (file p) ->
  fst (read_next_frame host q) = fst (read_next_frame host p)
  /\ current_frame (file (snd (read_next_frame host q)))
     = current_frame (file (snd (read_next_frame host p)))
  /\ next_ifd_offset (file (snd (read_next_frame host q)))
     = next_ifd_offset (file (snd (read_next_frame host p))).
Proof.
  intros Hs H0. pose proof Hs as (_ & Hn & _ & _ & Hz & _ & _).
  destruct (negb (next_ifd_offset (file p) =? 0)
            && (next_ifd_offset (file p) + 2 <? size (file p))) eqn:E.
  - apply andb_true_iff in E. destruct E as [E1 E2]. apply negb_true_iff in E1.
    rewrite (read_next_frame_same_session host p q Hs) by lia.
    repeat split; reflexivity.
  - unfold read_next_frame. cbn [set_current_frame file next_ifd_offset size].
    rewrite Hn, Hz, E. cbn. repeat split. exact Hn.
Qed.

(** ** [count_frames] on its own *)

(** A value read depends on the stream and on the two byte orders, and on
    nothing else in the reader. *)
Lemma read_same host n p q :
  same_bytes p q -> stream (file q) = stream (file p) ->
  fst (read host n q) = fst (read host n p)
  /\ stream (file (snd (read host n q))) = stream (file (snd (read host n p))).
Proof.
  intros (Hs & Hf & _) Hst. rewrite !read_snd. unfold read, byte_swap_if_need.
  rewrite Hst, Hs, Hf.
  destruct (istream.good (stream (file p))); [|split; [reflexivity|exact Hst]].
  destruct (istream.read n (stream (file p))); split; reflexivity.
Qed.

Lemma same_bytes_set_stream p q st :
  same_bytes p q -> contents st = contents (stream (file p)) ->
  same_bytes p (set_stream st q).
Proof. intros (?&?&?) Hc. repeat split; cbn; assumption. Qed.

Lemma same_bytes_refl p : same_bytes p p.
Proof. repeat split; reflexivity. Qed.

(** One pass of the loop of [count_frames], on two readers of the same
    file: the offset read is the same. *)
Lemma count_frames_pass_same host p q off :
  same_bytes p q -> 0 < off ->
  fst ((stream_clear ;;;
        stream_seekg off ;;;
        c <- read host 2 ;;
        stream_seekg_cur (u16 (c * 12)) ;;;
        read host 4) q)
  = fst ((stream_clear ;;;
          stream_seekg off ;;;
          c <- read host 2 ;;
          stream_seekg_cur (u16 (c * 12)) ;;;
          read host 4) p).
Proof.
  intros Hb H0. pose proof Hb as (_ & _ & Hc).
  rewrite !bind_run. unfold stream_clear, stream_seekg, stream_seekg_cur.
  cbn [fst snd]. change (stream (file (set_stream ?s ?x))) with s.
  rewrite !seekg_clear by lia. rewrite Hc.
  set (st := mk_ifstream (contents (stream (file p))) off false).
  set (pa := set_stream st (set_stream (istream.clear (stream (file p))) p)).
  set (qa := set_stream st (set_stream (istream.clear (stream (file q))) q)).
  assert (Ba : same_bytes pa qa).
  { destruct Hb as (?&?&?). repeat split; cbn; assumption. }
  destruct (read_same host 2 pa qa Ba eq_refl) as [Hv Hs].
  rewrite Hv.
  set (c := fst (read host 2 pa)).
  set (pb := set_stream _ (snd (read host 2 pa))).
  set (qb := set_stream _ (snd (read host 2 qa))).
  assert (Bb : same_bytes pb qb).
  { pose proof (stream_only_read host 2 pa) as [Sp _].
    pose proof (stream_only_read host 2 qa) as [Sq _].
    apply same_session_bytes in Sp, Sq.
    destruct Ba as (?&?&?), Sp as (?&?&?), Sq as (?&?&?).
    unfold same_bytes, pb, qb.
    cbn [set_stream file system_byte_order file_byte_order stream].
    rewrite Hs. repeat split; congruence. }
  assert (Sb : stream (file qb) = stream (file pb)).
  { unfold pb, qb. cbn [set_stream file stream]. rewrite Hs. reflexivity. }
  apply (read_same host 4 pb qb Bb Sb).
Qed.

Lemma count_frames_pass_bytes host q off :
  same_bytes q (snd ((stream_clear ;;;
        stream_seekg off ;;;
        c <- read host 2 ;;
        stream_seekg_cur (u16 (c * 12)) ;;;
        read host 4) q)).
Proof.
  assert (H : stream_only (stream_clear ;;;
            stream_seekg off ;;;
            c <- read host 2 ;;
            stream_seekg_cur (u16 (c * 12)) ;;;
            read host 4)).
  { repeat (first [ apply stream_only_bind; [ | intros ? ]
                  | apply stream_only_clear | apply stream_only_seekg
                  | apply stream_only_seekg_cur | apply stream_only_read ]). }
  apply same_session_bytes, H.
Qed.

Lemma count_frames_loop_same host fuel : forall off frames p q,
  same_bytes p q ->
  option_map fst (count_frames_loop host fuel off frames q)
  = option_map fst (count_frames_loop host fuel off frames p).
Proof.
  induction fuel as [|fuel IH]; intros off frames p q Hb; cbn [count_frames_loop];
    destruct (0 <? off) eqn:E; try reflexivity.
  pose proof (count_frames_pass_same host p q off Hb ltac:(lia)) as Hv.
  pose proof (count_frames_pass_bytes host p off) as Bp.
  pose proof (count_frames_pass_bytes host q off) as Bq.
  destruct ((stream_clear ;;; _) q) as [nq q1].
  destruct ((stream_clear ;;; _) p) as [np p1].
  cbn [fst snd] in *. subst nq.
  apply IH.
  eapply same_bytes_trans; [apply same_bytes_sym; exact Bp|].
  eapply same_bytes_trans; [exact Hb | exact Bq].
Qed.

(** X13.  [count_frames] always starts from the first directory: on a good
    reader its answer depends on the file only, not on the frame the reader
    holds, on the next offset or on where the stream stands, so it is the
    same before and after any number of frames has been read. *)
Theorem count_frames_ignores_the_walk host fuel p q :
  same_file p q -> good p = true -> good q = true ->
  option_map fst (Reader_count_frames host fuel q)
  = option_map fst (Reader_count_frames host fuel p).
Proof.
  intros [Hb Hf] Hp Hq. unfold Reader_count_frames. rewrite Hp, Hq, Hf.
  pose proof (count_frames_loop_same host fuel (first_record_offset (file p)) 0 p q Hb) as H.
  destruct (count_frames_loop host fuel _ 0 q) as [[nq q1]|];
    destruct (count_frames_loop host fuel _ 0 p) as [[np p1]|];
    cbn [option_map fst] in *; congruence.
Qed.

Lemma count_frames_loop_endless host p fuel : forall off frames q,
  same_bytes p q ->
  (forall k, directory_inside host p (nth_directory host p off k)) ->
  count_frames_loop host fuel off frames q = None.
Proof.
  induction fuel as [|fuel IH]; intros off frames q Hb Hin;
    destruct (Hin 0%nat) as (H0 & Hl & H16); unfold nth_directory in H0, Hl, H16;
    cbn [Nat.iter nat_rect] in H0, Hl, H16;
    cbn [count_frames_loop]; destruct (0 <? off) eqn:E; try lia.
  { reflexivity. }
  pose proof (count_frames_step host p q off Hb H0 Hl H16) as [Hn Hm].
  destruct ((stream_clear ;;; _) q) as [next q1]. cbn [fst snd] in Hn, Hm. subst next.
  apply IH.
  - eapply same_bytes_trans; [exact Hb | apply same_session_bytes, Hm].
  - intros k. specialize (Hin (S k)). unfold nth_directory in *.
    rewrite Nat.iter_succ_r in Hin. exact Hin.
Qed.

(** X14.  [count_frames] follows the trailing offsets until it meets a zero
    and keeps no record of where it has been: on a good reader whose chain
    of directories never ends, as when a directory names itself or an
    earlier one as its successor, the loop runs for ever, whatever number of
    passes it is given. *)
Theorem count_frames_never_returns_on_a_cycle host p :
  good p = true ->
  (forall k, directory_inside host p
               (nth_directory host p (first_record_offset (file p)) k)) ->
  forall fuel, Reader_count_frames host fuel p = None.
Proof.
  intros Hg Hin fuel. unfold Reader_count_frames. rewrite Hg.
  rewrite (count_frames_loop_endless host p fuel _ 0 p (same_bytes_refl p) Hin).
  reflexivity.
Qed.

(** ** What [get_sample_data] hands back *)

Lemma sample_value_width host bps buffer i t :
  bps = 8 \/ bps = 16 \/ bps = 32 \/ bps = 64 ->
  sample_value host bps buffer i = Returned t -> variant_width t = bps.
Proof.
  intros Hb. unfold sample_value.
  destruct Hb as [->|[->|[->| ->]]]; cbn [Z.eqb Pos.eqb]; intros H;
    apply obind_Returned in H; destruct H as (v & _ & H); inversion H; reflexivity.
Qed.

Lemma materialize_inv host bps buffer :
  bps = 8 \/ bps = 16 \/ bps = 32 \/ bps = 64 ->
  forall n i result r,
    materialize host n bps buffer i result = Returned r ->
    exists res, r = result ++ res /\ length res = n
                /\ Forall (fun t => variant_width t = bps) res.
Proof.
  intros Hb. induction n as [|n IH]; intros i result r H.
  - cbn in H. inversion H. exists []. rewrite app_nil_r. repeat split. constructor.
  - cbn [materialize] in H. apply obind_Returned in H. destruct H as (t & Ht & H).
    apply IH in H. destruct H as (res & -> & Hl & Hw).
    exists (t :: res). rewrite <- app_assoc. cbn [app length].
    split; [reflexivity|]. split; [congruence|].
    constructor; [|exact Hw]. eapply sample_value_width; eauto.
Qed.

Lemma precondition_error_refusal fr e : precondition_error fr = Some e -> refusal e.
Proof.
  unfold precondition_error, refusal.
  repeat match goal with
    | |- context [if ?b then _ else _] => destruct b
    end; intros H; inversion H; auto 10.
Qed.

Lemma u32_range x : 0 <= u32 x < 2 ^ 32.
Proof. unfold u32, wrap. apply Z.mod_pos_bound. lia. Qed.

(** X15.  Whenever [get_sample_data] returns, it either refuses the frame,
    with an empty vector, the reader untouched and one of seven errors
    ([ReaderIsNotGoodYet] exactly when the reader is not good), or it returns
    [NoError] with [width * height] values, the product taken in 32 bits,
    each of the storage width that [bits_per_sample()] reports, which is 8,
    16, 32 or 64. *)
Theorem get_sample_data_shape host dm sample err p res e p' :
  Reader_get_sample_data host dm sample err p = Returned (res, e, p') ->
  let fr := current_frame (file p) in
  (e = ReaderIsNotGoodYet <-> good p = false)
  /\ ((refusal e /\ res = [] /\ p' = p)
      \/ (e = NoError
          /\ len res = u32 (width fr * height fr)
          /\ In (Reader_bits_per_sample p) [8; 16; 32; 64]
          /\ Forall (fun t => variant_width t = Reader_bits_per_sample p) res)).
Proof.
  intros H fr. unfold Reader_get_sample_data in H.
  destruct (good p) eqn:Eg.
  - unfold get_sample_data_internal in H. fold fr in H. cbv zeta in H.
    destruct (precondition_error fr) as [e0|] eqn:Ep.
    + inversion H; subst. pose proof (precondition_error_refusal fr e Ep) as Hr.
      split.
      * split; [|discriminate]. intros ->. revert Ep. unfold precondition_error.
        repeat match goal with
          | |- context [if ?b then _ else _] => destruct b
          end; discriminate.
      * left. repeat split. exact Hr.
    + apply obind_Returned in H. destruct H as ([[b st] e1] & _ & H).
      apply obind_Returned in H. destruct H as (r & Hm & H).
      inversion H; subst. clear H.
      destruct (precondition_error_None fr Ep) as (_ & _ & Hb).
      split; [split; discriminate|]. right.
      destruct (materialize_inv host _ b Hb _ _ _ _ Hm) as (res' & -> & Hl & Hw).
      cbn [app].
      assert (Hbps : Reader_bits_per_sample p = bits_per_sample fr).
      { unfold Reader_bits_per_sample. fold fr.
        destruct Hb as [->|[->|[->| ->]]]; reflexivity. }
      rewrite Hbps. split; [reflexivity|]. split.
      * unfold len. rewrite Hl. pose proof (u32_range (width fr * height fr)). lia.
      * split; [|exact Hw].
        destruct Hb as [->|[->|[->| ->]]]; cbn; auto.
  - inversion H; subst. split; [split; reflexivity|].
    left. unfold refusal. auto.
Qed.

(** ** The values of the samples *)

Lemma sample_value_at host bps buffer i :
  bps = 8 \/ bps = 16 \/ bps = 32 \/ bps = 64 ->
  (i + 1) * (bps / 8) <= len buffer ->
  sample_value host bps buffer i = Returned (sample_at host bps buffer i).
Proof.
  intros Hb Hl. unfold sample_value, sample_at, slice.
  destruct Hb as [->|[->|[->| ->]]]; cbn [Z.eqb Pos.eqb];
    match type of Hl with context [?b / 8] =>
      let v := eval cbv in (b / 8) in change (b / 8) with v in *
    end;
    rewrite element_Returned by exact Hl; reflexivity.
Qed.

Lemma materialize_values host bps buffer :
  bps = 8 \/ bps = 16 \/ bps = 32 \/ bps = 64 ->
  forall n i result,
    0 <= i -> (i + Z.of_nat n) * (bps / 8) <= len buffer ->
    materialize host n bps buffer i result
    = Returned (result ++ map (fun j => sample_at host bps buffer (i + Z.of_nat j)) (seq 0 n)).
Proof.
  intros Hb. induction n as [|n IH]; intros i result Hi Hl.
  - cbn. rewrite app_nil_r. reflexivity.
  - cbn [materialize].
    assert (Hk : 0 < bps / 8) by (destruct Hb as [->|[->|[->| ->]]]; reflexivity).
    rewrite sample_value_at by (try assumption; nia). cbn [obind].
    rewrite IH by (try lia; nia).
    rewrite <- app_assoc. cbn [app seq map]. rewrite Z.add_0_r.
    do 3 f_equal. rewrite <- seq_shift, map_map.
    apply map_ext. intros j. f_equal. lia.
Qed.

(** ** Gathering the strips *)

Lemma splice_nil B out : splice B out [] = B.
Proof. unfold splice. cbn [app length]. rewrite Nat.add_0_r. apply firstn_skipn. Qed.

Lemma splice_splice B out X Y :
  0 <= out -> out <= len B ->
  splice (splice B out X) (out + len X) Y = splice B out (X ++ Y).
Proof.
  intros H0 Hle. unfold splice, len in *.
  replace (Z.to_nat (out + Z.of_nat (length X))) with (Z.to_nat out + length X)%nat by lia.
  assert (Ha : (Z.to_nat out <= length B)%nat) by lia.
  generalize dependent (Z.to_nat out). intros a Ha.
  set (P := firstn a B ++ X). set (Q := skipn (a + length X) B).
  assert (HP : length P = (a + length X)%nat).
  { unfold P. rewrite length_app, length_firstn, Nat.min_l by exact Ha. reflexivity. }
  replace (firstn a B ++ X ++ Q) with (P ++ Q) by (unfold P; rewrite app_assoc; reflexivity).
  rewrite <- HP at 1. rewrite firstn_app, firstn_all, Nat.sub_diag. cbn [firstn].
  rewrite app_nil_r.
  rewrite skipn_app, (skipn_all2 P) by lia. cbn [app].
  unfold Q. rewrite skipn_skipn. unfold P. rewrite <- !app_assoc.
  do 4 f_equal. fold P. rewrite HP, length_app. lia.
Qed.

Lemma window_app s e f D R :
  window s e f (D ++ R) = window s e f D ++ window s e (f + len D) R.
Proof.
  unfold window, len.
  rewrite skipn_app, firstn_app, length_skipn. f_equal. f_equal; [lia|].
  f_equal. lia.
Qed.

Lemma window_slice s e f bytes o c :
  0 <= o -> 0 <= f ->
  window s e f (slice bytes o c)
  = slice bytes (o + (Z.max s f - f)) (Z.min e (f + c) - Z.max s f).
Proof.
  intros Ho Hf. unfold window, slice.
  rewrite skipn_firstn_comm, skipn_skipn, firstn_firstn.
  f_equal; [lia|]. f_equal. lia.
Qed.

Lemma slice_empty bytes g n : n <= 0 -> slice bytes g n = [].
Proof. intros H. unfold slice. replace (Z.to_nat n) with 0%nat by lia. reflexivity. Qed.

Lemma nth_error_combine {A B} (a : list A) (b : list B) : forall k x y,
  nth_error (combine a b) k = Some (x, y) ->
  nth_error a k = Some x /\ nth_error b k = Some y.
Proof.
  revert b. induction a as [|a0 a IH]; intros [|b0 b] [|k] x y H; cbn in *;
    try discriminate.
  - inversion H. split; reflexivity.
  - apply IH. exact H.
Qed.

Lemma firstn_skipn_cons {A} (l : list A) n k x L :
  firstn (S n) (skipn k l) = x :: L ->
  nth_error l k = Some x /\ L = firstn n (skipn (S k) l).
Proof.
  revert k. induction l as [|a l IH]; intros [|k] H; cbn in *.
  - discriminate.
  - discriminate.
  - inversion H. split; reflexivity.
  - apply IH. exact H.
Qed.

Lemma total_cons x l : total (x :: l) = x + total l.
Proof. reflexivity. Qed.

Lemma seek_target dm o d :
  0 <= o -> 0 <= d -> o + d < 2 ^ 32 ->
  to_streamoff (wrap (ulong_bits dm) (o + wrap (ulong_bits dm) d)) = o + d.
Proof.
  intros Ho Hd Hs. unfold wrap, to_streamoff.
  assert (Hw : 2 ^ 32 <= 2 ^ ulong_bits dm <= 2 ^ 64) by (destruct dm; cbn; lia).
  rewrite (Z.mod_small d) by lia. rewrite Z.mod_small by lia.
  destruct (o + d <? 2 ^ 63) eqn:E; lia.
Qed.

Lemma read_whole n st :
  failbit st = false -> 0 <= gptr st -> 0 <= n -> gptr st + n <= len (contents st) ->
  istream.read n st
  = (slice (contents st) (gptr st) n, mk_ifstream (contents st) (gptr st + n) false).
Proof.
  intros Hf Hg Hn Hb.
  pose proof (len_slice (contents st) (gptr st) n Hg Hn Hb) as Hl.
  unfold istream.read. rewrite Hf. fold (slice (contents st) (gptr st) n).
  unfold len in Hl. rewrite Hl, Z.ltb_irrefl. reflexivity.
Qed.

(** The strip loop of the planar case, on strips that lie inside the
    file: it stores, from [out] on, the part of the remaining strips that
    falls in the window of the sample, and reports no error of its own. *)
Lemma planar_strips_gather dm fr bytes s e :
  0 <= s <= e -> e < 2 ^ 32 ->
  forall n strip f out B st err L,
    L = firstn n (skipn (Z.to_nat strip)
                    (combine (strip_offsets fr) (strip_byte_counts fr))) ->
    contents st = bytes ->
    0 <= strip -> length L = n -> Forall (strip_inside bytes) L ->
    0 <= f -> (e - s) + f + total (map snd L) < 2 ^ 32 ->
    len B = e - s -> out = Z.max 0 (Z.min f e - s) ->
    exists st',
      planar_strips dm n fr s e strip f out B st err
      = Returned (splice B out (window s e f (concat (map (strip_bytes bytes) L))),
                  st', err)
      /\ contents st' = bytes.
Proof.
  intros Hs He. induction n as [|n IH];
    intros strip f out B st err L HL Hst H0 Hlen Hin Hf Hsum HB Hout.
  - destruct L; [|discriminate]. cbn [planar_strips map concat].
    exists st. split; [|exact Hst]. unfold window. rewrite skipn_nil, firstn_nil.
    rewrite splice_nil. reflexivity.
  - destruct L as [|[o c] L']; [discriminate|].
    symmetry in HL. apply firstn_skipn_cons in HL. destruct HL as [Hnth HL'].
    apply nth_error_combine in Hnth. destruct Hnth as [Ho Hc].
    pose proof (Forall_inv Hin) as (Io & Ic & Il & I32). cbn [fst snd] in Io, Ic, Il, I32.
    pose proof (Forall_inv_tail Hin) as Hin'.
    cbn [map total fold_right snd] in Hsum. fold (total (map snd L')) in Hsum.
    assert (Ht : 0 <= total (map snd L')).
    { apply total_nonneg. clear -Hin'. induction Hin' as [|x l Hx Hl IH']; cbn [map];
        constructor; [apply Hx | exact IH']. }
    cbn [planar_strips]. unfold vec_at. rewrite Hc, Ho. cbn [obind].
    rewrite (u32_small (f + c)) by lia.
    cbn [map concat]. unfold strip_bytes at 1. cbn [fst snd].
    rewrite window_app, (len_slice bytes o c Io Ic Il).
    rewrite (window_slice s e f bytes o c Io Hf).
    assert (Hul : 2 ^ 32 <= 2 ^ ulong_bits dm) by (destruct dm; cbn; lia).
    rewrite (do_ranges_overlap_ordered dm s e f (f + c)) by lia.
    replace (Z.to_nat (strip + 1)) with (S (Z.to_nat strip)) in * by lia.
    assert (Hlen' : length L' = n) by (cbn in Hlen; lia).
    destruct (Z.max s f <? Z.min e (f + c)) eqn:E.
    + cbn [fst snd].
      set (cnt := Z.min e (f + c) - Z.max s f) in *.
      set (d := Z.max s f - f) in *.
      assert (Hcnt : u32 (wrap (ulong_bits dm) cnt) = cnt).
      { unfold wrap. rewrite Z.mod_small by lia. apply u32_small. lia. }
      rewrite Hcnt.
      replace (wrap (ulong_bits dm) (o + wrap (ulong_bits dm) (Z.max s f - f)))
        with (wrap (ulong_bits dm) (o + wrap (ulong_bits dm) d)) by reflexivity.
      rewrite (seek_target dm o d) by lia.
      rewrite seekg_clear by lia. rewrite Hst.
      unfold read_into.
      rewrite read_whole by (cbn [failbit gptr contents]; lia).
      cbn [contents gptr].
      pose proof (len_slice bytes (o + d) cnt ltac:(lia) ltac:(lia) ltac:(lia)) as Hgot.
      rewrite Hgot.
      destruct (out + cnt <=? len B) eqn:Efit; [|lia].
      cbn [obind]. rewrite Z.eqb_refl.
      rewrite (u32_small (out + cnt)) by lia.
      destruct (IH (strip + 1) (f + c) (out + cnt) (splice B out (slice bytes (o + d) cnt))
                  (mk_ifstream bytes (o + d + cnt) false) err L')
        as (st' & Hrec & Hc'); try assumption; try reflexivity; try lia.
      { replace (Z.to_nat (strip + 1)) with (S (Z.to_nat strip)) by lia. exact HL'. }
      { rewrite splice_length; lia. }
      exists st'. split; [|exact Hc']. rewrite Hrec.
      replace (out + cnt) with (out + len (slice bytes (o + d) cnt)) by lia.
      rewrite splice_splice by lia. reflexivity.
    + rewrite (slice_empty bytes _ (Z.min e (f + c) - Z.max s f)) by lia.
      cbn [app].
      destruct (e <? f) eqn:Ebreak.
      * exists st. split; [|exact Hst].
        unfold window. replace (Z.to_nat (e - Z.max s (f + c))) with 0%nat by lia.
        cbn [firstn]. rewrite splice_nil. reflexivity.
      * destruct (IH (strip + 1) (f + c) out B st err L')
          as (st' & Hrec & Hc'); try assumption; try lia.
        { replace (Z.to_nat (strip + 1)) with (S (Z.to_nat strip)) by lia. exact HL'. }
        exists st'. split; [exact Hrec | exact Hc'].
Qed.

Lemma length_strips fr :
  0 <= strip_count fr ->
  strip_count fr <= len (strip_offsets fr) ->
  strip_count fr <= len (strip_byte_counts fr) ->
  length (strips fr) = Z.to_nat (strip_count fr).
Proof.
  unfold strips, len. intros H0 Ho Hc.
  rewrite length_firstn, length_combine. lia.
Qed.

Lemma splice_zeros_front n W :
  (length W <= n)%nat -> splice (zeros n) 0 W = W ++ zeros (n - length W).
Proof.
  intros H. unfold splice. cbn [Z.to_nat firstn app Nat.add].
  rewrite skipn_zeros. reflexivity.
Qed.

Lemma length_slice_le bytes g n : 0 <= n -> (length (slice bytes g n) <= Z.to_nat n)%nat.
Proof. intros H. unfold slice. rewrite length_firstn. lia. Qed.

(** The planar path as a whole, on a frame whose strips lie inside the
    file. *)
Lemma fill_buffer_planar host dm sample err p :
  let fr := current_frame (file p) in
  let bytes := contents (stream (file p)) in
  let size := u32 (width fr * height fr * bits_per_sample fr) / 8 in
  samples_per_pixel fr = 1 \/ planar_config fr = PlanarConfiguration.Planar ->
  0 < strip_count fr ->
  strip_count fr <= len (strip_offsets fr) ->
  strip_count fr <= len (strip_byte_counts fr) ->
  Forall (strip_inside bytes) (strips fr) ->
  0 <= sample ->
  (sample + 1) * size + total (map snd (strips fr)) < 2 ^ 32 ->
  exists st',
    fill_buffer host dm sample err p
    = Returned (slice (image_bytes bytes fr) (sample * size) size
                ++ zeros (Z.to_nat size
                          - length (slice (image_bytes bytes fr) (sample * size) size)),
                st', err)
    /\ contents st' = bytes.
Proof.
  intros fr bytes size Hlay Hsc Hso Hsb Hin Hs Hsum.
  assert (Hsz : 0 <= size).
  { unfold size. apply Z.div_pos; [|lia]. apply u32_range. }
  assert (Ht : 0 <= total (map snd (strips fr))).
  { apply total_nonneg. clear -Hin. induction Hin as [|x l Hx Hl IH]; cbn [map];
      constructor; [apply Hx | exact IH]. }
  unfold fill_buffer. fold fr. fold size. cbv zeta.
  destruct (0 <? strip_count fr) eqn:E0; [|lia].
  rewrite !nonempty_len by lia. cbn [andb].
  replace ((samples_per_pixel fr =? 1) || (planar_config fr =? PlanarConfiguration.Planar))
    with true by (symmetry; apply orb_true_iff; destruct Hlay; [left|right]; lia).
  rewrite (u32_small (sample * size)) by nia.
  rewrite (u32_small (sample * size + size)) by nia.
  fold (zeros (Z.to_nat size)).
  destruct (planar_strips_gather dm fr bytes (sample * size) (sample * size + size)
              ltac:(nia) ltac:(nia) (Z.to_nat (strip_count fr)) 0 0 0
              (zeros (Z.to_nat size)) (stream (file p)) err (strips fr))
    as (st' & Hr & Hc); try reflexivity; try lia.
  - apply length_strips; lia.
  - exact Hin.
  - rewrite len_zeros. lia.
  - exists st'. split; [|exact Hc]. rewrite Hr. do 3 f_equal.
    fold (image_bytes bytes fr).
    assert (Hw : window (sample * size) (sample * size + size) 0 (image_bytes bytes fr)
                 = slice (image_bytes bytes fr) (sample * size) size).
    { unfold window, slice. f_equal; [|f_equal]; nia. }
    rewrite Hw. apply splice_zeros_front. apply length_slice_le. exact Hsz.
Qed.

(** X16.  The planar path fills the buffer with the bytes of the strips:
    for a frame of one sample per pixel, or of planar layout, whose strips
    lie inside the file, the buffer holds the window of the requested sample
    in the image data (the strips of the frame one after the other), padded
    with zeros where the strips end early, and [err] is left as it was, for
    any number of strips of any sizes. *)
Theorem planar_path_gathers_the_strips host dm sample err p :
  let fr := current_frame (file p) in
  let bytes := contents (stream (file p)) in
  let size := u32 (width fr * height fr * bits_per_sample fr) / 8 in
  samples_per_pixel fr = 1 \/ planar_config fr = PlanarConfiguration.Planar ->
  0 < strip_count fr ->
  strip_count fr <= len (strip_offsets fr) ->
  strip_count fr <= len (strip_byte_counts fr) ->
  Forall (strip_inside bytes) (strips fr) ->
  0 <= sample ->
  (sample + 1) * size + total (map snd (strips fr)) < 2 ^ 32 ->
  exists st',
    fill_buffer host dm sample err p
    = Returned (slice (image_bytes bytes fr) (sample * size) size
                ++ zeros (Z.to_nat size
                          - length (slice (image_bytes bytes fr) (sample * size) size)),
                st', err)
    /\ contents st' = bytes.
Proof. apply fill_buffer_planar. Qed.

Lemma get_sample_data_image host dm sample err p :
  let fr := current_frame (file p) in
  let bytes := contents (stream (file p)) in
  let size := width fr * height fr * (bits_per_sample fr / 8) in
  good p = true ->
  precondition_error fr = None ->
  0 <= width fr -> 0 <= height fr ->
  width fr * height fr * bits_per_sample fr < 2 ^ 32 ->
  samples_per_pixel fr = 1 \/ planar_config fr = PlanarConfiguration.Planar ->
  0 < strip_count fr ->
  strip_count fr <= len (strip_offsets fr) ->
  strip_count fr <= len (strip_byte_counts fr) ->
  Forall (strip_inside bytes) (strips fr) ->
  0 <= sample ->
  (sample + 1) * size + total (map snd (strips fr)) < 2 ^ 32 ->
  (sample + 1) * size <= len (image_bytes bytes fr) ->
  exists p',
    Reader_get_sample_data host dm sample err p
    = Returned (samples_of host (bits_per_sample fr)
                  (slice (image_bytes bytes fr) (sample * size) size)
                  (Z.to_nat (width fr * height fr)),
                NoError, p').
Proof.
  intros fr bytes size Hgood Hpre Hw Hh Hfit Hlay Hsc Hso Hsb Hin Hs Hsum Hdata.
  destruct (precondition_error_None fr Hpre) as (Hw0 & Hh0 & Hb).
  destruct (bps_bytes _ Hb) as [Hk8 Hkpos].
  assert (Hsize : u32 (width fr * height fr * bits_per_sample fr) / 8 = size).
  { rewrite u32_small by nia. unfold size.
    set (k := bits_per_sample fr / 8) in *.
    replace (width fr * height fr * bits_per_sample fr) with (width fr * height fr * k * 8)
      by (rewrite Hk8; ring).
    apply Z.div_mul. lia. }
  assert (Hsz : 0 <= size) by (unfold size; nia).
  destruct (fill_buffer_planar host dm sample err p Hlay Hsc Hso Hsb Hin Hs)
    as (st' & Hfill & Hc).
  { fold fr. rewrite Hsize. exact Hsum. }
  fold fr bytes in Hfill. rewrite Hsize in Hfill.
  set (data := slice (image_bytes bytes fr) (sample * size) size) in *.
  assert (Hld : len data = size) by (apply len_slice; nia).
  replace (Z.to_nat size - length data)%nat with 0%nat in Hfill by (unfold len in Hld; lia).
  cbn [zeros repeat] in Hfill. rewrite app_nil_r in Hfill.
  unfold Reader_get_sample_data. rewrite Hgood.
  unfold get_sample_data_internal. fold fr. rewrite Hpre. cbv zeta.
  rewrite Hfill. cbn [obind].
  rewrite (u32_small (width fr * height fr)) by nia.
  rewrite (materialize_values host (bits_per_sample fr) data Hb) by
    (try lia; rewrite Hld; unfold size; rewrite Z2Nat.id by nia; lia).
  cbn [app obind]. eexists. unfold samples_of. reflexivity.
Qed.

(** X17.  [get_sample_data] returns the image: for a good reader on a frame
    that passes the six checks, of one sample per pixel or of planar layout,
    whose strips lie inside the file and hold the requested sample, the
    values returned are the [width * height] integers of [bits_per_sample]
    bits that the image data holds in the window of that sample, each read
    in the byte order of the machine (the planar path does not swap bytes),
    with [NoError]. *)
Theorem get_sample_data_returns_the_image host dm sample err p :
  let fr := current_frame (file p) in
  let bytes := contents (stream (file p)) in
  let size := width fr * height fr * (bits_per_sample fr / 8) in
  good p = true ->
  precondition_error fr = None ->
  0 <= width fr -> 0 <= height fr ->
  width fr * height fr * bits_per_sample fr < 2 ^ 32 ->
  samples_per_pixel fr = 1 \/ planar_config fr = PlanarConfiguration.Planar ->
  0 < strip_count fr ->
  strip_count fr <= len (strip_offsets fr) ->
  strip_count fr <= len (strip_byte_counts fr) ->
  Forall (strip_inside bytes) (strips fr) ->
  0 <= sample ->
  (sample + 1) * size + total (map snd (strips fr)) < 2 ^ 32 ->
  (sample + 1) * size <= len (image_bytes bytes fr) ->
  exists p',
    Reader_get_sample_data host dm sample err p
    = Returned (samples_of host (bits_per_sample fr)
                  (slice (image_bytes bytes fr) (sample * size) size)
                  (Z.to_nat (width fr * height fr)),
                NoError, p').
Proof. exact (get_sample_data_image host dm sample err p). Qed.

(** ** Object representations, and [cast_as] *)

Lemma byte_val_of_val v : byte_val (byte_of_val v) = v mod 256.
Proof.
  unfold byte_val, byte_of_val.
  pose proof (Z.mod_pos_bound v 256 ltac:(lia)) as Hr.
  destruct (Byte.of_N (Z.to_N (v mod 256))) as [b|] eqn:E.
  - apply Byte.to_of_N in E. rewrite E. lia.
  - apply Byte.of_N_None_iff in E. lia.
Qed.

Lemma le_value_le_bytes n : forall v, le_value (le_bytes n v) = v mod 2 ^ (8 * Z.of_nat n).
Proof.
  induction n as [|n IH]; intros v.
  - cbn. rewrite Z.mod_1_r. reflexivity.
  - cbn [le_bytes le_value]. rewrite IH, byte_val_of_val.
    replace (8 * Z.of_nat (S n)) with (8 + 8 * Z.of_nat n) by lia.
    rewrite Z.pow_add_r by lia. change (2 ^ 8) with 256.
    rewrite Z.rem_mul_r by lia. reflexivity.
Qed.

(** Storing a value and loading it again gives the value, cut to the size
    of the object, on either kind of machine. *)
Lemma load_store h n v : load h (store h n v) = v mod 2 ^ (8 * Z.of_nat n).
Proof.
  destruct h; cbn [load store]; rewrite ?rev_involutive; apply le_value_le_bytes.
Qed.

(** X18.  [cast_as] from [uintN_t] to [intN_t] reads the value in two's
    complement, casting back gives the value again, and neither depends on
    the byte order of the machine; between two types of different sizes
    there is no [cast_as]. *)
Theorem cast_as_reinterprets h n v :
  (0 < n)%nat -> 0 <= v < 2 ^ (8 * Z.of_nat n) ->
  let w := 8 * Z.of_nat n in
  let signed := if v <? 2 ^ (w - 1) then v else v - 2 ^ w in
  cast_as h (UInt n) (SInt n) v = Some signed
  /\ cast_as h (SInt n) (UInt n) signed = Some v
  /\ cast_as h (UInt n) (UInt n) v = Some v
  /\ forall m t t', sizeof t <> sizeof t' -> cast_as h t t' m = None.
Proof.
  intros Hn Hv w signed. unfold cast_as, value_of, object_of. cbn [sizeof].
  rewrite Nat.eqb_refl, !load_store. fold w.
  change (0 <= v < 2 ^ w) in Hv.
  assert (Hw : 0 < w) by (unfold w; lia).
  clearbody w.
  assert (Hp : 2 ^ w = 2 * 2 ^ (w - 1)).
  { replace w with (1 + (w - 1)) at 1 by lia. rewrite Z.pow_add_r by lia. reflexivity. }
  assert (Hp1 : 0 < 2 ^ (w - 1)) by (apply Z.pow_pos_nonneg; lia).
  rewrite (Z.mod_small v) by lia. fold signed.
  split; [reflexivity|]. split; [|split; [reflexivity|]].
  - f_equal. unfold signed. destruct (v <? 2 ^ (w - 1)) eqn:E.
    + apply Z.mod_small. lia.
    + rewrite <- (Z.mod_add _ 1) by lia. rewrite Z.mul_1_l.
      replace (v - 2 ^ w + 2 ^ w) with v by lia. apply Z.mod_small. lia.
  - intros m t t' Hd. destruct (sizeof t =? sizeof t')%nat eqn:E; [|reflexivity].
    apply Nat.eqb_eq in E. contradiction.
Qed.

(** ** [read_ifd]: the entry at the cursor *)

Lemma positioned_refl p g : cursor_at p g -> positioned p p g.
Proof. intros H. split; [apply stream_moved_refl | exact H]. Qed.

Lemma positioned_orders host p0 q g :
  knows_orders host p0 -> positioned p0 q g -> knows_orders host q.
Proof.
  intros [K1 K2] [[(_&_&Hs&Hf&_) _] _]. split; [rewrite Hs; exact K1 | rewrite Hf; exact K2].
Qed.

(** A read in the middle of an operation: the value is the one the file
    stores at the cursor. *)
Lemma read_value_positioned host n p0 q g :
  knows_orders host p0 -> positioned p0 q g ->
  n = 1 \/ n = 2 \/ n = 4 \/ n = 8 ->
  0 <= g -> g + n <= len (contents (stream (file p0))) ->
  fst (read host n q)
  = file_value (file_byte_order (file p0)) (slice (contents (stream (file p0))) g n)
  /\ positioned p0 (snd (read host n q)) (g + n).
Proof.
  intros Hk Hp Hn Hg Hb. split.
  - pose proof (positioned_orders host p0 q g Hk Hp) as Hkq.
    pose proof (positioned_contents _ _ _ Hp) as Hc.
    destruct Hp as [[(_&_&Hs&Hf&_) _] Hcur].
    rewrite (read_value host n q g Hkq Hn Hcur Hg) by (rewrite Hc; exact Hb).
    cbn [fst]. rewrite Hf, Hc. reflexivity.
  - apply read_positioned; try assumption. lia.
Qed.

(** A reader is its session, its frame and its stream. *)
Lemma stream_moved_canon p q :
  stream_moved p q -> q = set_stream (stream (file q)) p.
Proof.
  destruct p as [[a b c d e fr st] gd], q as [[a' b' c' d' e' fr' st'] gd'].
  unfold stream_moved, same_session, set_stream; cbn.
  intros [(?&?&?&?&?&_&?) ?]. congruence.
Qed.

(** The reader after [read_ifd], for an entry inside the file. *)
Lemma read_ifd_state host p g :
  cursor_at p g -> 0 <= g -> g + 12 <= len (contents (stream (file p))) ->
  snd (read_ifd host p)
  = set_stream
      (mk_ifstream (contents (stream (file p)))
         (if empty_byte_entry (type (fst (read_ifd host p))) (count (fst (read_ifd host p)))
          then g + 8 else g + 12) false) p.
Proof.
  intros Hc Hg Hl.
  rewrite (stream_moved_canon p _ (stream_only_read_ifd host p)) at 1.
  rewrite (read_ifd_cursor host p g Hc Hg Hl). reflexivity.
Qed.

Lemma read_ifd_fst host p :
  fst (read_ifd host p)
  = let r1 := read host 2 p in
    let r2 := read host 2 (snd r1) in
    let r3 := read host 4 (snd r2) in
    let r := fst (read_ifd_values host (fst r2) (fst r3) (snd r3)) in
    mk_IFD (fst r1) (fst r2) (fst r3)
      (match fst (fst (fst r)) with [] => snd (fst r) | x :: _ => x end)
      (match snd (fst (fst r)) with [] => 0 | x :: _ => x end)
      (fst (fst (fst r))) (snd (fst (fst r))).
Proof.
  unfold read_ifd. rewrite !bind_run. unfold stream_tellg. cbn [fst snd].
  destruct (read_ifd_values host _ _ _) as [[[[pv pv2] v] pc] q]. cbn [fst snd].
  rewrite bind_run. reflexivity.
Qed.

Section Entry.

Variable host : Host.
Variable p0 : ReaderPrivate.
Hypothesis orders : knows_orders host p0.

Lemma read_inline_values k count n : forall i pv q g,
  k = 1 \/ k = 2 \/ k = 4 \/ k = 8 ->
  positioned p0 q g -> 0 <= g ->
  g + Z.of_nat n * k <= len (contents (stream (file p0))) ->
  fst (read_inline host k count i n pv q)
  = pv ++ firstn (Z.to_nat (count - i))
            (map (fun j => stored p0 (g + k * Z.of_nat j) k) (seq 0 n)).
Proof.
  induction n as [|n IH]; intros i pv q g Hk Hp Hg Hl.
  - cbn. rewrite firstn_nil, app_nil_r. reflexivity.
  - cbn [read_inline]. rewrite bind_run.
    destruct (read_value_positioned host k p0 q g orders Hp Hk Hg ltac:(nia)) as [Hv Hp'].
    fold (stored p0 g k) in Hv. rewrite Hv.
    rewrite (IH (i + 1) _ _ (g + k) Hk Hp') by lia.
    cbn [seq map]. rewrite <- seq_shift, map_map.
    replace (k * Z.of_nat 0) with 0 by lia. rewrite Z.add_0_r.
    assert (Hm : map (fun j => stored p0 (g + k * Z.of_nat (S j)) k) (seq 0 n)
                 = map (fun j => stored p0 (g + k + k * Z.of_nat j) k) (seq 0 n)).
    { apply map_ext. intros j. f_equal. lia. }
    rewrite Hm.
    destruct (i <? count) eqn:E.
    + replace (Z.to_nat (count - i)) with (S (Z.to_nat (count - (i + 1)))) by lia.
      cbn [firstn]. rewrite <- app_assoc. reflexivity.
    + replace (Z.to_nat (count - i)) with 0%nat by lia.
      replace (Z.to_nat (count - (i + 1))) with 0%nat by lia.
      reflexivity.
Qed.

Lemma read_values_values k n : forall pv q g,
  k = 1 \/ k = 2 \/ k = 4 \/ k = 8 ->
  positioned p0 q g -> 0 <= g ->
  g + Z.of_nat n * k <= len (contents (stream (file p0))) ->
  fst (read_values host k n pv q)
  = pv ++ map (fun j => stored p0 (g + k * Z.of_nat j) k) (seq 0 n).
Proof.
  induction n as [|n IH]; intros pv q g Hk Hp Hg Hl.
  - cbn. rewrite app_nil_r. reflexivity.
  - cbn [read_values]. rewrite bind_run.
    destruct (read_value_positioned host k p0 q g orders Hp Hk Hg ltac:(nia)) as [Hv Hp'].
    fold (stored p0 g k) in Hv. rewrite Hv.
    rewrite (IH _ _ (g + k) Hk Hp') by lia.
    cbn [seq map]. rewrite <- seq_shift, map_map.
    replace (k * Z.of_nat 0) with 0 by lia. rewrite Z.add_0_r.
    rewrite <- app_assoc. cbn [app]. do 2 f_equal.
    apply map_ext. intros j. f_equal. lia.
Qed.

End Entry.

(** The default value of the [switch] is only kept for a type the reader
    does not know. *)
Lemma read_ifd_values_default host type count p :
  1 <= type <= 5 -> snd (fst (fst (read_ifd_values host type count p))) = 0.
Proof.
  intros Ht.
  unfold read_ifd_values, DataType.Byte, DataType.ASCII, DataType.Short,
    DataType.Long, DataType.Rational. cbv zeta.
  repeat split_test;
    rewrite ?bind_run; cbv beta;
    try match goal with
      | |- context [if ?b then _ else _] => destruct b
      end;
    rewrite ?bind_run; cbn [ret fst snd]; reflexivity.
Qed.

(** The values [read_ifd] takes from the four-byte slot of an entry. *)
Lemma read_ifd_values_inline host p0 q g type count :
  knows_orders host p0 -> positioned p0 q g -> 0 <= g ->
  g + 4 <= len (contents (stream (file p0))) ->
  let pv := fst (fst (fst (fst (read_ifd_values host type count q)))) in
  (type = DataType.Short -> count <= 2 ->
   pv = firstn (Z.to_nat count) [stored p0 g 2; stored p0 (g + 2) 2])
  /\ (type = DataType.Long -> count <= 1 -> pv = [stored p0 g 4])
  /\ (type = DataType.Byte \/ type = DataType.ASCII -> count <= 4 ->
      pv = firstn (Z.to_nat count)
             [stored p0 g 1; stored p0 (g + 1) 1; stored p0 (g + 2) 1; stored p0 (g + 3) 1])
  /\ (type < 1 \/ 5 < type ->
      pv = [] /\ snd (fst (fst (read_ifd_values host type count q))) = stored p0 g 4).
Proof.
  intros Hk Hp Hg Hl pv. subst pv.
  unfold DataType.Byte, DataType.ASCII, DataType.Short, DataType.Long.
  split; [|split; [|split]].
  - intros -> Hc. unfold read_ifd_values. cbv zeta.
    cbn [Z.eqb Pos.eqb orb DataType.Byte DataType.ASCII DataType.Short].
    destruct (count <=? 2) eqn:E; [|lia].
    rewrite bind_run. cbn [ret fst snd].
    rewrite (read_inline_values host p0 Hk 2 count 2 0 [] q g) by (auto; lia).
    rewrite Z.sub_0_r. cbn [app seq map].
    replace (g + 2 * Z.of_nat 0) with g by lia.
    replace (g + 2 * Z.of_nat 1) with (g + 2) by lia. reflexivity.
  - intros -> Hc. unfold read_ifd_values. cbv zeta.
    cbn [Z.eqb Pos.eqb orb DataType.Byte DataType.ASCII DataType.Short DataType.Long].
    destruct (count <=? 1) eqn:E; [|lia].
    rewrite bind_run. cbn [ret fst snd].
    destruct (read_value_positioned host 4 p0 q g Hk Hp ltac:(auto) Hg Hl) as [Hv _].
    rewrite Hv. reflexivity.
  - intros Ht Hc. unfold read_ifd_values. cbv zeta.
    replace ((type =? DataType.Byte) || (type =? DataType.ASCII)) with true
      by (symmetry; apply orb_true_iff; unfold DataType.Byte, DataType.ASCII;
          destruct Ht; [left|right]; lia).
    destruct (0 <? count) eqn:E0.
    + destruct (count <=? 4) eqn:E; [|lia].
      rewrite bind_run. cbn [ret fst snd].
      rewrite (read_inline_values host p0 Hk 1 count 4 0 [] q g) by (auto; lia).
      rewrite Z.sub_0_r. cbn [app seq map].
      replace (g + 1 * Z.of_nat 0) with g by lia.
      replace (g + 1 * Z.of_nat 1) with (g + 1) by lia.
      replace (g + 1 * Z.of_nat 2) with (g + 2) by lia.
      replace (g + 1 * Z.of_nat 3) with (g + 3) by lia. reflexivity.
    + cbn [ret fst]. replace (Z.to_nat count) with 0%nat by lia. reflexivity.
  - intros Ht. unfold read_ifd_values. cbv zeta.
    unfold DataType.Byte, DataType.ASCII, DataType.Short, DataType.Long, DataType.Rational.
    destruct (type =? 1) eqn:E1; [lia|]. destruct (type =? 2) eqn:E2; [lia|].
    destruct (type =? 3) eqn:E3; [lia|]. destruct (type =? 4) eqn:E4; [lia|].
    destruct (type =? 5) eqn:E5; [lia|]. cbn [orb].
    rewrite bind_run. cbn [ret fst snd].
    destruct (read_value_positioned host 4 p0 q g Hk Hp ltac:(auto) Hg Hl) as [Hv _].
    rewrite Hv. split; reflexivity.
Qed.

Lemma read_ifd_inline host p g :
  knows_orders host p -> cursor_at p g -> 0 <= g ->
  g + 12 <= len (contents (stream (file p))) ->
  let d := fst (read_ifd host p) in
  tag d = stored p g 2 /\ type d = stored p (g + 2) 2 /\ count d = stored p (g + 4) 4
  /\ (type d = DataType.Short -> count d <= 2 ->
      pvalue d = firstn (Z.to_nat (count d)) [stored p (g + 8) 2; stored p (g + 10) 2])
  /\ (type d = DataType.Long -> count d <= 1 -> pvalue d = [stored p (g + 8) 4])
  /\ (type d = DataType.Byte \/ type d = DataType.ASCII -> count d <= 4 ->
      pvalue d = firstn (Z.to_nat (count d))
                   [stored p (g + 8) 1; stored p (g + 9) 1;
                    stored p (g + 10) 1; stored p (g + 11) 1])
  /\ (type d < 1 \/ 5 < type d -> pvalue d = [] /\ value d = stored p (g + 8) 4)
  /\ (1 <= type d <= 5 -> value d = hd 0 (pvalue d)).
Proof.
  intros Hk Hc Hg Hl d. subst d. rewrite read_ifd_fst. cbv zeta.
  pose proof (positioned_refl p g Hc) as Hp.
  destruct (read_value_positioned host 2 p p g Hk Hp ltac:(auto) Hg ltac:(lia)) as [V1 P1].
  destruct (read_value_positioned host 2 p _ (g + 2) Hk P1 ltac:(auto) ltac:(lia) ltac:(lia))
    as [V2 P2].
  destruct (read_value_positioned host 4 p _ (g + 2 + 2) Hk P2 ltac:(auto) ltac:(lia) ltac:(lia))
    as [V3 P3].
  fold (stored p g 2) in V1. fold (stored p (g + 2) 2) in V2.
  fold (stored p (g + 2 + 2) 4) in V3.
  replace (g + 2 + 2) with (g + 4) in V3 by lia.
  replace (g + 2 + 2 + 4) with (g + 8) in P3 by lia.
  set (q := snd (read host 4 _)) in *.
  rewrite V1, V2, V3. cbn [tag type count pvalue value].
  destruct (read_ifd_values_inline host p q (g + 8) (stored p (g + 2) 2) (stored p (g + 4) 4)
              Hk P3 ltac:(lia) ltac:(lia)) as (Hs & Hlg & Hb & Hd).
  replace (g + 8 + 2) with (g + 10) in Hs by lia.
  replace (g + 8 + 1) with (g + 9) in Hb by lia.
  replace (g + 8 + 2) with (g + 10) in Hb by lia.
  replace (g + 8 + 3) with (g + 11) in Hb by lia.
  split; [reflexivity|]. split; [reflexivity|]. split; [reflexivity|].
  split; [exact Hs|]. split; [exact Hlg|]. split; [exact Hb|]. split.
  - intros Ht. destruct (Hd Ht) as [Hpv Hv]. rewrite Hpv. split; [reflexivity | exact Hv].
  - intros Ht. rewrite (read_ifd_values_default host _ _ q Ht).
    destruct (fst (fst (fst (fst (read_ifd_values host _ _ q))))); reflexivity.
Qed.

(** X19.  [read_ifd] decodes the entry at the cursor: tag, type and count
    are the integers the file stores there, in the byte order the file
    declares; for up to two [Short] values, one [Long] value and up to four
    [Byte] or [ASCII] values, [pvalue] holds the first [count] values of the
    slot, except that a [Long] entry always yields one value, also when its
    count is zero; an entry of a type the reader does not know yields no
    values and the slot as its [value]. *)
Theorem read_ifd_decodes_inline host p g :
  knows_orders host p -> cursor_at p g -> 0 <= g ->
  g + 12 <= len (contents (stream (file p))) ->
  let d := fst (read_ifd host p) in
  tag d = stored p g 2 /\ type d = stored p (g + 2) 2 /\ count d = stored p (g + 4) 4
  /\ (type d = DataType.Short -> count d <= 2 ->
      pvalue d = firstn (Z.to_nat (count d)) [stored p (g + 8) 2; stored p (g + 10) 2])
  /\ (type d = DataType.Long -> count d <= 1 -> pvalue d = [stored p (g + 8) 4])
  /\ (type d = DataType.Byte \/ type d = DataType.ASCII -> count d <= 4 ->
      pvalue d = firstn (Z.to_nat (count d))
                   [stored p (g + 8) 1; stored p (g + 9) 1;
                    stored p (g + 10) 1; stored p (g + 11) 1])
  /\ (type d < 1 \/ 5 < type d -> pvalue d = [] /\ value d = stored p (g + 8) 4)
  /\ (1 <= type d <= 5 -> value d = hd 0 (pvalue d)).
Proof. exact (read_ifd_inline host p g). Qed.

Lemma positioned_seek p0 q g off :
  positioned p0 q g -> 0 <= off ->
  positioned p0 (snd (stream_seekg off (snd (stream_clear q)))) off.
Proof.
  intros [Hm _] H0. unfold stream_seekg, stream_clear. cbn [snd].
  change (stream (file (set_stream ?s ?x))) with s.
  rewrite seekg_clear by exact H0. split.
  - eapply stream_moved_trans; [exact Hm|].
    eapply stream_moved_trans; apply stream_moved_set_stream; reflexivity.
  - split; reflexivity.
Qed.

Lemma stored_nonneg p x n : 0 <= stored p x n.
Proof.
  unfold stored, file_value.
  assert (H : forall l, 0 <= le_value l).
  { induction l as [|b l IH]; cbn [le_value]; [lia|]. pose proof (byte_val_range b). lia. }
  destruct (file_byte_order (file p)); apply H.
Qed.

(** The values [read_ifd] fetches from a table of [Short] or [Long]
    numbers kept elsewhere in the file. *)
Lemma read_ifd_values_table host p0 q g type count k :
  knows_orders host p0 -> positioned p0 q g -> 0 <= g ->
  g + 4 <= len (contents (stream (file p0))) ->
  size (file p0) = len (contents (stream (file p0))) ->
  (type = DataType.Short /\ k = 2 /\ 2 < count)
  \/ (type = DataType.Long /\ k = 4 /\ 1 < count) ->
  fst (fst (fst (fst (read_ifd_values host type count q))))
  = if stored p0 g 4 + count * k <=? size (file p0)
    then map (fun j => stored p0 (stored p0 g 4 + k * Z.of_nat j) k) (seq 0 (Z.to_nat count))
    else [].
Proof.
  intros Hk Hp Hg Hl Hsz Hcase.
  destruct (read_value_positioned host 4 p0 q g Hk Hp ltac:(auto) Hg Hl) as [Hv Hp'].
  fold (stored p0 g 4) in Hv.
  pose proof (stored_nonneg p0 g 4) as Hoff.
  assert (Hqs : size (file q) = size (file p0)) by apply Hp.
  unfold read_ifd_values. cbv zeta. rewrite Hqs.
  destruct Hcase as [(-> & -> & Hc) | (-> & -> & Hc)];
    cbn [Z.eqb Pos.eqb orb DataType.Byte DataType.ASCII DataType.Short DataType.Long].
  - destruct (count <=? 2) eqn:E; [lia|].
    rewrite bind_run, Hv.
    destruct (stored p0 g 4 + count * 2 <=? size (file p0)) eqn:Echk; [|reflexivity].
    rewrite !bind_run. cbn [ret fst snd].
    rewrite (read_values_values host p0 Hk 2 (Z.to_nat count) [] _ (stored p0 g 4));
      [reflexivity | auto | | exact Hoff | lia].
    eapply positioned_seek; [exact Hp' | exact Hoff].
  - destruct (count <=? 1) eqn:E; [lia|].
    rewrite bind_run, Hv.
    destruct (stored p0 g 4 + count * 4 <=? size (file p0)) eqn:Echk; [|reflexivity].
    rewrite !bind_run. cbn [ret fst snd].
    rewrite (read_values_values host p0 Hk 4 (Z.to_nat count) [] _ (stored p0 g 4));
      [reflexivity | auto | | exact Hoff | lia].
    eapply positioned_seek; [exact Hp' | exact Hoff].
Qed.

(** X20.  For a table of more than two [Short] or more than one [Long]
    values, [read_ifd] takes the slot for a file offset: when the table
    fits the file, [pvalue] holds the [count] numbers stored from that
    offset on, in the byte order of the file; when it does not, the entry
    yields no values at all and a [value] of zero. *)
Theorem read_ifd_follows_the_offset host p g k :
  knows_orders host p -> cursor_at p g -> 0 <= g ->
  g + 12 <= len (contents (stream (file p))) ->
  size (file p) = len (contents (stream (file p))) ->
  let d := fst (read_ifd host p) in
  let off := stored p (g + 8) 4 in
  (type d = DataType.Short /\ k = 2 /\ 2 < count d)
  \/ (type d = DataType.Long /\ k = 4 /\ 1 < count d) ->
  (off + count d * k <= size (file p) ->
   pvalue d = map (fun j => stored p (off + k * Z.of_nat j) k) (seq 0 (Z.to_nat (count d))))
  /\ (size (file p) < off + count d * k -> pvalue d = [] /\ value d = 0).
Proof.
  intros Hk Hc Hg Hl Hsz d off. subst d. rewrite read_ifd_fst. cbv zeta.
  pose proof (positioned_refl p g Hc) as Hp.
  destruct (read_value_positioned host 2 p p g Hk Hp ltac:(auto) Hg ltac:(lia)) as [V1 P1].
  destruct (read_value_positioned host 2 p _ (g + 2) Hk P1 ltac:(auto) ltac:(lia) ltac:(lia))
    as [V2 P2].
  destruct (read_value_positioned host 4 p _ (g + 2 + 2) Hk P2 ltac:(auto) ltac:(lia) ltac:(lia))
    as [V3 P3].
  replace (g + 2 + 2 + 4) with (g + 8) in P3 by lia.
  set (q := snd (read host 4 _)) in *.
  cbn [tag type count pvalue value].
  set (ty := fst (read host 2 (snd (read host 2 p)))) in *.
  set (ct := fst (read host 4 _)) in *.
  intros Hcase.
  pose proof (read_ifd_values_table host p q (g + 8) ty ct k Hk P3 ltac:(lia) ltac:(lia)
                Hsz Hcase) as Hpv.
  fold off in Hpv.
  assert (Hty : 1 <= ty <= 5).
  { unfold DataType.Short, DataType.Long in Hcase.
    destruct Hcase as [(-> & _)|(-> & _)]; lia. }
  pose proof (read_ifd_values_default host ty ct q Hty) as Hv.
  split.
  - intros Hfit. rewrite Hpv. destruct (off + ct * k <=? size (file p)) eqn:E; [reflexivity|lia].
  - intros Hout. rewrite Hpv, Hv.
    destruct (off + ct * k <=? size (file p)) eqn:E; [lia|]. split; reflexivity.
Qed.

(** ** From the file to the samples *)

(** [open] on a header it accepts: what is left to do is
    [read_next_frame] on the first directory. *)
Lemma open_accepted host bytes o :
  declares bytes o -> 8 <= len bytes ->
  file_value o (slice bytes 2 2) = 42 ->
  open host (Some bytes) ReaderPrivate_default
  = read_next_frame host
      (mk_ReaderPrivate
         (mk_ReaderFile (file_value o (slice bytes 4 4)) (file_value o (slice bytes 4 4))
            (util.get_byte_order host) o (len bytes) ReaderFrame_default
            (mk_ifstream bytes 8 false)) false).
Proof.
  intros Hd Hl Hm.
  destruct bytes as [|a [|b rest]]; try (destruct Hd as [[_ H]|[_ H]]; discriminate).
  rewrite open_two_bytes. cbv zeta.
  rewrite (proj1 (header_mark a b rest o) Hd).
  set (bytes := a :: b :: rest) in *.
  set (p := mk_ReaderPrivate _ false).
  assert (Hsys : util.get_byte_order host = host_order host) by (destruct host; reflexivity).
  assert (Hk : knows_orders host (set_file_byte_order o p)).
  { split; [exact Hsys|]. destruct Hd as [[-> _]|[-> _]]; [left|right]; reflexivity. }
  assert (Hlen : 8 <= len (contents (stream (file (set_file_byte_order o p))))) by exact Hl.
  rewrite bind_run.
  rewrite (read_value host 2 (set_file_byte_order o p) 2 Hk
             ltac:(auto) ltac:(split; reflexivity) ltac:(lia) ltac:(lia)).
  cbn [fst snd]. change (file_byte_order (file (set_file_byte_order o p))) with o.
  change (contents (stream (file (set_file_byte_order o p)))) with bytes.
  rewrite Hm. cbn [Z.eqb Pos.eqb negb].
  set (p1 := set_stream (mk_ifstream bytes (2 + 2) false) (set_file_byte_order o p)).
  rewrite bind_run.
  rewrite (read_value host 4 p1 4 Hk
             ltac:(auto) ltac:(split; reflexivity) ltac:(lia) ltac:(exact Hlen)).
  cbn [fst snd]. rewrite bind_run. reflexivity.
Qed.

Lemma file_value_le16 v : 0 <= v < 2 ^ 16 -> file_value LittleEndian (le16 v) = v.
Proof.
  intros H. unfold file_value, le16. rewrite le_value_le_bytes.
  apply Z.mod_small. exact H.
Qed.

Lemma file_value_le32 v : 0 <= v < 2 ^ 32 -> file_value LittleEndian (le32 v) = v.
Proof.
  intros H. unfold file_value, le32. rewrite le_value_le_bytes.
  apply Z.mod_small. exact H.
Qed.

(** An entry that holds one [Long] or one [Short] value in its slot. *)
Lemma read_ifd_one_value host p g t ty c k :
  knows_orders host p -> cursor_at p g -> 0 <= g ->
  g + 12 <= len (contents (stream (file p))) ->
  stored p g 2 = t -> stored p (g + 2) 2 = ty -> stored p (g + 4) 4 = c ->
  (ty = DataType.Long /\ k = 4 /\ c = 1) \/ (ty = DataType.Short /\ k = 2 /\ c = 1) ->
  exists v2 pv2,
    read_ifd host p
    = (mk_IFD t ty c (stored p (g + 8) k) v2 [stored p (g + 8) k] pv2,
       set_stream (mk_ifstream (contents (stream (file p))) (g + 12) false) p).
Proof.
  intros Hk Hc Hg Hl Ht Hty Hct Hcase.
  pose proof (read_ifd_inline host p g Hk Hc Hg Hl) as H. cbv zeta in H.
  pose proof (read_ifd_state host p g Hc Hg Hl) as Hs.
  destruct (read_ifd host p) as [d q]. cbn [fst snd] in H, Hs.
  destruct d as [t' ty' c' v v2 pv pv2]. cbn [tag type count value pvalue] in H, Hs.
  destruct H as (E1 & E2 & E3 & HS & HL & _ & _ & HV).
  rewrite Ht in E1. rewrite Hty in E2. rewrite Hct in E3. subst t' ty' c'.
  exists v2, pv2.
  assert (He : empty_byte_entry ty c = false).
  { unfold empty_byte_entry, DataType.Byte, DataType.ASCII, DataType.Long, DataType.Short in *.
    destruct Hcase as [(-> & _ & ->)|(-> & _ & ->)]; reflexivity. }
  rewrite He in Hs. subst q.
  assert (Hpv : pv = [stored p (g + 8) k]).
  { destruct Hcase as [(Hty' & -> & ->)|(Hty' & -> & ->)].
    - apply HL; [exact Hty' | lia].
    - rewrite (HS Hty') by lia. reflexivity. }
  assert (Hty15 : 1 <= ty <= 5).
  { unfold DataType.Long, DataType.Short in Hcase.
    destruct Hcase as [(-> & _)|(-> & _)]; lia. }
  rewrite (HV Hty15), Hpv. reflexivity.
Qed.

Lemma gray8_split w h data : gray8_file w h data = gray8_file w h [] ++ data.
Proof.
  unfold gray8_file. rewrite app_nil_r. rewrite <- !app_assoc. reflexivity.
Qed.

Lemma len_gray8 w h data : len (gray8_file w h data) = 74 + len data.
Proof.
  rewrite gray8_split. unfold len. rewrite length_app.
  change (length (gray8_file w h [])) with 74%nat. lia.
Qed.

(** The cases of the tag [switch] that the file exercises. *)
Lemma dispatch_ImageWidth ty c v v2 pv pv2 fr e :
  dispatch_tag (mk_IFD Tags.ImageWidth ty c v v2 pv pv2) (fr, e) = (set_width v fr, e).
Proof. reflexivity. Qed.

Lemma dispatch_ImageLength ty c v v2 pv pv2 fr e :
  dispatch_tag (mk_IFD Tags.ImageLength ty c v v2 pv pv2) (fr, e)
  = (set_image_length v fr, e).
Proof. reflexivity. Qed.

Lemma dispatch_BitsPerSample_one ty v v2 x pv2 fr e :
  dispatch_tag (mk_IFD Tags.BitsPerSample ty 1 v v2 [x] pv2) (fr, e)
  = (set_bits_per_sample x fr, e).
Proof. reflexivity. Qed.

Lemma dispatch_StripOffsets_one ty v v2 x pv2 fr e :
  dispatch_tag (mk_IFD Tags.StripOffsets ty 1 v v2 [x] pv2) (fr, e)
  = (set_strip_offsets (strip_offsets fr ++ [x]) (set_strip_count 1 fr), e).
Proof. reflexivity. Qed.

Lemma dispatch_StripByteCounts_one ty v v2 x pv2 fr e :
  dispatch_tag (mk_IFD Tags.StripByteCounts ty 1 v v2 [x] pv2) (fr, e)
  = (set_strip_byte_counts (strip_byte_counts fr ++ [x]) (set_strip_count 1 fr), e).
Proof. reflexivity. Qed.

Lemma read_entries_step host n err p :
  read_entries host (S n) err p
  = let r := read_ifd host p in
    let fe := dispatch_tag (fst r) (current_frame (file (snd r)), err) in
    read_entries host n (snd fe) (set_current_frame (fst fe) (snd r)).
Proof.
  cbn [read_entries]. rewrite bind_run. cbv zeta.
  destruct (dispatch_tag _ _). reflexivity.
Qed.

Lemma gray8_directory host w h data :
  0 <= w < 2 ^ 32 -> 0 <= h < 2 ^ 32 -> 0 <= w * h < 2 ^ 32 ->
  read_next_frame host
    (mk_ReaderPrivate
       (mk_ReaderFile 8 8 (util.get_byte_order host) LittleEndian
          (len (gray8_file w h data)) ReaderFrame_default
          (mk_ifstream (gray8_file w h data) 8 false)) false)
  = (NoError,
     mk_ReaderPrivate
       (mk_ReaderFile 8 0 (util.get_byte_order host) LittleEndian
          (len (gray8_file w h data)) (gray8_frame w h)
          (mk_ifstream (gray8_file w h data) 74 false)) true).
Proof.
  intros Hw Hh Hwh.
  pose proof (len_gray8 w h data) as Hlen. pose proof (len_nonneg data) as Hd.
  set (bs := gray8_file w h data) in *.
  pose (R := fun fr g =>
    mk_ReaderPrivate
      (mk_ReaderFile 8 8 (util.get_byte_order host) LittleEndian (len bs) fr
         (mk_ifstream bs g false)) false).
  change (mk_ReaderPrivate _ false) with (R ReaderFrame_default 8) at 1.
  assert (Hk : forall fr g, knows_orders host (R fr g)).
  { intros fr g. split; [destruct host; reflexivity | left; reflexivity]. }
  assert (Hentry : forall fr g t c k v,
             0 <= g -> g + 12 <= 74 ->
             slice bs g 2 = le16 t -> 0 <= t < 2 ^ 16 ->
             slice bs (g + 2) 2 = le16 c -> slice bs (g + 4) 4 = le32 1 ->
             (c = DataType.Long /\ k = 4 /\ slice bs (g + 8) 4 = le32 v /\ 0 <= v < 2 ^ 32)
             \/ (c = DataType.Short /\ k = 2 /\ slice bs (g + 8) 2 = le16 v /\ 0 <= v < 2 ^ 16) ->
             exists v2 pv2,
               read_ifd host (R fr g) = (mk_IFD t c 1 v v2 [v] pv2, R fr (g + 12))).
  { intros fr g t c k v Hg Hg12 St Ht Sc S1 Hcase.
    assert (Hv : stored (R fr g) (g + 8) k = v).
    { unfold stored. change (contents (stream (file (R fr g)))) with bs.
      change (file_byte_order (file (R fr g))) with LittleEndian.
      destruct Hcase as [(_ & -> & -> & Hr)|(_ & -> & -> & Hr)];
        [apply file_value_le32 | apply file_value_le16]; exact Hr. }
    destruct (read_ifd_one_value host (R fr g) g t c 1 k (Hk fr g)) as (v2 & pv2 & E).
    - split; reflexivity.
    - exact Hg.
    - change (contents (stream (file (R fr g)))) with bs. lia.
    - unfold stored. change (contents (stream (file (R fr g)))) with bs.
      rewrite St. apply file_value_le16. exact Ht.
    - unfold stored. change (contents (stream (file (R fr g)))) with bs.
      rewrite Sc. apply file_value_le16.
      unfold DataType.Long, DataType.Short in Hcase.
      destruct Hcase as [(-> & _)|(-> & _)]; lia.
    - unfold stored. change (contents (stream (file (R fr g)))) with bs.
      rewrite S1. apply file_value_le32. lia.
    - destruct Hcase as [(-> & -> & _)|(-> & -> & _)]; [left|right]; repeat split.
    - exists v2, pv2. rewrite E, Hv. reflexivity. }
  rewrite (read_next_frame_unfold host (R ReaderFrame_default 8)) by (cbn; lia).
  cbv zeta.
  change (next_ifd_offset (file (R ReaderFrame_default 8))) with 8.
  change (set_stream _ (set_current_frame ReaderFrame_default (R ReaderFrame_default 8)))
    with (R ReaderFrame_default 8).
  assert (E1 : read host 2 (R ReaderFrame_default 8) = (5, R ReaderFrame_default 10)).
  { rewrite (read_value host 2 (R ReaderFrame_default 8) 8 (Hk _ _)
               ltac:(auto) ltac:(split; reflexivity) ltac:(lia)
               ltac:(change (contents (stream (file (R ReaderFrame_default 8)))) with bs; lia)).
    reflexivity. }
  rewrite E1. cbn [fst snd]. change (Z.to_nat 5) with 5%nat.
  assert (E2 : read_entries host 5 NoError (R ReaderFrame_default 10)
               = (NoError,
                  R (set_strip_byte_counts [w * h]
                       (set_strip_count 1
                          (set_strip_offsets [74]
                             (set_strip_count 1
                                (set_bits_per_sample 8
                                   (set_image_length h
                                      (set_width w ReaderFrame_default)))))))
                    70)).
  { rewrite read_entries_step.
    destruct (Hentry ReaderFrame_default 10 Tags.ImageWidth DataType.Long 4 w
                ltac:(lia) ltac:(lia) eq_refl
                ltac:(vm_compute; split; [discriminate | reflexivity]) eq_refl eq_refl
                ltac:(left; split; [reflexivity|]; split; [reflexivity|];
                      split; [reflexivity | lia]))
      as (v2 & pv2 & E).
    rewrite E. cbv zeta. cbn [fst snd].
    change (current_frame (file (R ReaderFrame_default (10 + 12)))) with ReaderFrame_default.
    rewrite dispatch_ImageWidth. cbn [fst snd]. clear E v2 pv2.
    set (f1 := set_width w ReaderFrame_default).
    change (set_current_frame f1 (R ReaderFrame_default (10 + 12))) with (R f1 22).
    rewrite read_entries_step.
    destruct (Hentry f1 22 Tags.ImageLength DataType.Long 4 h
                ltac:(lia) ltac:(lia) eq_refl
                ltac:(vm_compute; split; [discriminate | reflexivity]) eq_refl eq_refl
                ltac:(left; split; [reflexivity|]; split; [reflexivity|];
                      split; [reflexivity | lia]))
      as (v2 & pv2 & E).
    rewrite E. cbv zeta. cbn [fst snd].
    change (current_frame (file (R f1 (22 + 12)))) with f1.
    rewrite dispatch_ImageLength. cbn [fst snd]. clear E v2 pv2.
    set (f2 := set_image_length h f1).
    change (set_current_frame f2 (R f1 (22 + 12))) with (R f2 34).
    rewrite read_entries_step.
    destruct (Hentry f2 34 Tags.BitsPerSample DataType.Short 2 8
                ltac:(lia) ltac:(lia) eq_refl
                ltac:(vm_compute; split; [discriminate | reflexivity]) eq_refl eq_refl
                ltac:(right; split; [reflexivity|]; split; [reflexivity|];
                      split; [reflexivity | lia]))
      as (v2 & pv2 & E).
    rewrite E. cbv zeta. cbn [fst snd].
    change (current_frame (file (R f2 (34 + 12)))) with f2.
    rewrite dispatch_BitsPerSample_one. cbn [fst snd]. clear E v2 pv2.
    set (f3 := set_bits_per_sample 8 f2).
    change (set_current_frame f3 (R f2 (34 + 12))) with (R f3 46).
    rewrite read_entries_step.
    destruct (Hentry f3 46 Tags.StripOffsets DataType.Long 4 74
                ltac:(lia) ltac:(lia) eq_refl
                ltac:(vm_compute; split; [discriminate | reflexivity]) eq_refl eq_refl
                ltac:(left; split; [reflexivity|]; split; [reflexivity|];
                      split; [reflexivity | lia]))
      as (v2 & pv2 & E).
    rewrite E. cbv zeta. cbn [fst snd].
    change (current_frame (file (R f3 (46 + 12)))) with f3.
    rewrite dispatch_StripOffsets_one. cbn [fst snd]. clear E v2 pv2.
    set (f4 := set_strip_offsets (strip_offsets f3 ++ [74]) (set_strip_count 1 f3)).
    change (set_current_frame f4 (R f3 (46 + 12))) with (R f4 58).
    rewrite read_entries_step.
    destruct (Hentry f4 58 Tags.StripByteCounts DataType.Long 4 (w * h)
                ltac:(lia) ltac:(lia) eq_refl
                ltac:(vm_compute; split; [discriminate | reflexivity]) eq_refl eq_refl
                ltac:(left; split; [reflexivity|]; split; [reflexivity|];
                      split; [reflexivity | lia]))
      as (v2 & pv2 & E).
    rewrite E. cbv zeta. cbn [fst snd].
    change (current_frame (file (R f4 (58 + 12)))) with f4.
    rewrite dispatch_StripByteCounts_one. cbn [fst snd]. clear E v2 pv2.
    reflexivity. }
  rewrite E2. cbn [fst snd Error_is_NoError].
  set (f5 := set_strip_byte_counts _ _).
  change (set_stream _ (set_current_frame (set_height (image_length _) _) (R f5 70)))
    with (R (set_height h f5) 70).
  assert (E3 : read host 4 (R (set_height h f5) 70) = (0, R (set_height h f5) 74)).
  { rewrite (read_value host 4 (R (set_height h f5) 70) 70 (Hk _ _)
               ltac:(auto) ltac:(split; reflexivity) ltac:(lia)
               ltac:(change (contents (stream (file (R (set_height h f5) 70)))) with bs; lia)).
    reflexivity. }
  rewrite E3. reflexivity.
Qed.

Lemma load_one h b : load h [b] = byte_val b.
Proof. destruct h; cbn; lia. Qed.

Lemma samples_of_bytes_from h data : forall pre,
  map (fun j => sample_at h 8 (pre ++ data) (Z.of_nat (length pre + j))) (seq 0 (length data))
  = map (fun b => V8 (byte_val b)) data.
Proof.
  induction data as [|b data IH]; intros pre; [reflexivity|].
  cbn [length seq map]. f_equal.
  - unfold sample_at, slice. cbn [Z.eqb Pos.eqb]. change (8 / 8) with 1.
    rewrite Nat.add_0_r, Z.mul_1_r, Nat2Z.id.
    rewrite skipn_app, skipn_all, Nat.sub_diag. cbn [app skipn].
    change (Z.to_nat 1) with 1%nat. cbn [firstn].
    rewrite load_one. reflexivity.
  - rewrite <- seq_shift, map_map.
    specialize (IH (pre ++ [b])). rewrite <- app_assoc in IH. cbn [app] in IH.
    rewrite <- IH. apply map_ext. intros j. rewrite length_app. cbn [length].
    do 2 f_equal. lia.
Qed.

(** The samples of a buffer of 8-bit values are its bytes. *)
Lemma samples_of_bytes h data :
  samples_of h 8 data (length data) = map (fun b => V8 (byte_val b)) data.
Proof. apply (samples_of_bytes_from h data []). Qed.

Lemma slice_all data : slice data 0 (len data) = data.
Proof. unfold slice, len. rewrite Nat2Z.id. cbn [Z.to_nat skipn]. apply firstn_all. Qed.

Lemma gray8_strip w h data :
  w * h = len data -> slice (gray8_file w h data) 74 (w * h) = data.
Proof.
  intros ->. unfold slice. change (skipn (Z.to_nat 74) (gray8_file w h data)) with data.
  unfold len. rewrite Nat2Z.id. apply firstn_all.
Qed.

(** X21.  A grey image of [w] by [h] 8-bit samples, written as a header, a
    directory of five entries and one strip, reads back: [open] returns
    [NoError] and leaves a good reader that reports the width, the height,
    8 bits per sample and one sample per pixel, with the defaults of the
    fields the directory does not set (unsigned samples, no resolution
    unit, an empty description), has no next frame, and whose
    [get_sample_data(0)] is the bytes of the strip, one value per pixel,
    with the reader left as it was.  This is so on every machine whose byte
    order [get_byte_order] recognises. *)
Theorem gray8_file_reads_back host dm w h data err :
  abi.get_byte_order host dm = host_order host ->
  0 < w -> 0 < h -> w * h = len data -> w * h < 2 ^ 28 ->
  exists p,
    open host (Some (gray8_file w h data)) ReaderPrivate_default = (NoError, p)
    /\ Reader_good p = true
    /\ Reader_width p = w /\ Reader_height p = h
    /\ Reader_bits_per_sample p = 8 /\ Reader_samples_per_pixel p = 1
    /\ Reader_sameple_format p = SampleFormat.Uint
    /\ Reader_resolution_unit p = ResolutionUnit.None
    /\ Reader_image_description p = []
    /\ Reader_has_next_frame p = false
    /\ Reader_get_sample_data host dm 0 err p
       = Returned (map (fun b => V8 (byte_val b)) data, NoError, p).
Proof.
  intros _ Hw Hh Hdata Hsmall.
  pose proof (len_gray8 w h data) as Hlen.
  assert (Hw32 : 0 <= w < 2 ^ 32) by nia.
  assert (Hh32 : 0 <= h < 2 ^ 32) by nia.
  eexists. split.
  { rewrite (open_accepted host (gray8_file w h data) LittleEndian).
    - change (file_value LittleEndian (slice (gray8_file w h data) 4 4)) with 8.
      apply gray8_directory; lia.
    - left. split; reflexivity.
    - lia.
    - reflexivity. }
  set (p := mk_ReaderPrivate _ true).
  split; [reflexivity|]. split; [reflexivity|]. split; [reflexivity|].
  split; [reflexivity|]. split; [reflexivity|]. split; [reflexivity|].
  split; [reflexivity|]. split; [reflexivity|]. split; [reflexivity|].
  assert (Hpre : precondition_error (current_frame (file p)) = None).
  { unfold precondition_error. cbn.
    destruct (w =? 0) eqn:E1; [lia|]. destruct (h =? 0) eqn:E2; [lia|]. reflexivity. }
  assert (Himg : image_bytes (contents (stream (file p))) (current_frame (file p)) = data).
  { unfold image_bytes, strips, p. cbn [file current_frame gray8_frame strip_count
      strip_offsets strip_byte_counts stream contents].
    change (Z.to_nat 1) with 1%nat.
    cbn [combine firstn map concat]. unfold strip_bytes. cbn [fst snd].
    rewrite (gray8_strip w h data Hdata). apply app_nil_r. }
  destruct (get_sample_data_image host dm 0 err p) as (p' & Hget);
    try assumption; try reflexivity.
  - cbn. lia.
  - cbn. lia.
  - cbn. lia.
  - left. reflexivity.
  - unfold strips, p.
    cbn [file current_frame gray8_frame strip_count strip_offsets strip_byte_counts
         stream contents].
    change (Z.to_nat 1) with 1%nat. cbn [combine firstn].
    constructor; [|constructor]. unfold strip_inside. cbn [fst snd]. rewrite Hlen. lia.
  - unfold strips, p.
    cbn [file current_frame gray8_frame strip_count strip_offsets strip_byte_counts
         width height bits_per_sample stream contents].
    change (Z.to_nat 1) with 1%nat. cbn [combine firstn map snd total fold_right].
    change (8 / 8) with 1. lia.
  - rewrite Himg. unfold p.
    cbn [file current_frame gray8_frame width height bits_per_sample].
    change (8 / 8) with 1. lia.
  - rewrite Himg in Hget.
    change (width (current_frame (file p))) with w in Hget.
    change (height (current_frame (file p))) with h in Hget.
    change (bits_per_sample (current_frame (file p))) with 8 in Hget.
    change (8 / 8) with 1 in Hget.
    replace (0 * (w * h * 1)) with 0 in Hget by lia.
    replace (w * h * 1) with (len data) in Hget by lia.
    rewrite slice_all in Hget.
    replace (Z.to_nat (w * h)) with (length data) in Hget by (unfold len in Hdata; lia).
    rewrite samples_of_bytes in Hget.
    assert (Hp' : p' = p).
    { unfold Reader_get_sample_data in Hget. change (good p) with true in Hget.
      cbv iota in Hget.
      apply (get_sample_data_internal_stream host dm 0 err p _ _ p') in Hget.
      - apply Hget. reflexivity.
      - unfold stream_wf. cbn. lia. }
    rewrite Hp' in Hget. exact Hget.
Qed.

(** ** Decoding a directory and interpreting it *)

Create HintDb frame_blind.

Lemma frame_blind_ret {A} (a : A) : frame_blind (ret a).
Proof. intros fr p. reflexivity. Qed.

Lemma frame_blind_bind {A B} (m : io A) (k : A -> io B) :
  frame_blind m -> (forall a, frame_blind (k a)) -> frame_blind (bind m k).
Proof.
  intros Hm Hk fr p. rewrite !bind_run, Hm. cbn [fst snd]. apply Hk.
Qed.

Lemma frame_blind_clear : frame_blind stream_clear.
Proof. intros fr p. reflexivity. Qed.

Lemma frame_blind_seekg off : frame_blind (stream_seekg off).
Proof. intros fr p. reflexivity. Qed.

Lemma frame_blind_seekg_cur off : frame_blind (stream_seekg_cur off).
Proof. intros fr p. reflexivity. Qed.

Lemma frame_blind_tellg : frame_blind stream_tellg.
Proof. intros fr p. reflexivity. Qed.

Lemma frame_blind_read host n : frame_blind (read host n).
Proof.
  intros fr p. unfold read, byte_swap_if_need.
  change (stream (file (set_current_frame fr p))) with (stream (file p)).
  change (system_byte_order (file (set_current_frame fr p)))
    with (system_byte_order (file p)).
  change (file_byte_order (file (set_current_frame fr p))) with (file_byte_order (file p)).
  destruct (istream.good (stream (file p))); [|reflexivity].
  destruct (istream.read n (stream (file p))). reflexivity.
Qed.

#[local] Hint Resolve frame_blind_ret frame_blind_bind frame_blind_clear frame_blind_seekg
  frame_blind_seekg_cur frame_blind_tellg frame_blind_read : frame_blind.

Lemma frame_blind_read_inline host bytes count n : forall i pv,
  frame_blind (read_inline host bytes count i n pv).
Proof. induction n; intros; cbn [read_inline]; auto with frame_blind. Qed.

Lemma frame_blind_read_values host bytes n : forall pv,
  frame_blind (read_values host bytes n pv).
Proof. induction n; intros; cbn [read_values]; auto with frame_blind. Qed.

Lemma frame_blind_read_rationals host n : forall pv pv2,
  frame_blind (read_rationals host n pv pv2).
Proof. induction n; intros; cbn [read_rationals]; auto 6 with frame_blind. Qed.

#[local] Hint Resolve frame_blind_read_inline frame_blind_read_values
  frame_blind_read_rationals : frame_blind.

Ltac blind :=
  repeat (first [ apply frame_blind_bind; [ | intros ? ]
                | solve [auto with frame_blind]
                | match goal with
                  | |- frame_blind (if ?b then _ else _) => destruct b
                  | |- frame_blind (let '(_, _) := ?r in _) => destruct r
                  end ]).

Lemma frame_blind_read_ifd_values host type count :
  frame_blind (read_ifd_values host type count).
Proof.
  intros fr p. unfold read_ifd_values.
  change (size (file (set_current_frame fr p))) with (size (file p)).
  cbv zeta.
  repeat match goal with
    | |- (if ?b then _ else _) = _ => destruct b
    end;
  match goal with
  | |- ?m (set_current_frame fr p) = _ =>
      assert (H : frame_blind m) by blind; apply H
  end.
Qed.

Lemma frame_blind_read_ifd host : frame_blind (read_ifd host).
Proof.
  unfold read_ifd.
  repeat (first [ apply frame_blind_bind; [ | intros ? ]
                | solve [auto with frame_blind]
                | apply frame_blind_read_ifd_values
                | match goal with
                  | |- frame_blind (if ?b then _ else _) => destruct b
                  | |- frame_blind (let '(_, _) := ?r in _) => destruct r
                  end ]).
Qed.

Lemma frame_blind_read_ifds host n : frame_blind (read_ifds host n).
Proof.
  induction n as [|n IH]; cbn [read_ifds].
  - apply frame_blind_ret.
  - apply frame_blind_bind; [apply frame_blind_read_ifd | intros d].
    apply frame_blind_bind; [exact IH | intros ds]. apply frame_blind_ret.
Qed.

Lemma read_ifd_frame host p :
  current_frame (file (snd (read_ifd host p))) = current_frame (file p).
Proof. apply (stream_only_read_ifd host p). Qed.

Lemma set_current_frame_twice fr fr' p :
  set_current_frame fr (set_current_frame fr' p) = set_current_frame fr p.
Proof. reflexivity. Qed.

(** The loop of [read_next_frame] is the decoding of the entries followed
    by their interpretation. *)
Lemma read_entries_fold host n : forall err p,
  read_entries host n err p
  = (snd (interpret (fst (read_ifds host n p)) (current_frame (file p), err)),
     set_current_frame
       (fst (interpret (fst (read_ifds host n p)) (current_frame (file p), err)))
       (snd (read_ifds host n p))).
Proof.
  induction n as [|n IH]; intros err p.
  - cbn. rewrite set_current_frame_same. reflexivity.
  - rewrite read_entries_step. cbv zeta. rewrite IH.
    cbn [read_ifds]. rewrite !bind_run. cbn [ret fst snd].
    rewrite read_ifd_frame.
    rewrite (frame_blind_read_ifds host n _ (snd (read_ifd host p))).
    cbn [fst snd]. unfold interpret. cbn [fold_left].
    change (current_frame (file (set_current_frame ?f ?q))) with f.
    destruct (dispatch_tag (fst (read_ifd host p)) (current_frame (file p), err)) as [f1 e1].
    cbn [fst snd]. reflexivity.
Qed.

Lemma read_frame host n p :
  current_frame (file (snd (read host n p))) = current_frame (file p).
Proof. apply (stream_only_read host n p). Qed.

(** [read_next_frame] on a directory whose entry count lies inside the
    file: the result and the frame are the interpretation of the entries,
    from the default frame and [NoError]. *)
Lemma read_next_frame_fold host p :
  let off := next_ifd_offset (file p) in
  0 < off -> off + 2 < size (file p) ->
  off + 2 <= len (contents (stream (file p))) ->
  let fe := interpret (entries_at host p off) (ReaderFrame_default, NoError) in
  fst (read_next_frame host p) = snd fe
  /\ current_frame (file (snd (read_next_frame host p))) = with_height (fst fe).
Proof.
  intros off H0 H2 Hl fe. rewrite (read_next_frame_unfold host p H0 H2).
  fold off. cbv zeta.
  set (pa := set_stream _ (set_current_frame ReaderFrame_default p)).
  assert (Ca : cursor_at pa off) by (split; reflexivity).
  assert (Ba : same_bytes p pa) by (repeat split; reflexivity).
  pose proof (read_fst_peek host 2 p pa off Ba Ca) as Hcnt.
  fold (ifd_entry_count host p off) in Hcnt.
  assert (H1 : snd (read host 2 pa)
               = set_current_frame ReaderFrame_default
                   (set_stream (mk_ifstream (contents (stream (file p))) (off + 2) false) p)).
  { rewrite (read_healthy host 2 pa off Ca ltac:(lia) ltac:(lia) Hl). reflexivity. }
  rewrite Hcnt, H1.
  rewrite read_entries_fold.
  rewrite (frame_blind_read_ifds host _ ReaderFrame_default).
  cbn [fst snd]. fold (entries_at host p off).
  change (current_frame (file (set_current_frame ?f ?q))) with f.
  fold fe. split; [reflexivity|].
  cbn [set_good set_next_ifd_offset file current_frame].
  rewrite read_frame. reflexivity.
Qed.

Lemma dispatch_tag_uneven d fr e :
  snd (dispatch_tag d (fr, e)) = if uneven_bits d then MultiSampleSizeNotSupport else e.
Proof.
  unfold dispatch_tag, uneven_bits.
  unfold Tags.ImageWidth, Tags.ImageLength, Tags.BitsPerSample.
  destruct (tag d =? 256) eqn:E1.
  { destruct (tag d =? 258) eqn:E3; [lia | reflexivity]. }
  destruct (tag d =? 257) eqn:E2.
  { destruct (tag d =? 258) eqn:E3; [lia | reflexivity]. }
  destruct (tag d =? 258) eqn:E3; cbn [andb].
  - destruct (pvalue d) as [|x rest]; [rewrite andb_false_r; reflexivity|].
    destruct (0 <? count d); cbn [andb snd]; [|reflexivity].
    destruct (all_equal_to x rest); reflexivity.
  - repeat match goal with
      | |- context [if ?b then _ else _] => destruct b
      end; reflexivity.
Qed.

Lemma interpret_error ds : forall fr e,
  snd (interpret ds (fr, e))
  = if existsb uneven_bits ds then MultiSampleSizeNotSupport
    else e.
Proof.
  unfold interpret. induction ds as [|d ds IH]; intros fr e; [reflexivity|].
  cbn [fold_left existsb].
  pose proof (dispatch_tag_uneven d fr e) as Hd.
  destruct (dispatch_tag d (fr, e)) as [f1 e1]. cbn [snd] in Hd. subst e1.
  rewrite IH. destruct (uneven_bits d); cbn [orb]; [|reflexivity].
  destruct (existsb uneven_bits ds); reflexivity.
Qed.

Lemma dispatch_tag_tiled d fr e :
  is_tiled (fst (dispatch_tag d (fr, e))) = is_tiled fr || tile_entry d.
Proof.
  unfold dispatch_tag, tile_entry.
  unfold Tags.ImageWidth, Tags.ImageLength, Tags.BitsPerSample, Tags.Compression,
    Tags.StripOffsets, Tags.SamplesPerPixel, Tags.RowsPerStrip, Tags.SampleFormat,
    Tags.ImageDescription, Tags.StripByteCounts, Tags.PlanarConfig, Tags.Orientation,
    Tags.PhotometricInterpretation, Tags.FillOrder, Tags.TileByteCounts, Tags.TileLength,
    Tags.TileOffsets, Tags.TileWidth, Tags.XResolution, Tags.YResolution,
    Tags.ResolutionUnit.
  destruct (tag d =? 325) eqn:T1; destruct (tag d =? 323) eqn:T2;
    destruct (tag d =? 324) eqn:T3; destruct (tag d =? 322) eqn:T4;
    try (exfalso; lia); cbn [orb];
    repeat match goal with
      | |- context [tag d =? ?c] => destruct (tag d =? c) eqn:?; try (exfalso; lia)
      end;
    repeat match goal with
      | |- context [if ?b then _ else _] => destruct b
      | |- context [match ?l with [] => _ | _ :: _ => _ end] => destruct l
      end;
    cbn [fst is_tiled set_width set_image_length set_bits_per_sample set_compression
         set_strip_offsets set_strip_count set_samples_per_pixel set_rows_per_strip
         set_sample_format set_description set_strip_byte_counts set_planar_config
         set_orientation set_photometric_interpertation set_fill_order set_is_tiled
         set_resolution set_resolution_unit];
    rewrite ?orb_true_r, ?orb_false_r; reflexivity.
Qed.

Lemma interpret_tiled ds : forall fr e,
  is_tiled (fst (interpret ds (fr, e))) = is_tiled fr || existsb tile_entry ds.
Proof.
  unfold interpret. induction ds as [|d ds IH]; intros fr e.
  - cbn. rewrite orb_false_r. reflexivity.
  - cbn [fold_left existsb].
    pose proof (dispatch_tag_tiled d fr e) as Hd.
    destruct (dispatch_tag d (fr, e)) as [f1 e1]. cbn [fst] in Hd.
    rewrite IH, Hd, orb_assoc. reflexivity.
Qed.

(** X22.  [read_next_frame] decodes the entries of a directory without
    regard to the frame it is building: its result and the frame it leaves
    are the tag [switch] folded over the decoded entries, started from the
    default frame and [NoError], with [height] set from [image_length] at
    the end. *)
Theorem read_next_frame_interprets_the_entries host p :
  let off := next_ifd_offset (file p) in
  0 < off -> off + 2 < size (file p) ->
  off + 2 <= len (contents (stream (file p))) ->
  let fe := interpret (entries_at host p off) (ReaderFrame_default, NoError) in
  fst (read_next_frame host p) = snd fe
  /\ current_frame (file (snd (read_next_frame host p))) = with_height (fst fe).
Proof. apply read_next_frame_fold. Qed.

(** X23.  [read_next_frame] returns [MultiSampleSizeNotSupport] exactly when
    some [BitsPerSample] entry of the directory lists values that differ,
    wherever the entry stands: entries that follow it, a well-formed
    [BitsPerSample] entry included, do not take the error back; otherwise
    the result is [NoError]. *)
Theorem read_next_frame_reports_uneven_bits host p :
  let off := next_ifd_offset (file p) in
  0 < off -> off + 2 < size (file p) ->
  off + 2 <= len (contents (stream (file p))) ->
  fst (read_next_frame host p)
  = if existsb uneven_bits (entries_at host p off)
    then MultiSampleSizeNotSupport
    else NoError.
Proof.
  intros off H0 H2 Hl.
  destruct (read_next_frame_fold host p H0 H2 Hl) as [He _]. cbv zeta in He.
  rewrite He. apply interpret_error.
Qed.

(** X24.  A directory with a tile tag ([TileWidth], [TileLength],
    [TileOffsets] or [TileByteCounts]) anywhere among its entries gives a
    tiled frame, and [get_sample_data] then returns an empty vector and
    leaves the reader alone, with [TiledNotSupport], or with
    [CompressionNotSupport] or [ReaderIsNotGoodYet] where those checks come
    first. *)
Theorem tiled_frames_are_refused host dm p :
  let off := next_ifd_offset (file p) in
  0 < off -> off + 2 < size (file p) ->
  off + 2 <= len (contents (stream (file p))) ->
  existsb tile_entry (entries_at host p off) = true ->
  let q := snd (read_next_frame host p) in
  is_tiled (current_frame (file q)) = true
  /\ forall sample err,
       exists e,
         Reader_get_sample_data host dm sample err q = Returned ([], e, q)
         /\ (e = ReaderIsNotGoodYet \/ e = CompressionNotSupport \/ e = TiledNotSupport).
Proof.
  intros off H0 H2 Hl Ht q.
  destruct (read_next_frame_fold host p H0 H2 Hl) as [_ Hf]. cbv zeta in Hf.
  fold off q in Hf.
  assert (Htiled : is_tiled (current_frame (file q)) = true).
  { rewrite Hf. unfold with_height. cbn [is_tiled set_height].
    rewrite interpret_tiled, Ht. apply orb_true_r. }
  split; [exact Htiled|].
  intros sample err. unfold Reader_get_sample_data.
  destruct (good q); [|eexists; split; [reflexivity | auto]].
  unfold get_sample_data_internal. cbv zeta. unfold precondition_error.
  rewrite Htiled.
  destruct (negb (compression (current_frame (file q)) =? CompressionType.None));
    eexists; (split; [reflexivity | auto]).
Qed.

(** ** Frames whose strips are never read *)

Lemma element_zeros_inv host k N i v :
  element host k (zeros N) i = Returned v -> v = 0 /\ (i + 1) * k <= Z.of_nat N.
Proof.
  unfold element. rewrite len_zeros. destruct (_ <=? _) eqn:E; [|discriminate].
  intros H. inversion H. rewrite skipn_zeros, firstn_zeros, load_zeros.
  split; [reflexivity | lia].
Qed.

Lemma swap_elements_zeros_inv host k N n : forall x b,
  k = 2 \/ k = 4 \/ k = 8 -> 0 <= x ->
  swap_elements host n k (zeros N) x = Returned b -> b = zeros N.
Proof.
  induction n as [|n IH]; intros x b Hk Hx H.
  - cbn in H. inversion H. reflexivity.
  - cbn [swap_elements] in H. apply obind_Returned in H. destruct H as (v & Hv & H).
    apply element_zeros_inv in Hv. destruct Hv as [-> Hb].
    rewrite byte_swap_zero, store_zero, splice_zeros in H by nia.
    apply (IH (x + 1) b Hk ltac:(lia) H).
Qed.

Lemma sample_value_zeros_inv host bps N i t :
  sample_value host bps (zeros N) i = Returned t -> variant_value t = 0.
Proof.
  unfold sample_value.
  repeat match goal with
    | |- context [if ?b then _ else _] => destruct b
    end; intros H;
    try (apply obind_Returned in H; destruct H as (v & Hv & H);
         apply element_zeros_inv in Hv; destruct Hv as [-> _]);
    inversion H; reflexivity.
Qed.

Lemma materialize_zeros_inv host bps N n : forall i result r,
  materialize host n bps (zeros N) i result = Returned r ->
  Forall (fun t => variant_value t = 0) result ->
  Forall (fun t => variant_value t = 0) r.
Proof.
  induction n as [|n IH]; intros i result r H Hres.
  - cbn in H. inversion H; subst. exact Hres.
  - cbn [materialize] in H. apply obind_Returned in H. destruct H as (t & Ht & H).
    apply (IH _ _ _ H). apply Forall_app. split; [exact Hres|].
    constructor; [|constructor]. eapply sample_value_zeros_inv; eauto.
Qed.

(** Without one sample per pixel or the planar layout, the buffer is never
    written: it is returned as [resize] made it. *)
Lemma fill_buffer_unread host dm sample err p b st e :
  let fr := current_frame (file p) in
  samples_per_pixel fr <> 1 ->
  planar_config fr <> PlanarConfiguration.Planar ->
  fill_buffer host dm sample err p = Returned (b, st, e) ->
  b = zeros (Z.to_nat (u32 (width fr * height fr * bits_per_sample fr) / 8))
  /\ st = stream (file p) /\ e = err.
Proof.
  intros fr Hspp Hpc. unfold fill_buffer. fold fr. cbv zeta.
  fold (zeros (Z.to_nat (u32 (width fr * height fr * bits_per_sample fr) / 8))).
  set (Z0 := zeros _).
  destruct (samples_per_pixel fr =? 1) eqn:E1; [lia|].
  destruct (planar_config fr =? PlanarConfiguration.Planar) eqn:E2; [lia|].
  cbn [orb].
  destruct ((0 <? strip_count fr) && nonempty (strip_byte_counts fr)
            && nonempty (strip_offsets fr)) eqn:Es.
  - intros H. inversion H. repeat split.
  - destruct ((1 <? samples_per_pixel fr)
              && (planar_config fr =? PlanarConfiguration.Chunky)).
    + destruct (Z_lt_dec 0 (strip_count fr)) as [E0|E0].
      * rewrite (chunky_loop_without_table fr sample [] Z0 (stream (file p)) err Es E0).
        discriminate.
      * replace (Z.to_nat (strip_count fr)) with 0%nat by lia.
        cbn [chunky_strips obind].
        intros H. apply obind_Returned in H. destruct H as (b2 & Hsw & H).
        inversion H; subst. split; [|split; reflexivity].
        destruct (orders_differ p); [|inversion Hsw; reflexivity].
        repeat match type of Hsw with
          | (if ?c then _ else _) = _ => destruct c
          end;
          try (inversion Hsw; reflexivity);
          eapply swap_elements_zeros_inv; try exact Hsw; auto; lia.
    + intros H. inversion H. repeat split.
Qed.

(** X25.  [get_sample_data] gives pixel values only for a frame of one
    sample per pixel or of planar layout.  For every other frame, an image
    of several interleaved samples among them, whenever the call returns,
    every value it returns is zero, whatever the file holds. *)
Theorem only_planar_frames_are_read host dm sample err p res e p' :
  let fr := current_frame (file p) in
  samples_per_pixel fr <> 1 ->
  planar_config fr <> PlanarConfiguration.Planar ->
  Reader_get_sample_data host dm sample err p = Returned (res, e, p') ->
  Forall (fun t => variant_value t = 0) res.
Proof.
  intros fr Hspp Hpc. unfold Reader_get_sample_data.
  destruct (good p); [|intros H; inversion H; subst; constructor].
  unfold get_sample_data_internal. fold fr. cbv zeta.
  destruct (precondition_error fr); [intros H; inversion H; subst; constructor|].
  intros H. apply obind_Returned in H. destruct H as ([[b st] e1] & Hf & H).
  apply (fill_buffer_unread host dm sample err p b st e1 Hspp Hpc) in Hf.
  destruct Hf as (-> & -> & ->).
  apply obind_Returned in H. destruct H as (r & Hm & H). inversion H; subst.
  eapply materialize_zeros_inv; [exact Hm | constructor].
Qed.

(** ** The path the test program opens *)

(** X26.  The test program opens what stands between the quotes when the
    line it reads starts and ends with a double quote, and the line itself
    when it is empty or does not start or does not end with one; a line
    that is a single double quote gives the empty path. *)
Theorem unquote_strips_one_pair_of_quotes (s : list byte) :
  len s < 2 ^ 64 ->
  unquote (x22 :: s ++ [x22]) = s
  /\ unquote [x22] = []
  /\ unquote [] = []
  /\ (forall a, a <> x22 -> unquote (a :: s) = a :: s)
  /\ (forall a, a <> x22 -> unquote (s ++ [a]) = s ++ [a]).
Proof.
  intros Hs. pose proof (len_nonneg s) as H0.
  split; [|split; [reflexivity|split; [reflexivity|split]]].
  - unfold unquote.
    assert (Hl : len (x22 :: s ++ [x22]) = len s + 2).
    { unfold len. cbn [length]. rewrite length_app. cbn [length]. lia. }
    rewrite Hl.
    destruct (len s + 2 =? 0) eqn:E; [lia|]. cbn [negb andb nth].
    replace (Z.to_nat (len s + 2 - 1)) with (S (length s)) by (unfold len; lia).
    cbn [nth]. rewrite app_nth2, Nat.sub_diag by lia. cbn [nth].
    change (byte_val x22 =? 34) with true. cbn [andb].
    unfold substr. rewrite Hl.
    replace (len s + 2 - 2) with (len s) by lia.
    unfold u64, wrap. rewrite Z.mod_small by lia.
    replace (Z.to_nat (Z.min (len s) (len s + 2 - 1))) with (length s) by (unfold len; lia).
    change (Z.to_nat 1) with 1%nat. cbn [skipn].
    rewrite firstn_app, firstn_all, Nat.sub_diag. cbn [firstn]. apply app_nil_r.
  - intros a Ha. unfold unquote. cbn [nth].
    destruct (byte_val a =? 34) eqn:E.
    + apply Z.eqb_eq in E. apply (byte_val_inj a x22) in E. contradiction.
    + rewrite andb_false_r. reflexivity.
  - intros a Ha. unfold unquote.
    assert (Hl : len (s ++ [a]) = len s + 1).
    { unfold len. rewrite length_app. cbn [length]. lia. }
    rewrite Hl.
    replace (Z.to_nat (len s + 1 - 1)) with (length s) by (unfold len; lia).
    rewrite (app_nth2 s [a] x00 (n := length s)) by lia.
    rewrite Nat.sub_diag. cbn [nth].
    destruct (byte_val a =? 34) eqn:E.
    + apply Z.eqb_eq in E. apply (byte_val_inj a x22) in E. contradiction.
    + rewrite andb_false_r. reflexivity.
Qed.

(** ** The properties above on concrete files *)

(** X1 on two bytes, on a little-endian machine. *)
Lemma byte_swap_reverses_bytes_witness :
  util.byte_swap (len [x12; x34]) (load LittleHost [x12; x34])
  = load LittleHost (rev [x12; x34]).
Proof.
  apply (byte_swap_reverses_bytes LittleHost [x12; x34]).
  right; left; reflexivity.
Defined.

(** X3: the ranges from 0 to 10 and from 5 to 20 meet from 5 to 10. *)
Lemma do_ranges_overlap_is_intersection_witness :
  util.do_ranges_overlap LP64 (0, 10) (5, 20) = Some (5, 10).
Proof.
  rewrite (do_ranges_overlap_is_intersection LP64 0 10 5 20);
    [reflexivity | lia | reflexivity | lia | reflexivity | reflexivity].
Defined.


(** X5 on five entries asked of a stream that has failed. *)
Lemma read_entries_after_failure_witness :
  read_entries LittleHost 5 NoError
    (set_stream (mk_ifstream small_image_file 10 true) (reader_on small_image_file))
  = (NoError,
     set_stream (mk_ifstream small_image_file 10 true) (reader_on small_image_file)).
Proof.
  apply (read_entries_after_failure LittleHost 5 NoError
           (set_stream (mk_ifstream small_image_file 10 true) (reader_on small_image_file))).
  reflexivity.
Defined.

(** X8 on the header of a little-endian file, on a little-endian machine. *)
Lemma open_checks_header_witness :
  frame_error (fst (opened small_image_file))
  /\ first_record_offset (file (snd (opened small_image_file))) = 8
  /\ file_byte_order (file (snd (opened small_image_file))) = LittleEndian
  /\ system_byte_order (file (snd (opened small_image_file))) = LittleEndian
  /\ size (file (snd (opened small_image_file))) = 76.
Proof.
  destruct (open_checks_header LittleHost LP64 small_image_file eq_refl) as (_ & _ & H).
  apply (H LittleEndian).
  - left. split; reflexivity.
  - vm_compute; discriminate.
  - reflexivity.
Defined.

(** X9 on a directory of five entries in a file that ends inside the third. *)
Lemma read_next_frame_on_cut_directory_witness :
  let r := read_next_frame LittleHost (set_next_ifd_offset 8 (reader_on cut_file)) in
  (fst r = NoError \/ fst r = MultiSampleSizeNotSupport)
  /\ next_ifd_offset (file (snd r)) = 0
  /\ failbit (stream (file (snd r))) = true
  /\ Reader_has_next_frame (snd r) = false.
Proof.
  apply (read_next_frame_on_cut_directory LittleHost
           (set_next_ifd_offset 8 (reader_on cut_file)));
    vm_compute; first [reflexivity | discriminate].
Defined.

(** X10 on a file whose only directory names the last two bytes of the file
    as its successor. *)
Lemma error_ends_the_walk_witness :
  let r := Reader_read_next_frame LittleHost (snd (opened short_tail_file)) in
  Reader_has_next_frame (snd r) = false
  /\ Reader_good (snd r) = false
  /\ Reader_count_frames LittleHost 5 (snd r) = Some (0, snd r)
  /\ Reader_get_sample_data LittleHost LP64 0 NoError (snd r)
     = Returned ([], ReaderIsNotGoodYet, snd r).
Proof.
  intros r.
  destruct (error_ends_the_walk LittleHost LP64 (snd (opened short_tail_file))
              ltac:(vm_compute; discriminate)) as (H1 & H2).
  destruct (H2 ltac:(vm_compute; reflexivity)) as (H3 & H4 & H5).
  split; [exact H1 | split; [exact H3 | split; [exact (H4 5%nat) | exact (H5 0 NoError)]]].
Defined.

(** X11 on the same file. *)
Lemma has_next_frame_without_a_count_witness :
  Reader_read_next_frame LittleHost (snd (opened short_tail_file))
  = (NoMoreImagesInTiff,
     set_good false (set_current_frame ReaderFrame_default (snd (opened short_tail_file)))).
Proof.
  apply (has_next_frame_without_a_count LittleHost (snd (opened short_tail_file)));
    vm_compute; first [reflexivity | discriminate].
Defined.

(** X12 on the second page of a file, read by a reader that holds the first
    page and by one that holds no frame and whose stream has failed. *)
Lemma read_next_frame_forgets_the_frame_witness :
  let p := snd (opened three_page_file) in
  let q := set_current_frame ReaderFrame_default
             (set_stream (mk_ifstream three_page_file 0 true) p) in
  fst (read_next_frame LittleHost q) = fst (read_next_frame LittleHost p)
  /\ current_frame (file (snd (read_next_frame LittleHost q)))
     = current_frame (file (snd (read_next_frame LittleHost p)))
  /\ next_ifd_offset (file (snd (read_next_frame LittleHost q)))
     = next_ifd_offset (file (snd (read_next_frame LittleHost p))).
Proof.
  intros p q.
  apply (read_next_frame_forgets_the_frame LittleHost p q).
  - vm_compute. repeat split.
  - vm_compute; discriminate.
Defined.

(** X13 on three pages, counted before and after the second one is read. *)
Lemma count_frames_ignores_the_walk_witness :
  let p := snd (opened three_page_file) in
  let q := snd (Reader_read_next_frame LittleHost p) in
  option_map fst (Reader_count_frames LittleHost 3 q)
  = option_map fst (Reader_count_frames LittleHost 3 p).
Proof.
  intros p q.
  apply (count_frames_ignores_the_walk LittleHost 3 p q).
  - vm_compute. repeat split.
  - vm_compute; reflexivity.
  - vm_compute; reflexivity.
Defined.

(** X14 on a directory that names itself, with a thousand passes. *)
Lemma count_frames_never_returns_on_a_cycle_witness :
  Reader_count_frames LittleHost 1000 (snd (opened looping_file)) = None.
Proof.
  apply (count_frames_never_returns_on_a_cycle LittleHost (snd (opened looping_file))).
  - vm_compute; reflexivity.
  - assert (Hk : forall k,
             nth_directory LittleHost (snd (opened looping_file))
               (first_record_offset (file (snd (opened looping_file)))) k = 8).
    { induction k as [|k IH]; [vm_compute; reflexivity|].
      change (nth_directory LittleHost (snd (opened looping_file))
                (first_record_offset (file (snd (opened looping_file)))) (S k))
        with (ifd_next LittleHost (snd (opened looping_file))
                (nth_directory LittleHost (snd (opened looping_file))
                   (first_record_offset (file (snd (opened looping_file)))) k)).
      rewrite IH. vm_compute; reflexivity. }
    intros k. rewrite Hk. vm_compute.
    split; [reflexivity | split; [discriminate | reflexivity]].
Defined.

(** X15 on the two pixels of a 2x1 image. *)
Lemma get_sample_data_shape_witness :
  let p := snd (opened small_image_file) in
  let fr := current_frame (file p) in
  (NoError = ReaderIsNotGoodYet <-> good p = false)
  /\ ((refusal NoError /\ [V8 0x11; V8 0x22] = [] /\ p = p)
      \/ (NoError = NoError
          /\ len [V8 0x11; V8 0x22] = u32 (width fr * height fr)
          /\ In (Reader_bits_per_sample p) [8; 16; 32; 64]
          /\ Forall (fun t => variant_width t = Reader_bits_per_sample p)
               [V8 0x11; V8 0x22])).
Proof.
  intros p.
  apply (get_sample_data_shape LittleHost LP64 0 NoError p [V8 0x11; V8 0x22] NoError p).
  vm_compute; reflexivity.
Defined.

(** X16 on two strips of 50 bytes gathered into a buffer of 100. *)
Lemma planar_path_gathers_the_strips_witness :
  exists st',
    fill_buffer LittleHost LP64 0 NoError two_strip_reader
    = Returned (repeat x2d 50 ++ repeat x2b 50, st', NoError)
    /\ contents st' = contents (stream (file two_strip_reader)).
Proof.
  destruct (planar_path_gathers_the_strips LittleHost LP64 0 NoError two_strip_reader)
    as (st' & H & Hc).
  - left; reflexivity.
  - reflexivity.
  - vm_compute; discriminate.
  - vm_compute; discriminate.
  - replace (strips (current_frame (file two_strip_reader))) with [(8, 50); (58, 50)]
      by (vm_compute; reflexivity).
    unfold strip_inside.
    replace (len (contents (stream (file two_strip_reader)))) with 108
      by (vm_compute; reflexivity).
    repeat constructor; cbn [fst snd]; lia.
  - lia.
  - vm_compute; reflexivity.
  - exists st'. split; [|exact Hc]. rewrite H. vm_compute; reflexivity.
Defined.

(** X17 on the 2x1 image of [small_image_file]. *)
Lemma get_sample_data_returns_the_image_witness :
  exists p',
    Reader_get_sample_data LittleHost LP64 0 NoError (snd (opened small_image_file))
    = Returned ([V8 0x11; V8 0x22], NoError, p').
Proof.
  destruct (get_sample_data_returns_the_image LittleHost LP64 0 NoError
              (snd (opened small_image_file))) as (p' & H).
  - vm_compute; reflexivity.
  - vm_compute; reflexivity.
  - vm_compute; discriminate.
  - vm_compute; discriminate.
  - vm_compute; reflexivity.
  - left; vm_compute; reflexivity.
  - vm_compute; reflexivity.
  - vm_compute; discriminate.
  - vm_compute; discriminate.
  - replace (strips (current_frame (file (snd (opened small_image_file)))))
      with [(74, 2)] by (vm_compute; reflexivity).
    unfold strip_inside.
    replace (len (contents (stream (file (snd (opened small_image_file)))))) with 76
      by (vm_compute; reflexivity).
    repeat constructor; cbn [fst snd]; lia.
  - lia.
  - vm_compute; reflexivity.
  - vm_compute; discriminate.
  - exists p'. rewrite H. vm_compute; reflexivity.
Defined.

(** X18: the byte 200 is -56 as [int8_t]. *)
Lemma cast_as_reinterprets_witness :
  cast_as LittleHost (UInt 1) (SInt 1) 200 = Some (-56)
  /\ cast_as LittleHost (SInt 1) (UInt 1) (-56) = Some 200
  /\ cast_as LittleHost (UInt 1) (UInt 1) 200 = Some 200
  /\ cast_as LittleHost (UInt 2) (UInt 4) 200 = None.
Proof.
  destruct (cast_as_reinterprets LittleHost 1 200 ltac:(lia) ltac:(lia))
    as (H1 & H2 & H3 & H4).
  split; [exact H1 | split; [exact H2 | split; [exact H3 | apply H4; discriminate]]].
Defined.

(** X19 on the first entry of [small_image_file], a width of 2 as one
    [Long]. *)
Lemma read_ifd_decodes_inline_witness :
  let p := set_stream (mk_ifstream small_image_file 10 false) (reader_on small_image_file) in
  let d := fst (read_ifd LittleHost p) in
  tag d = Tags.ImageWidth /\ type d = DataType.Long /\ count d = 1
  /\ pvalue d = [2] /\ value d = 2.
Proof.
  intros p d.
  destruct (read_ifd_decodes_inline LittleHost p 10) as (Ht & Hty & Hc & _ & Hl & _ & _ & Hv).
  - split; [reflexivity | left; reflexivity].
  - split; reflexivity.
  - lia.
  - vm_compute; discriminate.
  - fold d in Ht, Hty, Hc, Hl, Hv.
    assert (Hp : pvalue d = [2]).
    { rewrite Hl; [reflexivity | rewrite Hty; reflexivity | rewrite Hc; reflexivity]. }
    split; [rewrite Ht; reflexivity|]. split; [rewrite Hty; reflexivity|].
    split; [rewrite Hc; reflexivity|]. split; [exact Hp|].
    rewrite Hv; [rewrite Hp; reflexivity | rewrite Hty; vm_compute; split; discriminate].
Defined.

(** X20 on three [Short] values kept at offset 20 of a file of 26 bytes. *)
Lemma read_ifd_follows_the_offset_witness :
  pvalue (fst (read_ifd LittleHost (reader_on short_entry_bytes)))
  = [0x6548; 0x6c6c; 0x006f].
Proof.
  destruct (read_ifd_follows_the_offset LittleHost (reader_on short_entry_bytes) 0 2)
    as (H & _).
  - split; [reflexivity | left; reflexivity].
  - split; reflexivity.
  - lia.
  - vm_compute; discriminate.
  - reflexivity.
  - left. vm_compute. repeat split.
  - rewrite H; [vm_compute; reflexivity | vm_compute; discriminate].
Defined.

(** X21 on a 2x1 grey image, on a little-endian machine. *)
Lemma gray8_file_reads_back_witness :
  exists p,
    open LittleHost (Some (gray8_file 2 1 [x11; x22])) ReaderPrivate_default = (NoError, p)
    /\ Reader_good p = true
    /\ Reader_width p = 2 /\ Reader_height p = 1
    /\ Reader_bits_per_sample p = 8 /\ Reader_samples_per_pixel p = 1
    /\ Reader_sameple_format p = SampleFormat.Uint
    /\ Reader_resolution_unit p = ResolutionUnit.None
    /\ Reader_image_description p = []
    /\ Reader_has_next_frame p = false
    /\ Reader_get_sample_data LittleHost LP64 0 NoError p
       = Returned ([V8 0x11; V8 0x22], NoError, p).
Proof.
  apply (gray8_file_reads_back LittleHost LP64 2 1 [x11; x22] NoError);
    [reflexivity | lia | lia | reflexivity | lia].
Defined.

(** X22 on the directory of [small_image_file]. *)
Lemma read_next_frame_interprets_the_entries_witness :
  let p := set_next_ifd_offset 8 (reader_on small_image_file) in
  let fe := interpret (entries_at LittleHost p 8) (ReaderFrame_default, NoError) in
  fst (read_next_frame LittleHost p) = snd fe
  /\ current_frame (file (snd (read_next_frame LittleHost p))) = with_height (fst fe).
Proof.
  intros p.
  apply (read_next_frame_interprets_the_entries LittleHost p);
    vm_compute; first [reflexivity | discriminate].
Defined.

(** X23 on the second page of [two_page_file], which declares 5, 6 and 5
    bits. *)
Lemma read_next_frame_reports_uneven_bits_witness :
  fst (read_next_frame LittleHost (set_next_ifd_offset 14 (reader_on two_page_file)))
  = MultiSampleSizeNotSupport.
Proof.
  pose proof (read_next_frame_reports_uneven_bits LittleHost
                (set_next_ifd_offset 14 (reader_on two_page_file))
                ltac:(vm_compute; reflexivity) ltac:(vm_compute; reflexivity)
                ltac:(vm_compute; discriminate)) as H.
  rewrite H. vm_compute; reflexivity.
Defined.

(** X24 on a directory with a [TileWidth] entry. *)
Lemma tiled_frames_are_refused_witness :
  let q := snd (read_next_frame LittleHost (set_next_ifd_offset 8 (reader_on tiled_file))) in
  is_tiled (current_frame (file q)) = true
  /\ exists e,
       Reader_get_sample_data LittleHost LP64 0 NoError q = Returned ([], e, q)
       /\ (e = ReaderIsNotGoodYet \/ e = CompressionNotSupport \/ e = TiledNotSupport).
Proof.
  intros q.
  destruct (tiled_frames_are_refused LittleHost LP64
              (set_next_ifd_offset 8 (reader_on tiled_file))
              ltac:(vm_compute; reflexivity) ltac:(vm_compute; reflexivity)
              ltac:(vm_compute; discriminate) ltac:(vm_compute; reflexivity)) as (H1 & H2).
  split; [exact H1 | exact (H2 0 NoError)].
Defined.

(** X25 on one pixel of two interleaved samples [0x11] and [0x22]. *)
Lemma only_planar_frames_are_read_witness :
  Reader_get_sample_data LittleHost LP64 0 NoError (snd (opened (chunky_file x11 x22)))
  = Returned ([V8 0], NoError, snd (opened (chunky_file x11 x22)))
  /\ Forall (fun t => variant_value t = 0) [V8 0].
Proof.
  assert (H : Reader_get_sample_data LittleHost LP64 0 NoError
                (snd (opened (chunky_file x11 x22)))
              = Returned ([V8 0], NoError, snd (opened (chunky_file x11 x22))))
    by (vm_compute; reflexivity).
  split; [exact H|].
  apply (only_planar_frames_are_read LittleHost LP64 0 NoError
           (snd (opened (chunky_file x11 x22))) [V8 0] NoError
           (snd (opened (chunky_file x11 x22))));
    [vm_compute; discriminate | vm_compute; discriminate | exact H].
Defined.

(** X26 on the line [ab] between quotes, and on the lines [/ab] and [ab/]. *)
Lemma unquote_strips_one_pair_of_quotes_witness :
  unquote (x22 :: [x61; x62] ++ [x22]) = [x61; x62]
  /\ unquote (x2f :: [x61; x62]) = x2f :: [x61; x62]
  /\ unquote ([x61; x62] ++ [x2f]) = [x61; x62] ++ [x2f].
Proof.
  destruct (unquote_strips_one_pair_of_quotes [x61; x62] ltac:(vm_compute; reflexivity))
    as (H1 & _ & _ & H4 & H5).
  split; [exact H1|]. split; [apply H4; discriminate | apply H5; discriminate].
Defined.
